(** * A shallow embedding of the transit engine (dataManager.js,
      localPathfinder.js, tripScheduler.js, busPositionCalculator.js)

    Conventions of the embedding.
    - JavaScript strings are [string]; objects used as dictionaries and
      [Map]s keyed by strings are [gmap string _].  Where a key can be a
      name that every object inherits, the reads and writes of the plain
      object are written out ([readPlain], [Dict]).
    - Second-of-day values are integers ([Z]).  Distances, coordinates and
      progress fractions are JavaScript numbers; they are modelled by exact
      rationals ([Q]), [NaN] being [None] where the code tests for it.
      The quotient of which [Math.ceil] is taken for a walking time is
      rounded to the nearest number ([binary64]); statements on
      interpolated coordinates are made within one metre.
    - A CSV time field [HH:MM:SS] is held as its three numeric components,
      that is, after [split(':').map(Number)].
    - [null]/[undefined] results are [option]; a property read on
      [null]/[undefined] is the [TypeError] of the [result] monad. *)

From Stdlib Require Import ZArith QArith Qround Qminmax Qabs Qpower Lia Lqa.
From Stdlib Require Import String Ascii DecimalString.
From stdpp Require Import base option list gmap strings sorting.

Local Open Scope Z_scope.

(* ===================================================================== *)
(** ** GTFS rows as parsed by Papa.parse (every CSV field is a string)   *)
(* ===================================================================== *)

Record Route := mkRoute {
  r_route_id : string;
  route_short_name : string;
  route_color : string;
  route_text_color : string
}.

Record Trip := mkTrip {
  trip_id : string;
  t_route_id : string;
  service_id : string;
  trip_headsign : string
}.

Record Stop := mkStop {
  stop_id : string;
  stop_name : string;
  stop_lat : string;
  stop_lon : string
}.

(** [HH:MM:SS] after [timeStr.split(':').map(Number)]. *)
Record TimeStr := mkTime { hours : Z; minutes : Z; seconds : Z }.

(** A stop_times row; [stop_sequence] is the value of
    [parseInt(st.stop_sequence)]. *)
Record StopTime := mkStopTime {
  st_trip_id : string;
  st_stop_id : string;
  stop_sequence : Z;
  arrival_time : TimeStr;
  departure_time : TimeStr
}.

(** A calendar.txt row: one column per week day, and the date window. *)
Record CalendarRule := mkRule {
  c_service_id : string;
  sunday : string; monday : string; tuesday : string; wednesday : string;
  thursday : string; friday : string; saturday : string;
  start_date : string;
  end_date : string
}.

(** A calendar_dates.txt row. *)
Record CalendarDate := mkException {
  cd_service_id : string;
  cd_date : string;
  exception_type : string
}.

(** What the code observes of a JavaScript [Date]. *)
Record JsDate := mkDate {
  getFullYear : Z;
  getMonth : Z;
  getDate : Z;
  getDay : nat;
  getHours : Z;
  getMinutes : Z;
  getSeconds : Z
}.

(** The value of [feature.geometry]: a GeoJSON object with a [coordinates]
    member, or a bare array of [[lon, lat]] vertices. Only the latter has a
    [length]. *)
Inductive Geometry :=
| GeomObject (gtype : string) (coordinates : list (Q * Q))
| GeomArray (vertices : list (Q * Q)).

Record Feature := mkFeature {
  f_route_id : option string;
  f_geometry : Geometry
}.

(** The fields of a loaded [DataManager]. *)
Record DataManager := mkDM {
  routes : list Route;
  trips : list Trip;
  stops : list Stop;
  calendar : list CalendarRule;
  calendarDates : list CalendarDate;
  geoJson : option (list Feature);
  isLoaded : bool;
  masterStops : list Stop;
  routesById : gmap string Route;
  stopsById : gmap string Stop;
  tripsByTripId : gmap string Trip;
  stopTimesByTrip : gmap string (list StopTime);
  stopTimesByStop : gmap string (list StopTime)
}.

(* ===================================================================== *)
(** ** dataManager.js: small accessors                                    *)
(* ===================================================================== *)

(** [getRoute]: [routesById[routeId] || null]. *)
Definition getRoute (dm : DataManager) (routeId : string) : option Route :=
  routesById dm !! routeId.

(** [getStop]: [stopsById[stopId] || null]. *)
Definition getStop (dm : DataManager) (stopId : string) : option Stop :=
  stopsById dm !! stopId.

(** [getStopTimes]: [stopTimesByTrip[tripId] || []]. *)
Definition getStopTimes (dm : DataManager) (tripId : string) : list StopTime :=
  default [] (stopTimesByTrip dm !! tripId).

(** [getRouteGeometry]: the geometry of the first feature of that route. *)
Definition getRouteGeometry (dm : DataManager) (routeId : string)
  : option Geometry :=
  match geoJson dm with
  | None => None
  | Some features =>
      match List.find (fun f => bool_decide (f_route_id f = Some routeId))
                      features with
      | Some f => Some (f_geometry f)
      | None => None
      end
  end.

(** [timeToSeconds]: [hours * 3600 + minutes * 60 + seconds]. *)
Definition timeToSeconds (t : TimeStr) : Z :=
  hours t * 3600 + minutes t * 60 + seconds t.

(* ===================================================================== *)
(** ** Service calendar: [getServiceId]                                   *)
(* ===================================================================== *)

(** [String(n)] for an integer. *)
Definition String_of_Z (n : Z) : string :=
  NilZero.string_of_int (Z.to_int n).

(** [s.padStart(2, '0')]. *)
Definition padStart2 (s : string) : string :=
  match String.length s with
  | O => "00"
  | S O => String.append "0" s
  | _ => s
  end.

(** [date.getFullYear() + String(date.getMonth() + 1).padStart(2, '0')
     + String(date.getDate()).padStart(2, '0')]. *)
Definition dateString (date : JsDate) : string :=
  String.append (String_of_Z (getFullYear date))
    (String.append (padStart2 (String_of_Z (getMonth date + 1)))
                   (padStart2 (String_of_Z (getDate date)))).

(** [s[dayOfWeek]] where [dayOfWeek] is the [getDay()]-th name of
    ['sunday', ..., 'saturday']; out of the table the name is
    [undefined] and so is the column. *)
Definition dayColumn (day : nat) (s : CalendarRule) : option string :=
  match day with
  | 0%nat => Some (sunday s)
  | 1%nat => Some (monday s)
  | 2%nat => Some (tuesday s)
  | 3%nat => Some (wednesday s)
  | 4%nat => Some (thursday s)
  | 5%nat => Some (friday s)
  | 6%nat => Some (saturday s)
  | _ => None
  end.

(** The predicate of [calendarDates.find]. *)
Definition exceptionMatches (ds : string) (d : CalendarDate) : bool :=
  String.eqb (cd_date d) ds.

(** The predicate of [calendar.find]. *)
Definition ruleMatches (day : nat) (ds : string) (s : CalendarRule) : bool :=
  bool_decide (dayColumn day s = Some "1")
  && String.leb (start_date s) ds
  && String.leb ds (end_date s).

Definition getServiceId (dm : DataManager) (date : JsDate) : option string :=
  let ds := dateString date in
  match List.find (exceptionMatches ds) (calendarDates dm) with
  | Some exception =>
      if String.eqb (exception_type exception) "1"
      then Some (cd_service_id exception) else None
  | None =>
      match List.find (ruleMatches (getDay date) ds) (calendar dm) with
      | Some service => Some (c_service_id service)
      | None => None
      end
  end.

(** JavaScript truthiness of a string-or-null value: [!serviceId]. *)
Definition falsy (v : option string) : bool :=
  match v with
  | None => true
  | Some s => String.eqb s ""
  end.

(** An entry of the list [DataManager.getActiveTrips] builds. *)
Record ActiveTrip := mkActiveTrip {
  at_tripId : string;
  at_trip : Trip;
  at_stopTimes : list StopTime;
  at_route : option Route
}.

(** The body of [trips.forEach] in [getActiveTrips]: what one trip
    contributes. *)
Definition activeTripEntry (dm : DataManager) (serviceId : string)
    (currentSeconds : Z) (trip : Trip) : option ActiveTrip :=
  if String.eqb (service_id trip) serviceId then
    match stopTimesByTrip dm !! trip_id trip with
    | None => None
    | Some stopTimes =>
        if (length stopTimes <? 2)%nat then None
        else
          match head stopTimes, last stopTimes with
          | Some firstStop, Some lastStop =>
              let startTime := timeToSeconds (departure_time firstStop) in
              let endTime := timeToSeconds (arrival_time lastStop) in
              if (currentSeconds >=? startTime) && (currentSeconds <=? endTime)
              then Some (mkActiveTrip (trip_id trip) trip stopTimes
                                      (routesById dm !! t_route_id trip))
              else None
          | _, _ => None
          end
    end
  else None.

(** [DataManager.getActiveTrips(currentSeconds, date)]. *)
Definition getActiveTrips (dm : DataManager) (currentSeconds : Z)
    (date : JsDate) : list ActiveTrip :=
  let serviceId := getServiceId dm date in
  if falsy serviceId then []
  else
    match serviceId with
    | Some sid => omap (activeTripEntry dm sid currentSeconds) (trips dm)
    | None => []
    end.

(* ===================================================================== *)
(** ** tripScheduler.js                                                   *)
(* ===================================================================== *)

(** [{ lat: parseFloat(..), lon: parseFloat(..) }]; [None] is [NaN]. *)
Record LatLon := mkLatLon { ll_lat : option Q; ll_lon : option Q }.

(** The two shapes of object [findCurrentState] returns. *)
Inductive State :=
| waiting_at_stop (position : LatLon) (stopInfo : Stop)
                  (nextDepartureTime : Z)
| moving (fromStopInfo toStopInfo : Stop) (departureTime arrivalTime : Z)
         (progress : Q).

(** An element of the list [TripScheduler.getActiveTrips] returns. *)
Record Bus := mkBus {
  b_tripId : string;
  b_trip : Trip;
  b_route : option Route;
  b_segment : option State;
  b_position : option LatLon;
  b_currentSeconds : Z
}.

Module TripScheduler.
Section WithHost.

(** The host's [parseFloat]; [None] is [NaN]. *)
Variable parseFloat : string -> option Q.

(** [calculateProgress(departureTime, arrivalTime, currentTime)]. *)
Definition calculateProgress (departureTime arrivalTime currentTime : Z)
  : Q :=
  let totalDuration := arrivalTime - departureTime in
  if totalDuration <=? 0 then 0%Q
  else
    let elapsed := currentTime - departureTime in
    Qmax 0 (Qmin 1 (inject_Z elapsed / inject_Z totalDuration)).

Definition waitingAt (stopInfo : Stop) (nextDepartureTime : Z) : State :=
  waiting_at_stop
    (mkLatLon (parseFloat (stop_lat stopInfo))
              (parseFloat (stop_lon stopInfo)))
    stopInfo nextDepartureTime.

(** The [for (let i = 1; ...)] loop of [findCurrentState]: [prevStop] is
    [stopTimes[i - 1]] and the list starts at [stopTimes[i]]. *)
Fixpoint scanStops (dm : DataManager) (currentSeconds : Z)
    (prevStop : StopTime) (rest : list StopTime) : option State :=
  match rest with
  | [] => None
  | currentStop :: rest' =>
      let arrivalTime := timeToSeconds (arrival_time currentStop) in
      let departureTime := timeToSeconds (departure_time currentStop) in
      let prevDepartureTime := timeToSeconds (departure_time prevStop) in
      if (currentSeconds >? arrivalTime)
         && (currentSeconds <=? departureTime) then
        match getStop dm (st_stop_id currentStop) with
        | None => None
        | Some stopInfo => Some (waitingAt stopInfo departureTime)
        end
      else if (currentSeconds >? prevDepartureTime)
              && (currentSeconds <=? arrivalTime) then
        match getStop dm (st_stop_id prevStop),
              getStop dm (st_stop_id currentStop) with
        | Some prevStopInfo, Some currentStopInfo =>
            Some (moving prevStopInfo currentStopInfo
                    prevDepartureTime arrivalTime
                    (calculateProgress prevDepartureTime arrivalTime
                                       currentSeconds))
        | _, _ => None
        end
      else scanStops dm currentSeconds currentStop rest'
  end.

(** [findCurrentState(stopTimes, currentSeconds)]. *)
Definition findCurrentState (dm : DataManager) (stopTimes : list StopTime)
    (currentSeconds : Z) : option State :=
  match stopTimes with
  | [] => None
  | firstStop :: rest =>
      let firstArrivalTime := timeToSeconds (arrival_time firstStop) in
      let firstDepartureTime := timeToSeconds (departure_time firstStop) in
      if (currentSeconds >=? firstArrivalTime)
         && (currentSeconds <=? firstDepartureTime) then
        match getStop dm (st_stop_id firstStop) with
        | None => None
        | Some stopInfo => Some (waitingAt stopInfo firstDepartureTime)
        end
      else scanStops dm currentSeconds firstStop rest
  end.

(** The body of [activeTrips.forEach] in [getActiveTrips]. *)
Definition activeBus (dm : DataManager) (currentSeconds : Z)
    (a : ActiveTrip) : option Bus :=
  match findCurrentState dm (at_stopTimes a) currentSeconds with
  | None => None
  | Some state =>
      Some (mkBus (at_tripId a) (at_trip a) (at_route a)
              (match state with
               | moving _ _ _ _ _ => Some state
               | waiting_at_stop _ _ _ => None
               end)
              (match state with
               | waiting_at_stop position _ _ => Some position
               | moving _ _ _ _ _ => None
               end)
              currentSeconds)
  end.

(** [TripScheduler.getActiveTrips(currentSeconds, date)]. *)
Definition getActiveTrips (dm : DataManager) (currentSeconds : Z)
    (date : JsDate) : list Bus :=
  if negb (isLoaded dm) then []
  else omap (activeBus dm currentSeconds)
            (getActiveTrips dm currentSeconds date).

End WithHost.
End TripScheduler.

(* ===================================================================== *)
(** ** localPathfinder.js                                                 *)
(* ===================================================================== *)

(** A coordinate member is a CSV string ([stop.stop_lat]) or a number. *)
Inductive jsval :=
| JStr (s : string)
| JNum (q : Q).

Record Coords := mkCoords { lat : jsval; lon : jsval }.

Inductive LegType := WALK | BUS.

(** The leg objects the planner builds; a member a literal does not set is
    [None]. *)
Record Leg := mkLeg {
  leg_type : LegType;
  fromStopId : option string;
  fromStopName : option string;
  fromCoords : option Coords;
  toStopId : option string;
  toStopName : option string;
  toCoords : option Coords;
  startTime : Z;
  endTime : Z;
  duration : Z;
  distance : option Q;
  route : option Route;
  tripId : option string;
  headsign : option string
}.

(** An element of a [transferMap] entry. *)
Record Transfer := mkTransfer {
  tr_toStopId : string;
  walkTime : Z;
  tr_distance : Q
}.

(** A [backLink] entry: [{ leg, prevStopId }]. *)
Record BackLink := mkBackLink { bl_leg : Leg; prevStopId : string }.

Inductive Status :=
| OK | NO_SERVICE | NO_START_STOPS | NO_END_STOPS | NO_PATH_FOUND.

(** [{ status, path, stats }]; of [stats] only [duration] is kept (the
    other member is wall-clock time). *)
Record Outcome := mkOutcome {
  status : Status;
  path : list Leg;
  stats_duration : option Z
}.

(** Exceptions and divergence of the planner's loops. *)
Inductive JsError := TypeError.

Inductive result (A : Type) :=
| Return (a : A)
| Throw (e : JsError)
| OutOfFuel.
Arguments Return {A} a.
Arguments Throw {A} e.
Arguments OutOfFuel {A}.

#[global] Instance result_ret : MRet result := fun A a => Return a.

#[global] Instance result_bind : MBind result := fun A B k m =>
  match m with
  | Return a => k a
  | Throw e => Throw e
  | OutOfFuel => OutOfFuel
  end.

(** Reading a member of a possibly [null]/[undefined] object. *)
Definition deref {A} (o : option A) : result A :=
  match o with
  | Some a => Return a
  | None => Throw TypeError
  end.

(** A [for ... of] loop whose body may throw. *)
Fixpoint forEachM {A S} (body : S -> A -> result S) (l : list A) (s : S)
  : result S :=
  match l with
  | [] => Return s
  | a :: l' => s' ← body s a; forEachM body l' s'
  end.

Module PriorityQueue.

(** The [for] loop of [enqueue]: splice before the first element of
    strictly greater priority, else push. *)
Fixpoint insert (element : Leg * Z) (collection : list (Leg * Z))
  : list (Leg * Z) :=
  match collection with
  | [] => [element]
  | x :: rest =>
      if element.2 <? x.2 then element :: x :: rest
      else x :: insert element rest
  end.

Definition enqueue (element : Leg * Z) (collection : list (Leg * Z))
  : list (Leg * Z) :=
  match collection with
  | [] => [element]
  | _ => insert element collection
  end.

(** [shift]. *)
Definition dequeue (collection : list (Leg * Z))
  : option ((Leg * Z) * list (Leg * Z)) :=
  match collection with
  | [] => None
  | x :: rest => Some (x, rest)
  end.

Definition isEmpty (collection : list (Leg * Z)) : bool :=
  match collection with
  | [] => true
  | _ => false
  end.

End PriorityQueue.

(** The per-query state of [findItinerary]. *)
Record SearchState := mkSearch {
  pq : list (Leg * Z);
  minArrivalTime : gmap string Z;
  backLink : gmap string BackLink
}.

(** [x || Infinity] for a number-or-undefined [x]: [None] is [Infinity].
    [0] is falsy. *)
Definition orInfinity (x : option Z) : option Z :=
  match x with
  | None => None
  | Some 0 => None
  | Some t => Some t
  end.

(** [a < b] and [a > b] against a number-or-[Infinity]. *)
Definition ltExt (a : Z) (b : option Z) : bool :=
  match b with
  | None => true
  | Some b => a <? b
  end.

Definition gtExt (a : Z) (b : option Z) : bool :=
  match b with
  | None => false
  | Some b => a >? b
  end.

(** The test guarding both relaxations:
    [t < (minArrivalTime.get(stopId) || Infinity)]. *)
Definition improves (t : Z) (labels : gmap string Z) (stopId : string) : bool :=
  ltExt t (orInfinity (labels !! stopId)).

(** The test at dequeue:
    [t > (minArrivalTime.get(stopId) || Infinity)]. *)
Definition superseded (t : Z) (labels : gmap string Z) (stopId : string)
  : bool :=
  gtExt t (orInfinity (labels !! stopId)).

Definition WALK_SPEED_MPS : Q := 14 # 10.
Definition MAX_WALK_METERS : Q := 500.

(** The exponent of the leading bit of a positive rational:
    [2 ^ floorLog2 a <= a < 2 ^ (floorLog2 a + 1)]. *)
Definition floorLog2 (a : Q) : Z :=
  let k := Z.log2 (Qnum a) - Z.log2 (Zpos (Qden a)) in
  if Qle_bool (2 ^ k) a then k else k - 1.

(** The nearest integer, a tie going to the even one. *)
Definition roundHalfEven (q : Q) : Z :=
  let f := Qfloor q in
  match (q - inject_Z f ?= 1 # 2)%Q with
  | Lt => f
  | Gt => f + 1
  | Eq => if Z.even f then f else f + 1
  end.

(** The JavaScript number (IEEE 754 binary64) nearest to a rational, a tie
    going to the even significand: 53 significant bits from the leading bit
    down, or down to [2 ^ -1074] for the subnormal numbers. It is what a
    literal denotes and what one arithmetic operation answers for its exact
    result, for magnitudes below [2 ^ 1024]. *)
Definition binary64 (x : Q) : Q :=
  if Qeq_bool x 0 then 0%Q
  else
    let a := Qabs x in
    let e := Z.max (floorLog2 a) (-1022) in
    let quantum := (2 ^ (e - 52))%Q in
    let r := Qred (inject_Z (roundHalfEven (a / quantum)) * quantum) in
    if Qle_bool 0 x then r else (- r)%Q.

(** [Math.ceil(distance / this.WALK_SPEED_MPS)]: the quotient of the
    number [distance] by the number that the literal [1.4] denotes is
    rounded to a number before [Math.ceil] is taken. *)
Definition walkSeconds (distance : Q) : Z :=
  Qceiling (binary64 (distance / binary64 WALK_SPEED_MPS)).

(** A [LocalPathfinder] instance: the data manager it reads and the
    transfer map its constructor built. *)
Record Pathfinder := mkPathfinder {
  dataManager : DataManager;
  transferMap : gmap string (list Transfer)
}.

Module LocalPathfinder.
Section WithDataManager.

(** [dataManager.calculateDistance(lat1, lon1, lat2, lon2)], in metres;
    its definition is not part of the sources at hand. *)
Variable calculateDistance : jsval -> jsval -> jsval -> jsval -> Q.

(** [dataManager.findStopsWithinRadius(coords, radius)]: a list of
    [{ stop, distance }]; its definition is not part of the sources at
    hand. [findItinerary] also reads a [stop_id] member of these elements
    ([endStops.map(s => s.stop_id)]); it is taken to be the identifier of
    their [stop]. *)
Variable findStopsWithinRadius :
  DataManager -> Coords -> Q -> list (Stop * Q).

Definition stopDistance (fromStop toStop : Stop) : Q :=
  calculateDistance (JStr (stop_lat fromStop)) (JStr (stop_lon fromStop))
                    (JStr (stop_lat toStop)) (JStr (stop_lon toStop)).

(** The inner [for (let j = 0; ...)] loop of [prebuildTransferMap]; [j]
    is the index of the head of [rest]. *)
Fixpoint transfersFrom (i : nat) (fromStop : Stop) (j : nat)
    (rest : list Stop) : list Transfer :=
  match rest with
  | [] => []
  | toStop :: rest' =>
      if (i =? j)%nat then transfersFrom i fromStop (S j) rest'
      else
        let distance := stopDistance fromStop toStop in
        if Qle_bool distance MAX_WALK_METERS then
          mkTransfer (stop_id toStop) (walkSeconds distance) distance
            :: transfersFrom i fromStop (S j) rest'
        else transfersFrom i fromStop (S j) rest'
  end.

(** The outer loop; [i] is the index of the head of [rest] in [stops]. *)
Fixpoint buildTransfers (stops : list Stop) (i : nat) (rest : list Stop)
    (tm : gmap string (list Transfer)) : gmap string (list Transfer) :=
  match rest with
  | [] => tm
  | fromStop :: rest' =>
      buildTransfers stops (S i) rest'
        (<[stop_id fromStop := transfersFrom i fromStop 0 stops]> tm)
  end.

(** [prebuildTransferMap()], from an empty [Map]. *)
Definition prebuildTransferMap (dm : DataManager)
  : gmap string (list Transfer) :=
  buildTransfers (masterStops dm) 0 (masterStops dm) ∅.

(** [new LocalPathfinder(dataManager)]. *)
Definition new (dm : DataManager) : Pathfinder :=
  mkPathfinder dm (prebuildTransferMap dm).

(** Step 3 of [findItinerary]: one start stop. *)
Definition seedStart (startCoords : Coords) (departureTimeSeconds : Z)
    (s : SearchState) (stopInfo : Stop * Q) : SearchState :=
  let '(stop, distance) := stopInfo in
  let walkTime := walkSeconds distance in
  let arrivalTime := departureTimeSeconds + walkTime in
  let leg :=
    mkLeg WALK None None (Some startCoords)
          (Some (stop_id stop)) (Some (stop_name stop))
          (Some (mkCoords (JStr (stop_lat stop)) (JStr (stop_lon stop))))
          departureTimeSeconds arrivalTime walkTime (Some distance)
          None None None in
  mkSearch (PriorityQueue.enqueue (leg, arrivalTime) (pq s))
           (<[stop_id stop := arrivalTime]> (minArrivalTime s))
           (<[stop_id stop := mkBackLink leg "START"]> (backLink s)).

(** The body of [for (let i = 0; i < tripStops.length; i++)]. *)
Definition relaxBus (dm : DataManager) (currentStopId : string)
    (st : StopTime) (trip : Trip) (depTime : Z)
    (s : SearchState) (nextStopOnTrip : StopTime) : result SearchState :=
  if stop_sequence nextStopOnTrip >? stop_sequence st then
    let nextStopId := st_stop_id nextStopOnTrip in
    let nextArrivalTime := timeToSeconds (arrival_time nextStopOnTrip) in
    if improves nextArrivalTime (minArrivalTime s) nextStopId then
      let labels := <[nextStopId := nextArrivalTime]> (minArrivalTime s) in
      let route := getRoute dm (t_route_id trip) in
      fromStop ← deref (getStop dm (st_stop_id st));
      toStop ← deref (getStop dm nextStopId);
      let busLeg :=
        mkLeg BUS (Some (st_stop_id st)) (Some (stop_name fromStop)) None
              (Some nextStopId) (Some (stop_name toStop)) None
              depTime nextArrivalTime (nextArrivalTime - depTime) None
              route (Some (trip_id trip)) (Some (trip_headsign trip)) in
      Return (mkSearch
                (PriorityQueue.enqueue (busLeg, nextArrivalTime) (pq s))
                labels
                (<[nextStopId := mkBackLink busLeg currentStopId]>
                   (backLink s)))
    else Return s
  else Return s.

(** The body of [for (const st of departures)]. *)
Definition boardTrip (dm : DataManager) (serviceId : string)
    (currentStopId : string) (currentArrivalTime : Z)
    (s : SearchState) (st : StopTime) : result SearchState :=
  let depTime := timeToSeconds (departure_time st) in
  trip ← deref (tripsByTripId dm !! st_trip_id st);
  if String.eqb (service_id trip) serviceId
     && (depTime >=? currentArrivalTime) then
    forEachM (relaxBus dm currentStopId st trip depTime)
             (getStopTimes dm (st_trip_id st)) s
  else Return s.

(** The body of [for (const transfer of transfers)]. *)
Definition relaxWalk (dm : DataManager) (currentStopId : string)
    (currentArrivalTime : Z) (s : SearchState) (transfer : Transfer)
  : result SearchState :=
  let newArrivalTime := currentArrivalTime + walkTime transfer in
  if improves newArrivalTime (minArrivalTime s) (tr_toStopId transfer) then
    let labels :=
      <[tr_toStopId transfer := newArrivalTime]> (minArrivalTime s) in
    let fromStop := getStop dm currentStopId in
    let toStop := getStop dm (tr_toStopId transfer) in
    fromStop ← deref fromStop;
    toStop ← deref toStop;
    let walkLeg :=
      mkLeg WALK (Some currentStopId) (Some (stop_name fromStop))
            (Some (mkCoords (JStr (stop_lat fromStop))
                            (JStr (stop_lon fromStop))))
            (Some (tr_toStopId transfer)) (Some (stop_name toStop))
            (Some (mkCoords (JStr (stop_lat toStop))
                            (JStr (stop_lon toStop))))
            currentArrivalTime newArrivalTime (walkTime transfer)
            (Some (tr_distance transfer)) None None None in
    Return (mkSearch
              (PriorityQueue.enqueue (walkLeg, newArrivalTime) (pq s))
              labels
              (<[tr_toStopId transfer := mkBackLink walkLeg currentStopId]>
                 (backLink s)))
  else Return s.

(** Parts A and B of the loop body, for a dequeued entry that is neither
    superseded nor final. *)
Definition expand (pf : Pathfinder) (serviceId : string)
    (currentStopId : string) (currentArrivalTime : Z) (s : SearchState)
  : result SearchState :=
  let dm := dataManager pf in
  let departures := default [] (stopTimesByStop dm !! currentStopId) in
  s1 ← forEachM (boardTrip dm serviceId currentStopId currentArrivalTime)
                departures s;
  let transfers := default [] (transferMap pf !! currentStopId) in
  forEachM (relaxWalk dm currentStopId currentArrivalTime) transfers s1.

(** Step 4, [while (!pq.isEmpty())]: the result is [finalStopId] (with
    the state the loop leaves, for [backLink]). An entry whose leg names
    no stop reads [undefined] labels and indexes and so expands to
    nothing. *)
Fixpoint dijkstra (fuel : nat) (pf : Pathfinder) (serviceId : string)
    (endStopIds : gset string) (s : SearchState)
  : result (option string * SearchState) :=
  match PriorityQueue.dequeue (pq s) with
  | None => Return (None, s)
  | Some ((currentLeg, currentArrivalTime), rest) =>
      match fuel with
      | O => OutOfFuel
      | S fuel' =>
          let s0 := mkSearch rest (minArrivalTime s) (backLink s) in
          match toStopId currentLeg with
          | None => dijkstra fuel' pf serviceId endStopIds s0
          | Some currentStopId =>
              if superseded currentArrivalTime (minArrivalTime s0)
                            currentStopId
              then dijkstra fuel' pf serviceId endStopIds s0
              else if bool_decide (currentStopId ∈ endStopIds)
              then Return (Some currentStopId, s0)
              else
                s1 ← expand pf serviceId currentStopId
                            currentArrivalTime s0;
                dijkstra fuel' pf serviceId endStopIds s1
          end
      end
  end.

(** The [while (currentLink.prevStopId !== 'START')] loop of
    [reconstructPath], and the [push] after it. *)
Fixpoint followLinks (fuel : nat) (links : gmap string BackLink)
    (currentLink : BackLink) (legs : list Leg) : result (list Leg) :=
  if String.eqb (prevStopId currentLink) "START" then
    Return (legs ++ [bl_leg currentLink])
  else
    match fuel with
    | O => OutOfFuel
    | S fuel' =>
        next ← deref (links !! prevStopId currentLink);
        followLinks fuel' links next (legs ++ [bl_leg currentLink])
    end.

(** [reconstructPath(backLink, finalStopId, endCoords)]:
    [{ legs, totalDuration }]. *)
Definition reconstructPath (fuel : nat) (pf : Pathfinder)
    (links : gmap string BackLink) (finalStopId : string)
    (endCoords : Coords) : result (list Leg * option Z) :=
  finalStop ← deref (getStop (dataManager pf) finalStopId);
  let finalDistance :=
    calculateDistance (JStr (stop_lat finalStop)) (JStr (stop_lon finalStop))
                      (lat endCoords) (lon endCoords) in
  let finalWalkTime := walkSeconds finalDistance in
  finalLink ← deref (links !! finalStopId);
  let finalLegArrivalTime := endTime (bl_leg finalLink) in
  let finalWalkLeg :=
    mkLeg WALK (Some finalStopId) (Some (stop_name finalStop))
          (Some (mkCoords (JStr (stop_lat finalStop))
                          (JStr (stop_lon finalStop))))
          None None (Some endCoords)
          finalLegArrivalTime (finalLegArrivalTime + finalWalkTime)
          finalWalkTime (Some finalDistance) None None None in
  legs ← followLinks fuel links finalLink [finalWalkLeg];
  let reversedLegs := reverse legs in
  let totalDuration :=
    match last reversedLegs, head reversedLegs with
    | Some l, Some f => Some (endTime l - startTime f)
    | _, _ => None
    end in
  Return (reversedLegs, totalDuration).

(** [findItinerary(startCoords, endCoords, departureDate)]; [fuel] bounds
    the iterations of each of the two [while] loops. *)
Definition findItinerary (fuel : nat) (pf : Pathfinder)
    (startCoords endCoords : Coords) (departureDate : JsDate)
  : result Outcome :=
  let dm := dataManager pf in
  let departureTimeSeconds :=
    getHours departureDate * 3600 + getMinutes departureDate * 60
    + getSeconds departureDate in
  let serviceId := getServiceId dm departureDate in
  if falsy serviceId then Return (mkOutcome NO_SERVICE [] None)
  else
    match serviceId with
    | None => Return (mkOutcome NO_SERVICE [] None)
    | Some serviceId =>
        let startStops :=
          findStopsWithinRadius dm startCoords MAX_WALK_METERS in
        if (length startStops =? 0)%nat
        then Return (mkOutcome NO_START_STOPS [] None)
        else
          let endStops :=
            findStopsWithinRadius dm endCoords MAX_WALK_METERS in
          let endStopIds : gset string :=
            list_to_set (map (fun s => stop_id s.1) endStops) in
          if (length endStops =? 0)%nat
          then Return (mkOutcome NO_END_STOPS [] None)
          else
            let s0 :=
              foldl (seedStart startCoords departureTimeSeconds)
                    (mkSearch [] ∅ ∅) startStops in
            '(finalStopId, s) ← dijkstra fuel pf serviceId endStopIds s0;
            if falsy finalStopId
            then Return (mkOutcome NO_PATH_FOUND [] None)
            else
              match finalStopId with
              | Some finalStopId =>
                  '(legs, totalDuration) ←
                    reconstructPath fuel pf (backLink s) finalStopId
                                    endCoords;
                  Return (mkOutcome OK legs totalDuration)
              | None => Return (mkOutcome NO_PATH_FOUND [] None)
              end
    end.

End WithDataManager.
End LocalPathfinder.

(* ===================================================================== *)
(** ** busPositionCalculator.js                                           *)
(* ===================================================================== *)

(** [{ lat, lon, progress }]. *)
Record Position := mkPosition {
  pos_lat : Q;
  pos_lon : Q;
  pos_progress : Q
}.

Module BusPositionCalculator.
Section WithHost.

(** The host's [parseFloat]; [None] is [NaN]. *)
Variable parseFloat : string -> option Q.

(** [dataManager.calculateDistance] and
    [dataManager.findNearestPointOnRoute(routeCoordinates, lat, lon)]
    (an index, or [null]); their definitions are not part of the sources
    at hand. *)
Variable calculateDistance : jsval -> jsval -> jsval -> jsval -> Q.
Variable findNearestPointOnRoute : list (Q * Q) -> Q -> Q -> option nat.

(** [a.slice(start, end)] for indices that are not negative. *)
Definition slice {A} (a : list A) (start stop : nat) : list A :=
  drop start (take stop a).

(** The loop filling [distances] after its first element [0]: [acc] is
    [distances[i - 1]] and [prev] is [pathSegment[i - 1]]. *)
Fixpoint cumulative (acc : Q) (prev : Q * Q) (rest : list (Q * Q))
  : list Q :=
  match rest with
  | [] => []
  | p :: rest' =>
      let '(lon1, lat1) := prev in
      let '(lon2, lat2) := p in
      let dist :=
        calculateDistance (JNum lat1) (JNum lon1) (JNum lat2) (JNum lon2) in
      (acc + dist)%Q :: cumulative (acc + dist)%Q p rest'
  end.

(** The loop looking for the piece that holds [targetDistance]; the
    lists start at [distances[i]] and [pathSegment[i]]. *)
Fixpoint locate (targetDistance progress : Q) (distances : list Q)
    (pathSegment : list (Q * Q)) : option Position :=
  match distances, pathSegment with
  | di :: ((di1 :: _) as distances'), p1 :: ((p2 :: _) as pathSegment') =>
      if Qle_bool di targetDistance && Qle_bool targetDistance di1 then
        let segmentDistance := (di1 - di)%Q in
        let segmentProgress :=
          if negb (Qle_bool segmentDistance 0)
          then ((targetDistance - di) / segmentDistance)%Q
          else 0%Q in
        let '(lon1, lat1) := p1 in
        let '(lon2, lat2) := p2 in
        Some (mkPosition (lat1 + (lat2 - lat1) * segmentProgress)%Q
                         (lon1 + (lon2 - lon1) * segmentProgress)%Q
                         progress)
      else locate targetDistance progress distances' pathSegment'
  | _, _ => None
  end.

(** [interpolateAlongRoute(routeCoordinates, fromLat, fromLon, toLat,
    toLon, progress)]. *)
Definition interpolateAlongRoute (routeCoordinates : list (Q * Q))
    (fromLat fromLon toLat toLon progress : Q) : option Position :=
  match findNearestPointOnRoute routeCoordinates fromLat fromLon,
        findNearestPointOnRoute routeCoordinates toLat toLon with
  | Some fromIndex, Some toIndex =>
      if (fromIndex =? toIndex)%nat then None
      else
        let pathSegment :=
          if (fromIndex <? toIndex)%nat
          then slice routeCoordinates fromIndex (toIndex + 1)
          else reverse (slice routeCoordinates toIndex (fromIndex + 1)) in
        match pathSegment with
        | p0 :: ((_ :: _) as rest) =>
            let distances := 0%Q :: cumulative 0%Q p0 rest in
            let totalDistance := default 0%Q (last distances) in
            if Qeq_bool totalDistance 0 then None
            else
              let targetDistance := (totalDistance * progress)%Q in
              match locate targetDistance progress distances pathSegment with
              | Some position => Some position
              | None =>
                  match last pathSegment with
                  | Some (lon, lat) => Some (mkPosition lat lon progress)
                  | None => None
                  end
              end
        | _ => None
        end
  | _, _ => None
  end.

(** Truthiness of [routeId]. *)
Definition truthy (routeId : option string) : option string :=
  match routeId with
  | Some r => if String.eqb r "" then None else Some r
  | None => None
  end.

(** The attempt on the route's geometry in [calculatePosition]; only an
    array has a [length]. *)
Definition alongGeometry (dm : DataManager) (routeId : option string)
    (fromLat fromLon toLat toLon progress : Q) : option Position :=
  match truthy routeId with
  | None => None
  | Some r =>
      match getRouteGeometry dm r with
      | Some (GeomArray routeGeometry) =>
          if (0 <? length routeGeometry)%nat
          then interpolateAlongRoute routeGeometry fromLat fromLon
                                     toLat toLon progress
          else None
      | _ => None
      end
  end.

(** [calculatePosition(segment, routeId)]; a state that is not [moving]
    has no [fromStopInfo]. *)
Definition calculatePosition (dm : DataManager) (segment : option State)
    (routeId : option string) : option Position :=
  match segment with
  | Some (moving fromStopInfo toStopInfo _ _ progress) =>
      match parseFloat (stop_lat fromStopInfo),
            parseFloat (stop_lon fromStopInfo),
            parseFloat (stop_lat toStopInfo),
            parseFloat (stop_lon toStopInfo) with
      | Some fromLat, Some fromLon, Some toLat, Some toLon =>
          match alongGeometry dm routeId fromLat fromLon toLat toLon
                              progress with
          | Some position => Some position
          | None =>
              Some (mkPosition (fromLat + (toLat - fromLat) * progress)%Q
                               (fromLon + (toLon - fromLon) * progress)%Q
                               progress)
          end
      | _, _, _, _ => None
      end
  | _ => None
  end.

End WithHost.
End BusPositionCalculator.

(* ===================================================================== *)
(** ** dataManager.js: the indexes [loadAllData] builds                   *)
(* ===================================================================== *)

(** The names every plain object inherits from [Object.prototype]; what
    is read under each of them is truthy (a function, or the prototype
    itself under [__proto__]). *)
Definition objectPrototypeNames : list string :=
  ["constructor"; "__defineGetter__"; "__defineSetter__"; "hasOwnProperty";
   "__lookupGetter__"; "__lookupSetter__"; "isPrototypeOf";
   "propertyIsEnumerable"; "toString"; "valueOf"; "__proto__";
   "toLocaleString"].

Definition inherited (key : string) : bool :=
  bool_decide (key ∈ objectPrototypeNames).

(** What a read [obj[key]] finds in an object used as a dictionary: a value
    that was stored, a value that was not (a member the object inherits),
    or [undefined]. *)
Inductive Member (A : Type) :=
| Stored (a : A)
| Foreign
| Undefined.
Arguments Stored {A} a.
Arguments Foreign {A}.
Arguments Undefined {A}.

(** A read of an object whose own properties are [m] and whose prototype
    is [Object.prototype]. *)
Definition readPlain {A} (m : gmap string A) (key : string) : Member A :=
  match m !! key with
  | Some a => Stored a
  | None => if inherited key then Foreign else Undefined
  end.

(** An object [{}] written with [obj[key] = value], the values being
    objects: its own properties, and the value that has become its
    prototype, if any. An assignment under [__proto__] creates no own
    property: it makes the value the prototype of the object. *)
Record Dict (A : Type) := mkDict {
  own : gmap string A;
  proto : option A
}.
Arguments mkDict {A} own proto.
Arguments own {A} d.
Arguments proto {A} d.

Section WithMembers.

Context {A : Type}.

(** Whether a stored value has a member of that name, own or inherited. *)
Variable hasMember : A -> string -> bool.

(** [obj[key] = value]. *)
Definition dictSet (key : string) (value : A) (obj : Dict A) : Dict A :=
  if String.eqb key "__proto__" then mkDict (own obj) (Some value)
  else mkDict (<[key := value]> (own obj)) (proto obj).

(** [obj[key]]: an own property; else, under [__proto__], the prototype;
    else what the prototype has under the key. *)
Definition dictGet (obj : Dict A) (key : string) : Member A :=
  match own obj !! key with
  | Some a => Stored a
  | None =>
      match proto obj with
      | Some p =>
          if String.eqb key "__proto__" then Stored p
          else if hasMember p key then Foreign else Undefined
      | None => if inherited key then Foreign else Undefined
      end
  end.

End WithMembers.

(** [rows.reduce((acc, row) => { acc[key(row)] = row; return acc; }, {})],
    and [rows.forEach(row => { obj[key(row)] = row })] on an empty
    object. *)
Definition indexBy {A} (key : A -> string) (rows : list A) : Dict A :=
  foldl (fun acc row => dictSet (key row) row acc) (mkDict ∅ None) rows.

(** [if (!m[key]) m[key] = []; m[key].push(x)]. *)
Definition pushInto {A} (key : string) (x : A) (m : gmap string (list A))
  : gmap string (list A) :=
  <[key := default [] (m !! key) ++ [x]]> m.

(** The same statements with the reads of the object written out, its
    own properties being [m] and its prototype [Object.prototype]: an
    array is created where the read finds nothing; what the read then
    finds receives [push], which a value that is not an array does not
    have. *)
Definition pushUnder {A} (key : string) (x : A) (m : gmap string (list A))
  : result (gmap string (list A)) :=
  let m1 :=
    match readPlain m key with
    | Undefined => <[key := []]> m
    | _ => m
    end in
  match readPlain m1 key with
  | Stored l => Return (<[key := l ++ [x]]> m1)
  | _ => Throw TypeError
  end.

(** [rows.forEach(row => { if (!m[key(row)]) m[key(row)] = [];
    m[key(row)].push(row) })] from [m]. *)
Definition groupBy {A} (key : A -> string) (rows : list A)
    (m : gmap string (list A)) : result (gmap string (list A)) :=
  forEachM (fun acc row => pushUnder (key row) row acc) rows m.

(** [a.sort((x, y) => key(x) - key(y))]. The sort is stable, so its result
    is the one of inserting the elements in turn, each after those whose
    key is not greater. *)
Fixpoint insertByKey {A} (key : A -> Z) (x : A) (sorted : list A) : list A :=
  match sorted with
  | [] => [x]
  | y :: rest =>
      if key x <? key y then x :: y :: rest
      else y :: insertByKey key x rest
  end.

Definition sortByKey {A} (key : A -> Z) (a : list A) : list A :=
  foldl (fun sorted x => insertByKey key x sorted) [] a.

(** The stop_times of each trip, grouped by [trip_id] and sorted by
    [parseInt(stop_sequence)]. *)
Definition buildStopTimesByTrip (stopTimes : list StopTime)
  : result (gmap string (list StopTime)) :=
  m ← groupBy st_trip_id stopTimes (∅ : gmap string (list StopTime));
  Return (sortByKey stop_sequence <$> (m : gmap string (list StopTime))).

(** [preprocessStopTimesByStop()], from the empty object of the
    constructor. *)
Definition preprocessStopTimesByStop (stopTimes : list StopTime)
  : result (gmap string (list StopTime)) :=
  groupBy st_stop_id stopTimes ∅.

(** A stops.txt row: the members of [Stop] and the two columns that
    [groupNearbyStops] reads; [parent_station] is [None] when the file has
    no such column. *)
Record StopRow := mkStopRow {
  row : Stop;
  parent_station : option string;
  location_type : string
}.

Module Grouping.
Section WithTrim.

(** The host's [String.prototype.trim]. *)
Variable trim : string -> string.

(** [stop.parent_station && stop.parent_station.trim() !== '']. *)
Definition hasParent (stop : StopRow) : bool :=
  match parent_station stop with
  | Some p => negb (String.eqb p "") && negb (String.eqb (trim p) "")
  | None => false
  end.

(** The first [forEach]: the identifiers of the rows that have a parent. *)
Definition childStops (stops : list StopRow) : gset string :=
  list_to_set (map (fun s => stop_id (row s)) (filter hasParent stops)).

(** The body of the second [forEach], on
    [(masterStops, groupedStopMap)]. *)
Definition groupStop (children : gset string)
    (acc : list StopRow * gmap string (list string)) (stop : StopRow)
  : list StopRow * gmap string (list string) :=
  let '(masters, grouped) := acc in
  let id := stop_id (row stop) in
  if String.eqb (location_type stop) "1" then
    (masters ++ [stop], pushInto id id grouped)
  else if hasParent stop then
    (masters, pushInto (default "" (parent_station stop)) id grouped)
  else if negb (String.eqb (location_type stop) "1")
          && negb (bool_decide (id ∈ children))
          && negb (hasParent stop) then
    (masters ++ [stop], <[id := [id]]> grouped)
  else acc.

(** [groupNearbyStops()]: [(masterStops, groupedStopMap)]. *)
Definition groupNearbyStops (stops : list StopRow)
  : list StopRow * gmap string (list string) :=
  foldl (groupStop (childStops stops)) ([], ∅) stops.

End WithTrim.
End Grouping.

(* ===================================================================== *)
(** ** dataManager.js: departures, destinations and service bounds        *)
(* ===================================================================== *)

(** [getTripDestination(stopTimes)] of the data manager; [None] is an
    [undefined] argument. *)
Definition getTripDestination (dm : DataManager)
    (stopTimes : option (list StopTime)) : string :=
  match stopTimes with
  | None => "Destination inconnue"
  | Some l =>
      match last l with
      | None => "Destination inconnue"
      | Some lastStop =>
          match getStop dm (st_stop_id lastStop) with
          | Some stopInfo => stop_name stopInfo
          | None => "Destination inconnue"
          end
      end
  end.

(** An element of [allDepartures]. *)
Record Departure := mkDeparture {
  dep_tripId : string;
  dep_stopId : string;
  dep_time : TimeStr;
  departureSeconds : Z
}.

(** An element of the list [getUpcomingDepartures] returns. *)
Record UpcomingDeparture := mkUpcoming {
  up_departure : Departure;
  routeShortName : string;
  routeColor : string;
  routeTextColor : string;
  destination : string
}.

(** The body of [stops.forEach(st => ...)]: what one event contributes. *)
Definition departureOfEvent (dm : DataManager) (serviceId : string)
    (currentSeconds : Z) (stopId : string) (st : StopTime)
  : option Departure :=
  match tripsByTripId dm !! st_trip_id st with
  | Some trip =>
      if String.eqb (service_id trip) serviceId then
        let departureSeconds := timeToSeconds (departure_time st) in
        if departureSeconds >=? currentSeconds
        then Some (mkDeparture (st_trip_id st) stopId (departure_time st)
                               departureSeconds)
        else None
      else None
  | None => None
  end.

(** [allDepartures] before the sort. *)
Definition candidateDepartures (dm : DataManager) (serviceId : string)
    (currentSeconds : Z) (stopIds : list string) : list Departure :=
  stopId ← stopIds;
  omap (departureOfEvent dm serviceId currentSeconds stopId)
       (default [] (stopTimesByStop dm !! stopId)).

(** The body of [allDepartures.map(dep => ...)]. *)
Definition enrich (dm : DataManager) (dep : Departure)
  : result UpcomingDeparture :=
  trip ← deref (tripsByTripId dm !! dep_tripId dep);
  route ← deref (routesById dm !! t_route_id trip);
  let stopTimes := stopTimesByTrip dm !! dep_tripId dep in
  Return (mkUpcoming dep (route_short_name route) (route_color route)
                     (route_text_color route)
                     (getTripDestination dm stopTimes)).

(** [Array.prototype.map] with a callback that may throw. *)
Fixpoint mapM {A B} (f : A -> result B) (l : list A) : result (list B) :=
  match l with
  | [] => Return []
  | a :: l' => b ← f a; bs ← mapM f l'; Return (b :: bs)
  end.

(** [getUpcomingDepartures(stopIds, currentSeconds, date, limit)]. *)
Definition getUpcomingDepartures (dm : DataManager) (stopIds : list string)
    (currentSeconds : Z) (date : JsDate) (limit : nat)
  : result (list UpcomingDeparture) :=
  let serviceId := getServiceId dm date in
  if falsy serviceId then Return []
  else
    match serviceId with
    | None => Return []
    | Some serviceId =>
        let allDepartures :=
          candidateDepartures dm serviceId currentSeconds stopIds in
        let allDepartures := sortByKey departureSeconds allDepartures in
        let allDepartures := take limit allDepartures in
        mapM (enrich dm) allDepartures
    end.

(** A number or [Infinity]/[-Infinity], written [None]. *)
Definition minExt (x : Z) (best : option Z) : option Z :=
  match best with
  | None => Some x
  | Some b => if x <? b then Some x else Some b
  end.

Definition maxExt (x : Z) (best : option Z) : option Z :=
  match best with
  | None => Some x
  | Some b => if x >? b then Some x else Some b
  end.

(** [Object.values(this.stopTimesByTrip)]. *)
Definition tripTimetables (dm : DataManager) : list (list StopTime) :=
  (map_to_list (stopTimesByTrip dm)).*2.

Section WithBlank.

(** Whether a time field is the empty string, which is falsy; the triple
    of such a field holds no time. *)
Variable blank : TimeStr -> bool.

(** [a || b] on two time fields. *)
Definition orElse (a b : TimeStr) : TimeStr := if blank a then b else a.

(** [timeToSeconds] of a field that may be empty; [None] is the [NaN]
    that the empty string gives. *)
Definition secondsOfField (t : TimeStr) : option Z :=
  if blank t then None else Some (timeToSeconds t).

(** The body of the [forEach] of [getDailyServiceBounds]; no comparison
    with [NaN] holds. *)
Definition widenBounds (acc : option Z * option Z) (stopTimes : list StopTime)
  : option Z * option Z :=
  if (length stopTimes <? 2)%nat then acc
  else
    match head stopTimes, last stopTimes with
    | Some firstStop, Some lastStop =>
        let startTime :=
          secondsOfField (orElse (departure_time firstStop)
                                 (arrival_time firstStop)) in
        let endTime :=
          secondsOfField (orElse (arrival_time lastStop)
                                 (departure_time lastStop)) in
        (match startTime with
         | Some startTime => minExt startTime acc.1
         | None => acc.1
         end,
         match endTime with
         | Some endTime => maxExt endTime acc.2
         | None => acc.2
         end)
    | _, _ => acc
    end.

(** [getDailyServiceBounds()]: [(earliestStart, latestEnd)]. *)
Definition getDailyServiceBounds (dm : DataManager) : Z * Z :=
  let '(earliestStart, latestEnd) :=
    foldl widenBounds (None, None) (tripTimetables dm) in
  (default 0 earliestStart, default 86400 latestEnd).

(** [findFirstActiveSecond()]. *)
Definition findFirstActiveSecond (dm : DataManager) : Z :=
  (getDailyServiceBounds dm).1.

(** The body of the [forEach] of [findNextActiveSecond]. *)
Definition nextStart (currentSeconds : Z) (nextActiveTime : option Z)
    (stopTimes : list StopTime) : option Z :=
  if (length stopTimes <? 2)%nat then nextActiveTime
  else
    match head stopTimes with
    | Some firstStop =>
        match secondsOfField (orElse (departure_time firstStop)
                                     (arrival_time firstStop)) with
        | Some startTime =>
            if (startTime >? currentSeconds) && ltExt startTime nextActiveTime
            then Some startTime else nextActiveTime
        | None => nextActiveTime
        end
    | None => nextActiveTime
    end.

(** [findNextActiveSecond(currentSeconds)]. *)
Definition findNextActiveSecond (dm : DataManager) (currentSeconds : Z) : Z :=
  match foldl (nextStart currentSeconds) None (tripTimetables dm) with
  | None => findFirstActiveSecond dm
  | Some nextActiveTime => nextActiveTime
  end.

End WithBlank.

(** The three numbers of [formatTime(seconds)]: [Math.floor(seconds /
    3600) % 24], [Math.floor((seconds % 3600) / 60)] and
    [Math.floor(seconds % 60)]; [%] takes the sign of the dividend. *)
Definition clockOf (seconds : Z) : TimeStr :=
  mkTime (Z.rem (seconds / 3600) 24)
         (Z.rem seconds 3600 / 60)
         (Z.rem seconds 60).

(** [formatTime(seconds)]. *)
Definition formatTime (secondsOfDay : Z) : string :=
  let c := clockOf secondsOfDay in
  String.append (padStart2 (String_of_Z (hours c)))
    (String.append ":"
       (String.append (padStart2 (String_of_Z (minutes c)))
          (String.append ":" (padStart2 (String_of_Z (seconds c)))))).

(* ===================================================================== *)
(** ** tripScheduler.js and busPositionCalculator.js: the rest            *)
(* ===================================================================== *)

(** [{ seconds, formatted }] of [getNextStopETA]. *)
Record ETA := mkETA { eta_seconds : Z; eta_formatted : string }.

(** [getNextStopETA(segment, currentSeconds)]; a state that is not
    [moving] has no [arrivalTime] and is not passed by the callers. *)
Definition getNextStopETA (segment : option State) (currentSeconds : Z)
  : option ETA :=
  match segment with
  | Some (moving _ _ _ arrivalTime _) =>
      let remainingSeconds := arrivalTime - currentSeconds in
      let minutes := Z.max 0 (remainingSeconds / 60) in
      let seconds := Z.max 0 (Z.rem remainingSeconds 60) in
      Some (mkETA remainingSeconds
              (String.append (String_of_Z minutes)
                 (String.append "m "
                    (String.append (String_of_Z seconds) "s"))))
  | _ => None
  end.

(** [{ ...bus, position, bearing }]: the position is the stop's for a
    waiting bus and an interpolated one for a moving bus. *)
Record PlacedBus := mkPlaced {
  pb_bus : Bus;
  pb_position : LatLon + Position;
  pb_bearing : Q
}.

Module AllPositions.
Section WithHost.

Variable parseFloat : string -> option Q.
Variable calculateDistance : jsval -> jsval -> jsval -> jsval -> Q.
Variable findNearestPointOnRoute : list (Q * Q) -> Q -> Q -> option nat.

(** [calculateBearing(segment)], in degrees; it is trigonometric and is
    kept abstract. *)
Variable calculateBearing : State -> Q.

(** The callback of [allBuses.map] in [calculateAllPositions]; [None] is
    the [null] that the [filter] removes. *)
Definition placeBus (dm : DataManager) (bus : Bus) : option PlacedBus :=
  let routeId := r_route_id <$> b_route bus in
  match b_segment bus with
  | Some segment =>
      match BusPositionCalculator.calculatePosition parseFloat
              calculateDistance findNearestPointOnRoute dm (Some segment)
              routeId with
      | Some position =>
          Some (mkPlaced bus (inr position) (calculateBearing segment))
      | None => None
      end
  | None =>
      match b_position bus with
      | Some position => Some (mkPlaced bus (inl position) 0)
      | None => None
      end
  end.

(** [calculateAllPositions(allBuses)]. *)
Definition calculateAllPositions (dm : DataManager) (allBuses : list Bus)
  : list PlacedBus :=
  omap (placeBus dm) allBuses.

End WithHost.
End AllPositions.

(* ===================================================================== *)
(** ** Vocabulary of the properties                                       *)
(* ===================================================================== *)

Definition arrivalOf (s : StopTime) : Z := timeToSeconds (arrival_time s).
Definition departureOf (s : StopTime) : Z := timeToSeconds (departure_time s).

(** Non-decreasing times along a trip: arrival before departure at each
    stop, and each departure before the next arrival. *)
Fixpoint timesSorted (stopTimes : list StopTime) : Prop :=
  match stopTimes with
  | [] => True
  | s :: rest =>
      arrivalOf s <= departureOf s
      /\ match rest with
         | [] => True
         | s' :: _ => departureOf s <= arrivalOf s'
         end
      /\ timesSorted rest
  end.

(** Every event of the trip references a stop of the catalog. *)
Definition stopsKnown (dm : DataManager) (stopTimes : list StopTime) : Prop :=
  Forall (fun s => is_Some (getStop dm (st_stop_id s))) stopTimes.

(** The service calendar in the specification's words: a service is
    active on a date when an exception of type added (GTFS type 1) names it
    on that date, or when no exception of type removed (GTFS type 2) names
    it on that date and one of its rules has the date in its window with
    the bit of the date's week day set. *)
Definition exceptionOn (dm : DataManager) (date : JsDate) (sid type : string)
  : Prop :=
  exists e, In e (calendarDates dm) /\ cd_service_id e = sid
            /\ cd_date e = dateString date /\ exception_type e = type.

Definition ruleCovers (dm : DataManager) (date : JsDate) (sid : string)
  : Prop :=
  exists r, In r (calendar dm) /\ c_service_id r = sid
            /\ ruleMatches (getDay date) (dateString date) r = true.

Definition activeBySpec (dm : DataManager) (date : JsDate) (sid : string)
  : Prop :=
  exceptionOn dm date sid "1"
  \/ (~ exceptionOn dm date sid "2" /\ ruleCovers dm date sid).

(** The record the transfer index stores for a stop in walking range. *)
Definition transferTo (calculateDistance : jsval -> jsval -> jsval -> jsval -> Q)
    (fromStop toStop : Stop) : Transfer :=
  mkTransfer (stop_id toStop)
    (walkSeconds (LocalPathfinder.stopDistance calculateDistance
                    fromStop toStop))
    (LocalPathfinder.stopDistance calculateDistance fromStop toStop).

(** The slice of the polyline the interpolator walks, from the vertex at
    [fromIndex] to the vertex at [toIndex]. *)
Definition pathBetween (routeCoordinates : list (Q * Q))
    (fromIndex toIndex : nat) : list (Q * Q) :=
  if (fromIndex <? toIndex)%nat
  then BusPositionCalculator.slice routeCoordinates fromIndex (toIndex + 1)
  else reverse (BusPositionCalculator.slice routeCoordinates toIndex
                  (fromIndex + 1)).

(** An upper bound, in metres, of the great-circle distance between two
    points given in degrees: a degree of arc is at most 111195 m long, and
    the distance is at most the sum of the arcs in latitude and in
    longitude. *)
Definition metresApart (lat1 lon1 lat2 lon2 : Q) : Q :=
  (111195 * (Qabs (lat1 - lat2) + Qabs (lon1 - lon2)))%Q.

(** A latitude and a longitude, in degrees. *)
Definition geographic (lat lon : Q) : Prop :=
  (-90 <= lat <= 90)%Q /\ (-180 <= lon <= 180)%Q.

(** [x] is the first element of [l] that satisfies [f]. *)
Definition firstSuch {A} (f : A -> bool) (l : list A) (x : A) : Prop :=
  exists l1 l2, l = l1 ++ x :: l2
                /\ Forall (fun y => f y = false) l1 /\ f x = true.

(** A list in non-decreasing order of a key. *)
Definition sortedBy {A} (key : A -> Z) (l : list A) : Prop :=
  StronglySorted (fun a b => key a <= key b) l.

(** The queue, from an empty one, after the given elements are enqueued in
    turn. *)
Definition enqueueAll (elements : list (Leg * Z)) : list (Leg * Z) :=
  foldl (fun q e => PriorityQueue.enqueue e q) [] elements.

(** The key under which [groupNearbyStops] files a row: a station under
    its own identifier, another row with a parent under the parent's, a
    row without parent under its own. *)
Definition groupKey (trim : string -> string) (stop : StopRow) : string :=
  if String.eqb (location_type stop) "1" then stop_id (row stop)
  else if Grouping.hasParent trim stop
       then default "" (parent_station stop)
       else stop_id (row stop).

(** A row that becomes a master stop: a station, or a row without
    parent. *)
Definition isMaster (trim : string -> string) (stop : StopRow) : bool :=
  String.eqb (location_type stop) "1" || negb (Grouping.hasParent trim stop).

(** No row without parent, other than a station, is named as a parent. *)
Definition parentsAreNotPlain (trim : string -> string)
    (stops : list StopRow) : Prop :=
  forall child plain,
    child ∈ stops -> plain ∈ stops ->
    location_type child <> "1" -> Grouping.hasParent trim child = true ->
    location_type plain <> "1" -> Grouping.hasParent trim plain = false ->
    parent_station child <> Some (stop_id (row plain)).

(** The start and the end of a timetable of at least two events: the
    departure of the first event or, where that field is empty, its
    arrival; the arrival of the last event or, where that field is empty,
    its departure. A shorter timetable has neither, nor has one where both
    fields are empty. *)
Definition tripStart (blank : TimeStr -> bool) (stopTimes : list StopTime)
  : option Z :=
  if (length stopTimes <? 2)%nat then None
  else
    firstStop ← head stopTimes;
    secondsOfField blank (orElse blank (departure_time firstStop)
                                       (arrival_time firstStop)).

Definition tripEnd (blank : TimeStr -> bool) (stopTimes : list StopTime)
  : option Z :=
  if (length stopTimes <? 2)%nat then None
  else
    lastStop ← last stopTimes;
    secondsOfField blank (orElse blank (arrival_time lastStop)
                                       (departure_time lastStop)).

(** [s] is the start (the end) of some trip of the data manager. *)
Definition startsAt (blank : TimeStr -> bool) (dm : DataManager) (s : Z)
  : Prop :=
  exists id stopTimes,
    stopTimesByTrip dm !! id = Some stopTimes
    /\ tripStart blank stopTimes = Some s.

Definition endsAt (blank : TimeStr -> bool) (dm : DataManager) (s : Z)
  : Prop :=
  exists id stopTimes,
    stopTimesByTrip dm !! id = Some stopTimes
    /\ tripEnd blank stopTimes = Some s.

(** No time field of the trips is empty. *)
Definition timesGiven (blank : TimeStr -> bool) (dm : DataManager) : Prop :=
  map_Forall (fun _ stopTimes =>
                Forall (fun st => blank (arrival_time st) = false
                                  /\ blank (departure_time st) = false)
                       stopTimes)
             (stopTimesByTrip dm).

(** What a state is, for the events of a timetable at an instant: moving
    between two consecutive events, strictly after the departure of the
    first and up to the arrival of the second; or waiting at an event, up
    to its departure, from its arrival at the first event and strictly
    after its arrival at the others. *)
Definition stateAt (parseFloat : string -> option Q) (dm : DataManager)
    (stopTimes : list StopTime) (t : Z) (state : State) : Prop :=
  match state with
  | moving f g d a p =>
      exists i prev cur,
        stopTimes !! i = Some prev /\ stopTimes !! S i = Some cur
        /\ getStop dm (st_stop_id prev) = Some f
        /\ getStop dm (st_stop_id cur) = Some g
        /\ d = departureOf prev /\ a = arrivalOf cur
        /\ d < t <= a
        /\ p = TripScheduler.calculateProgress d a t
  | waiting_at_stop position info nextDeparture =>
      exists i s,
        stopTimes !! i = Some s
        /\ getStop dm (st_stop_id s) = Some info
        /\ position = mkLatLon (parseFloat (stop_lat info))
                               (parseFloat (stop_lon info))
        /\ nextDeparture = departureOf s
        /\ t <= nextDeparture
        /\ (if i is O then arrivalOf s <= t else arrivalOf s < t)
  end.

(** A position lies on the piece from vertex [v1] to vertex [v2]. *)
Definition onPiece (position : Position) (v1 v2 : Q * Q) : Prop :=
  exists fraction : Q,
    (0 <= fraction <= 1)%Q
    /\ (pos_lat position == v1.2 + (v2.2 - v1.2) * fraction)%Q
    /\ (pos_lon position == v1.1 + (v2.1 - v1.1) * fraction)%Q.

(** A position lies within one metre of a point of the piece from vertex
    [v1] to vertex [v2]. *)
Definition nearPiece (position : Position) (v1 v2 : Q * Q) : Prop :=
  exists fraction : Q,
    (0 <= fraction <= 1)%Q
    /\ (metresApart (pos_lat position) (pos_lon position)
                    (v1.2 + (v2.2 - v1.2) * fraction)
                    (v1.1 + (v2.1 - v1.1) * fraction) <= 1)%Q.

(** One metre of arc, in degrees. *)
Definition oneMetre : Q := 1 # 111195.

(** The interpolation between two stops without a geometry. *)
Definition straightLine (fromLat fromLon toLat toLon progress : Q)
  : Position :=
  mkPosition (fromLat + (toLat - fromLat) * progress)%Q
             (fromLon + (toLon - fromLon) * progress)%Q progress.

(** Every reference the planner follows resolves: the events of the stop
    index name a known trip and a known stop, the events of the trip index
    name a known stop, and so does every transfer. *)
Definition intact (pf : Pathfinder) : Prop :=
  let dm := dataManager pf in
  map_Forall (fun _ events =>
                Forall (fun st =>
                          is_Some (tripsByTripId dm !! st_trip_id st)
                          /\ is_Some (getStop dm (st_stop_id st))) events)
             (stopTimesByStop dm)
  /\ map_Forall (fun _ events => stopsKnown dm events) (stopTimesByTrip dm)
  /\ map_Forall (fun _ transfers =>
                   Forall (fun tr => is_Some (getStop dm (tr_toStopId tr)))
                          transfers)
                (transferMap pf).

(** The stops found around a coordinate are stops of the catalog. *)
Definition foundKnown (dm : DataManager) (found : list (Stop * Q)) : Prop :=
  Forall (fun s => is_Some (getStop dm (stop_id s.1))) found.

(** The stop index files every event under the event's own stop. *)
Definition keyedByStop (dm : DataManager) : Prop :=
  map_Forall (fun id events => Forall (fun st => st_stop_id st = id) events)
             (stopTimesByStop dm).

(** The stop index is keyed by stop, and no stop is called START. *)
Definition wellFormed (dm : DataManager) : Prop :=
  keyedByStop dm /\ getStop dm "START" = None.

(** The walk from the origin to one of the start stops, at the departure
    instant. *)
Definition isAccess (startCoords : Coords) (departureTimeSeconds : Z)
    (startStops : list (Stop * Q)) (leg : Leg) : Prop :=
  leg_type leg = WALK /\ fromStopId leg = None
  /\ fromCoords leg = Some startCoords
  /\ startTime leg = departureTimeSeconds
  /\ exists stop distance,
       (stop, distance) ∈ startStops
       /\ toStopId leg = Some (stop_id stop)
       /\ endTime leg = departureTimeSeconds + walkSeconds distance.

(** The walk from one of the end stops to the destination. *)
Definition isEgress (endCoords : Coords) (endStops : list (Stop * Q))
    (leg : Leg) : Prop :=
  leg_type leg = WALK /\ toStopId leg = None
  /\ toCoords leg = Some endCoords
  /\ exists stop distance,
       (stop, distance) ∈ endStops
       /\ fromStopId leg = Some (stop_id stop).

(** A leg ends at a stop, where the next leg starts. *)
Definition joinedAt (leg next : Leg) : Prop :=
  is_Some (toStopId leg) /\ toStopId leg = fromStopId next.

(** Every two consecutive elements of a list are related. *)
Fixpoint chained {A} (R : A -> A -> Prop) (l : list A) : Prop :=
  match l with
  | a :: rest =>
      match rest with
      | b :: _ => R a b
      | [] => True
      end
      /\ chained R rest
  | [] => True
  end.

(** What the search keeps true of a back-link: its leg ends at the stop
    it is filed under, and it names START or a stop that has a back-link;
    on a well-formed feed a link to START carries an access walk and
    another link a leg that starts at the stop it names. *)
Definition linkOK (dm : DataManager) (startCoords : Coords)
    (departureTimeSeconds : Z) (startStops : list (Stop * Q))
    (links : gmap string BackLink) (stopId : string) (link : BackLink)
  : Prop :=
  toStopId (bl_leg link) = Some stopId
  /\ (prevStopId link = "START" \/ is_Some (links !! prevStopId link))
  /\ (wellFormed dm ->
      if String.eqb (prevStopId link) "START"
      then isAccess startCoords departureTimeSeconds startStops (bl_leg link)
      else fromStopId (bl_leg link) = Some (prevStopId link)).

(** What the search keeps true of its state: every queue entry ends at a
    known stop that has a back-link, and every back-link is as above. *)
Definition searchInv (dm : DataManager) (startCoords : Coords)
    (departureTimeSeconds : Z) (startStops : list (Stop * Q))
    (s : SearchState) : Prop :=
  Forall (fun entry : Leg * Z =>
            exists stopId,
              toStopId entry.1 = Some stopId
              /\ is_Some (backLink s !! stopId)
              /\ is_Some (getStop dm stopId)) (pq s)
  /\ (forall stopId link,
        backLink s !! stopId = Some link ->
        linkOK dm startCoords departureTimeSeconds startStops (backLink s)
               stopId link).

(** The shape of a found itinerary: an access walk, legs, an egress walk
    that starts when the leg before it ends; each leg ends at the stop
    where the next one starts; the duration runs from the departure instant
    to the end of the egress walk. *)
Definition wellShaped (startCoords endCoords : Coords)
    (departureTimeSeconds : Z) (startStops endStops : list (Stop * Q))
    (outcome : Outcome) : Prop :=
  exists access middle egress,
    path outcome = access :: middle ++ [egress]
    /\ isAccess startCoords departureTimeSeconds startStops access
    /\ isEgress endCoords endStops egress
    /\ chained joinedAt (path outcome)
    /\ startTime egress = endTime (default access (last middle))
    /\ stats_duration outcome
       = Some (endTime egress - departureTimeSeconds).

(** Every queue entry arrives at 0 at one of two stops, and neither stop
    has a label that an arrival at 0 exceeds. *)
Definition pinned (A B : string) (s : SearchState) : Prop :=
  Forall (fun entry : Leg * Z =>
            entry.2 = 0
            /\ (toStopId entry.1 = Some A \/ toStopId entry.1 = Some B))
         (pq s)
  /\ superseded 0 (minArrivalTime s) A = false
  /\ superseded 0 (minArrivalTime s) B = false.

(** A result is a value that satisfies [P], or the loop is out of fuel,
    or it is an exception and the feed is not [sound]. *)
Definition unlessBroken {A} (sound : Prop) (P : A -> Prop) (r : result A)
  : Prop :=
  match r with
  | Return a => P a
  | Throw _ => ~ sound
  | OutOfFuel => True
  end.

(* ===================================================================== *)
(** ** A small feed to run the definitions on                             *)
(* ===================================================================== *)

Module Demo.

(** An instance of the host's [parseFloat] for plain decimal literals
    (an optional sign, digits, an optional fraction). *)
Definition digitOf (c : ascii) : option Z :=
  let n := Z.of_N (N_of_ascii c) in
  if (48 <=? n) && (n <=? 57) then Some (n - 48) else None.

(** Reads a run of digits: its value, the number of digits, the rest. *)
Fixpoint readDigits (s : string) (acc : Z) (count : nat)
  : Z * nat * string :=
  match s with
  | EmptyString => (acc, count, s)
  | String c s' =>
      match digitOf c with
      | Some d => readDigits s' (10 * acc + d) (S count)
      | None => (acc, count, s)
      end
  end.

Definition parseUnsigned (s : string) : option Q :=
  let '(int, n, rest) := readDigits s 0 0%nat in
  match rest with
  | String "."%char rest' =>
      let '(frac, k, _) := readDigits rest' 0 0%nat in
      if ((n + k)%nat =? 0)%nat then None
      else Some (inject_Z int + inject_Z frac / inject_Z (10 ^ Z.of_nat k))%Q
  | _ => if (n =? 0)%nat then None else Some (inject_Z int)
  end.

Definition parseFloat (s : string) : option Q :=
  match s with
  | String "-"%char s' => Qopp <$> parseUnsigned s'
  | String "+"%char s' => parseUnsigned s'
  | _ => parseUnsigned s
  end.

Definition S0 : Stop := mkStop "S0" "Depot" "46.000" "4.000".
Definition S1 : Stop := mkStop "S1" "Market" "46.010" "4.000".
Definition S2 : Stop := mkStop "S2" "Harbour" "46.020" "4.000".

Definition at_ (h m s : Z) : TimeStr := mkTime h m s.

(** Trip T1: S0 08:00/08:00, S1 08:05/08:06, S2 08:10/08:10. *)
Definition e0 : StopTime := mkStopTime "T1" "S0" 1 (at_ 8 0 0) (at_ 8 0 0).
Definition e1 : StopTime := mkStopTime "T1" "S1" 2 (at_ 8 5 0) (at_ 8 6 0).
Definition e2 : StopTime := mkStopTime "T1" "S2" 3 (at_ 8 10 0) (at_ 8 10 0).
Definition stopTimesT1 : list StopTime := [e0; e1; e2].

(** Trip T2 takes no time from S1 to S2: S0 09:00/09:00, S1 09:05/09:06,
    S2 09:06/09:08, S0 09:15/09:15. *)
Definition g0 : StopTime := mkStopTime "T2" "S0" 1 (at_ 9 0 0) (at_ 9 0 0).
Definition g1 : StopTime := mkStopTime "T2" "S1" 2 (at_ 9 5 0) (at_ 9 6 0).
Definition g2 : StopTime := mkStopTime "T2" "S2" 3 (at_ 9 6 0) (at_ 9 8 0).
Definition g3 : StopTime := mkStopTime "T2" "S0" 4 (at_ 9 15 0) (at_ 9 15 0).
Definition stopTimesT2 : list StopTime := [g0; g1; g2; g3].

(** Trip T3 has a single event. *)
Definition h0 : StopTime := mkStopTime "T3" "S0" 1 (at_ 8 0 0) (at_ 8 0 0).

Definition R1 : Route := mkRoute "R1" "1" "FF0000" "FFFFFF".
Definition T1 : Trip := mkTrip "T1" "R1" "WEEK" "Harbour".
Definition T2 : Trip := mkTrip "T2" "R1" "WEEK" "Harbour".
Definition T3 : Trip := mkTrip "T3" "R1" "WEEK" "Depot".

Definition everyDay (sid : string) : CalendarRule :=
  mkRule sid "1" "1" "1" "1" "1" "1" "1" "20250101" "20251231".

Definition dm : DataManager :=
  mkDM [R1] [T1; T2; T3] [S0; S1; S2]
       [everyDay "WEEK"; everyDay "EXTRA"] []
       None true [S0; S1; S2]
       {[ "R1" := R1 ]}
       (<["S0" := S0]> (<["S1" := S1]> {[ "S2" := S2 ]}))
       (<["T1" := T1]> (<["T2" := T2]> {[ "T3" := T3 ]}))
       (<["T1" := stopTimesT1]> (<["T2" := stopTimesT2]> {[ "T3" := [h0] ]}))
       (<["S0" := [e0; g0; g3; h0]]>
          (<["S1" := [e1; g1]]> {[ "S2" := [e2; g2] ]})).

(** Monday 2 June 2025, 08:05:00. *)
Definition monday0805 : JsDate := mkDate 2025 5 2 1 8 5 0.

(** An instance of the host's [trim] for the blank characters of ASCII. *)
Definition isBlank (c : ascii) : bool :=
  let n := N_of_ascii c in
  ((9 <=? n) && (n <=? 13))%N || (n =? 32)%N.

Fixpoint trimStart (s : string) : string :=
  match s with
  | String c s' => if isBlank c then trimStart s' else s
  | EmptyString => EmptyString
  end.

Fixpoint trimEnd (s : string) : string :=
  match s with
  | String c s' =>
      let rest := trimEnd s' in
      if isBlank c && String.eqb rest "" then EmptyString
      else String c rest
  | EmptyString => EmptyString
  end.

Definition trim (s : string) : string := trimEnd (trimStart s).

(** A station, one of its platforms, and two stops without parent, one of
    them with a blank [parent_station]. *)
Definition station : StopRow := mkStopRow S0 None "1".
Definition platform : StopRow :=
  mkStopRow (mkStop "S0a" "Depot, platform A" "46.0001" "4.000")
            (Some "S0") "0".
Definition market : StopRow := mkStopRow S1 (Some "  ") "0".
Definition harbour : StopRow := mkStopRow S2 None "".
Definition rows : list StopRow := [station; platform; market; harbour].

(** An instance of the empty time field: a triple with a negative hour. *)
Definition blank (t : TimeStr) : bool := hours t <? 0.

(** A queue entry that arrives at [t]. *)
Definition stroll (t : Z) : Leg * Z :=
  (mkLeg WALK None None None None None None 0 t t None None None None, t).

End Demo.

(* ===================================================================== *)
(** ** A feed around midnight, for the planner                            *)
(* ===================================================================== *)

Module Night.

Definition numberOf (v : jsval) : Q :=
  match v with
  | JNum q => q
  | JStr s => default 0%Q (Demo.parseFloat s)
  end.

(** Modelled from the spec: [calculateDistance] is absent from the
    sources; the specification has it be the great-circle distance in
    metres. This instance counts 111195 metres per degree of latitude and
    of longitude, which is that distance between points of one meridian
    (all the stops below). *)
Definition calculateDistance (lat1 lon1 lat2 lon2 : jsval) : Q :=
  (111195 * (Qabs (numberOf lat1 - numberOf lat2)
             + Qabs (numberOf lon1 - numberOf lon2)))%Q.

(** Modelled from the spec: [findStopsWithinRadius] is absent from the
    sources; the specification (4.5) has the planner start from every
    master stop within the radius of the coordinate, with its distance. *)
Definition findStopsWithinRadius (dm : DataManager) (coords : Coords)
    (radius : Q) : list (Stop * Q) :=
  omap (fun stop =>
          let d := calculateDistance (lat coords) (lon coords)
                     (JStr (stop_lat stop)) (JStr (stop_lon stop)) in
          if Qle_bool d radius then Some (stop, d) else None)
       (masterStops dm).

(** Modelled from the spec: [findNearestPointOnRoute] is absent from the
    sources; the specification (4.7) has it find the index of the vertex
    nearest to a point, by distance. [best] is the nearest index so far and
    its distance. *)
Fixpoint nearestFrom (lat lon : Q) (i : nat) (rest : list (Q * Q))
    (best : nat * Q) : nat :=
  match rest with
  | [] => best.1
  | (vlon, vlat) :: rest' =>
      let d := calculateDistance (JNum lat) (JNum lon)
                                 (JNum vlat) (JNum vlon) in
      if Qle_bool best.2 d then nearestFrom lat lon (S i) rest' best
      else nearestFrom lat lon (S i) rest' (i, d)
  end.

Definition findNearestPointOnRoute (routeCoordinates : list (Q * Q))
    (lat lon : Q) : option nat :=
  match routeCoordinates with
  | [] => None
  | (vlon, vlat) :: rest =>
      Some (nearestFrom lat lon 1 rest
              (0%nat, calculateDistance (JNum lat) (JNum lon)
                                        (JNum vlat) (JNum vlon)))
  end.

(** A line of two vertices on the meridian of the stops, at latitudes
    46.000 and 46.010, and two stops beside it at 46.001 and 46.009:
    each is 111 m from its nearest vertex. *)
Definition line : list (Q * Q) := [(4, 46)%Q; (4, 4601 # 100)%Q].
Definition Q1 : Stop := mkStop "Q1" "Bank" "46.001" "4.000".
Definition Q2 : Stop := mkStop "Q2" "Park" "46.009" "4.000".

(** P1 is 139 m south of P0 (100 s on foot); P2 is 11 km north. *)
Definition P0 : Stop := mkStop "P0" "Square" "46.00000" "4.00000".
Definition P1 : Stop := mkStop "P1" "Mill" "45.99875" "4.00000".
Definition P2 : Stop := mkStop "P2" "Quay" "46.10000" "4.00000".

(** Trip N1: P0 00:01:00, P2 00:10:00. *)
Definition n0 : StopTime :=
  mkStopTime "N1" "P0" 1 (mkTime 0 1 0) (mkTime 0 1 0).
Definition n1 : StopTime :=
  mkStopTime "N1" "P2" 2 (mkTime 0 10 0) (mkTime 0 10 0).
Definition N1 : Trip := mkTrip "N1" "R1" "WEEK" "Quay".

Definition dm : DataManager :=
  mkDM [Demo.R1] [N1] [P0; P1; P2] [Demo.everyDay "WEEK"] []
       None true [P0; P1; P2]
       {[ "R1" := Demo.R1 ]}
       (<["P0" := P0]> (<["P1" := P1]> {[ "P2" := P2 ]}))
       {[ "N1" := N1 ]}
       {[ "N1" := [n0; n1] ]}
       (<["P0" := [n0]]> {[ "P2" := [n1] ]}).

Definition pf : Pathfinder := LocalPathfinder.new calculateDistance dm.

(** From the Square to the Quay, leaving Monday 2 June 2025 at
    00:00:00. *)
Definition atSquare : Coords := mkCoords (JNum 46) (JNum 4).
Definition atQuay : Coords := mkCoords (JNum (461 # 10)) (JNum 4).
Definition midnight : JsDate := mkDate 2025 5 2 1 0 0 0.

(** The same feed with a trip N2 whose second event is at a stop that
    stops.txt does not have: P0 00:05:00, GHOST 00:07:00. *)
Definition m0 : StopTime :=
  mkStopTime "N2" "P0" 1 (mkTime 0 5 0) (mkTime 0 5 0).
Definition m1 : StopTime :=
  mkStopTime "N2" "GHOST" 2 (mkTime 0 7 0) (mkTime 0 7 0).
Definition N2 : Trip := mkTrip "N2" "R1" "WEEK" "Nowhere".

Definition dmGhost : DataManager :=
  mkDM [Demo.R1] [N2] [P0; P1; P2] [Demo.everyDay "WEEK"] []
       None true [P0; P1; P2]
       {[ "R1" := Demo.R1 ]}
       (<["P0" := P0]> (<["P1" := P1]> {[ "P2" := P2 ]}))
       {[ "N2" := N2 ]}
       {[ "N2" := [m0; m1] ]}
       (<["P0" := [m0]]> {[ "GHOST" := [m1] ]}).

Definition pfGhost : Pathfinder :=
  LocalPathfinder.new calculateDistance dmGhost.

(** The query state after the start stops are seeded, and the identifiers
    of the stops in walking range of the destination (the two night feeds
    have the same stops). *)
Definition seeded (departureTimeSeconds : Z) : SearchState :=
  foldl (LocalPathfinder.seedStart atSquare departureTimeSeconds)
        (mkSearch [] ∅ ∅)
        (findStopsWithinRadius dm atSquare MAX_WALK_METERS).

Definition nearQuay : gset string :=
  list_to_set (map (fun s : Stop * Q => stop_id s.1)
                   (findStopsWithinRadius dm atQuay MAX_WALK_METERS)).

(** Monday 2 June 2025 at 00:02:00. *)
Definition twoPast : JsDate := mkDate 2025 5 2 1 0 2 0.

(** A bus between Q1 and Q2, 08:00:00 to 08:01:00, at a given progress. *)
Definition between (progress : Q) : State :=
  moving Q1 Q2 28800 28860 progress.

(** A feed whose route R1 carries the line above as a GeoJSON
    LineString. *)
Definition dmObject : DataManager :=
  mkDM [Demo.R1] [] [Q1; Q2] [Demo.everyDay "WEEK"] []
       (Some [mkFeature (Some "R1") (GeomObject "LineString" line)]) true
       [Q1; Q2]
       {[ "R1" := Demo.R1 ]}
       (<["Q1" := Q1]> {[ "Q2" := Q2 ]})
       ∅ ∅ ∅.

(** Two stops at one place, a third 11 km north, and no trip. *)
Definition Z0 : Stop := mkStop "Z0" "Gate" "46.20000" "4.00000".
Definition Z1 : Stop := mkStop "Z1" "Gate, across" "46.20000" "4.00000".
Definition Z2 : Stop := mkStop "Z2" "Pier" "46.30000" "4.00000".

Definition dmTwin : DataManager :=
  mkDM [] [] [Z0; Z1; Z2] [Demo.everyDay "WEEK"] []
       None true [Z0; Z1; Z2]
       ∅
       (<["Z0" := Z0]> (<["Z1" := Z1]> {[ "Z2" := Z2 ]}))
       ∅ ∅ ∅.

Definition pfTwin : Pathfinder := LocalPathfinder.new calculateDistance dmTwin.

Definition atGate : Coords := mkCoords (JNum (462 # 10)) (JNum 4).
Definition atPier : Coords := mkCoords (JNum (463 # 10)) (JNum 4).

End Night.

(* ===================================================================== *)
(** ** Two stops 21 m apart                                               *)
(* ===================================================================== *)

Module Grid.

(** Modelled from the spec: [calculateDistance] is absent from the
    sources; the specification has it be the great-circle distance in
    metres. This instance counts 100000 metres per degree of latitude and
    of longitude, a round figure for the length of a degree of arc, under
    which the two stops below are 21 m apart. *)
Definition calculateDistance (lat1 lon1 lat2 lon2 : jsval) : Q :=
  (100000 * (Qabs (Night.numberOf lat1 - Night.numberOf lat2)
             + Qabs (Night.numberOf lon1 - Night.numberOf lon2)))%Q.

Definition G0 : Stop := mkStop "G0" "Well" "46.00000" "4.00000".
Definition G1 : Stop := mkStop "G1" "Well, across" "46.00021" "4.00000".

Definition dm : DataManager :=
  mkDM [] [] [G0; G1] [Demo.everyDay "WEEK"] []
       None true [G0; G1]
       ∅
       (<["G0" := G0]> {[ "G1" := G1 ]})
       ∅ ∅ ∅.

End Grid.

(* ===================================================================== *)
(** ** Trip resolver: properties                                          *)
(* ===================================================================== *)

Section TripResolver.

Variable parseFloat : string -> option Q.
Variable dm : DataManager.

Local Abbreviation findCurrentState := (TripScheduler.findCurrentState parseFloat dm).
Local Abbreviation scanStops := (TripScheduler.scanStops parseFloat dm).

Lemma timesSorted_cons s rest :
  timesSorted (s :: rest) -> timesSorted rest.
Proof. simpl. tauto. Qed.

Lemma timesSorted_app_r pre rest :
  timesSorted (pre ++ rest) -> timesSorted rest.
Proof.
  induction pre as [|a pre IH]; simpl; [tauto|].
  intros (_ & _ & H). apply IH. exact H.
Qed.

(** In a sorted trip every event before [x] has left by [x]'s arrival. *)
Lemma timesSorted_before pre x rest :
  timesSorted (pre ++ x :: rest) ->
  Forall (fun s => arrivalOf s <= departureOf s
                   /\ departureOf s <= arrivalOf x) pre.
Proof.
  induction pre as [|a pre IH]; intros H; [constructor|].
  pose proof (IH (timesSorted_cons _ _ H)) as IH'.
  constructor; [|exact IH'].
  simpl in H. destruct H as (Ha & Hn & Hs). split; [exact Ha|].
  destruct pre as [|b pre]; simpl in Hn; [exact Hn|].
  apply Forall_cons in IH' as [[Hb1 Hb2] _]. lia.
Qed.

(** An event that has left before [t] is passed over by the scan. *)
Lemma scanStops_skip t pre prev rest :
  Forall (fun s => arrivalOf s <= departureOf s /\ departureOf s < t) pre ->
  scanStops t prev (pre ++ rest) = scanStops t (default prev (last pre)) rest.
Proof.
  revert prev. induction pre as [|a pre IH]; intros prev H; [reflexivity|].
  apply Forall_cons in H as [[Ha1 Ha2] H].
  change ((a :: pre) ++ rest) with (a :: (pre ++ rest)).
  cbn [TripScheduler.scanStops].
  fold (arrivalOf a) (departureOf a) (departureOf prev).
  replace (t <=? departureOf a) with false by (symmetry; apply Z.leb_gt; lia).
  replace (t <=? arrivalOf a) with false by (symmetry; apply Z.leb_gt; lia).
  rewrite !andb_false_r. rewrite IH by exact H.
  rewrite last_cons. destruct (last pre); reflexivity.
Qed.

Lemma findCurrentState_skip t pre prev rest :
  Forall (fun s => arrivalOf s <= departureOf s /\ departureOf s < t)
         (pre ++ [prev]) ->
  findCurrentState (pre ++ prev :: rest) t = scanStops t prev rest.
Proof.
  intros H. destruct pre as [|a pre].
  - apply Forall_cons in H as [[H1 H2] _]. cbn.
    fold (departureOf prev).
    replace (t <=? departureOf prev) with false
      by (symmetry; apply Z.leb_gt; lia).
    rewrite andb_false_r. reflexivity.
  - change ((a :: pre) ++ [prev]) with (a :: (pre ++ [prev])) in H.
    apply Forall_cons in H as [[H1 H2] H].
    change ((a :: pre) ++ prev :: rest) with (a :: (pre ++ prev :: rest)).
    cbn [TripScheduler.findCurrentState]. fold (departureOf a).
    replace (t <=? departureOf a) with false
      by (symmetry; apply Z.leb_gt; lia).
    rewrite andb_false_r.
    replace (pre ++ prev :: rest) with ((pre ++ [prev]) ++ rest)
      by (rewrite <- app_assoc; reflexivity).
    rewrite scanStops_skip by exact H.
    rewrite last_snoc. reflexivity.
Qed.

(** Past the first departure and up to the last arrival, the scan finds
    a state. *)
Lemma scanStops_total t lastStop rest : forall prev,
  timesSorted (prev :: rest) ->
  stopsKnown dm (prev :: rest) ->
  departureOf prev < t ->
  last rest = Some lastStop ->
  t <= arrivalOf lastStop ->
  is_Some (scanStops t prev rest).
Proof.
  induction rest as [|cur rest IH]; intros prev Hs Hk Hp Hl Ht;
    [discriminate|].
  apply Forall_cons in Hk as [Hkp Hk]. pose proof Hk as Hk'.
  apply Forall_cons in Hk' as [[ci Hkc] _]. destruct Hkp as [pi Hkp].
  cbn [TripScheduler.scanStops].
  fold (arrivalOf cur) (departureOf cur) (departureOf prev).
  rewrite Hkc, Hkp.
  destruct ((t >? arrivalOf cur) && (t <=? departureOf cur)) eqn:Hd;
    [eexists; reflexivity|].
  destruct ((t >? departureOf prev) && (t <=? arrivalOf cur)) eqn:Hm;
    [eexists; reflexivity|].
  assert (departureOf cur < t) as Hc.
  { apply andb_false_iff in Hd, Hm.
    rewrite Z.gtb_ltb, Z.ltb_ge, Z.leb_gt in Hd, Hm. lia. }
  apply IH; try assumption.
  - exact (timesSorted_cons _ _ Hs).
  - destruct rest as [|x rest]; [|exact Hl].
    simpl in Hl. injection Hl as <-.
    simpl in Hs. lia.
Qed.

Lemma lookup3_split {A} (l : list A) i a b c :
  l !! i = Some a -> l !! S i = Some b -> l !! S (S i) = Some c ->
  exists pre post, l = pre ++ a :: b :: c :: post.
Proof.
  revert l. induction i as [|i IH]; intros [|x l] Ha Hb Hc; simplify_eq/=.
  - destruct l as [|y [|z l]]; simplify_eq/=. by exists [], l.
  - destruct (IH l Ha Hb Hc) as (pre & post & ->). by exists (x :: pre), post.
Qed.

Lemma calculateProgress_range d a c :
  (0 <= TripScheduler.calculateProgress d a c <= 1)%Q.
Proof.
  unfold TripScheduler.calculateProgress.
  destruct (a - d <=? 0); [split; discriminate|].
  split; [apply Q.le_max_l|].
  apply Q.max_lub; [discriminate|apply Q.le_min_l].
Qed.

Lemma calculateProgress_no_duration d a c :
  a <= d -> TripScheduler.calculateProgress d a c = 0%Q.
Proof.
  intros H. unfold TripScheduler.calculateProgress.
  replace (a - d <=? 0) with true by (symmetry; apply Z.leb_le; lia).
  reflexivity.
Qed.

Lemma calculateProgress_at_arrival d a :
  d < a -> TripScheduler.calculateProgress d a a = 1%Q.
Proof.
  intros H. unfold TripScheduler.calculateProgress.
  replace (a - d <=? 0) with false by (symmetry; apply Z.leb_gt; lia).
  assert (inject_Z (a - d) / inject_Z (a - d) == 1)%Q as E.
  { apply Qmult_inv_r. unfold Qeq. simpl. lia. }
  unfold Qmax, Qmin, GenericMinMax.gmax, GenericMinMax.gmin.
  apply Qeq_sym, Qeq_alt in E. rewrite E. reflexivity.
Qed.

(** The progress of a moving state is the one [calculateProgress] gives
    for its two times. *)
Lemma scanStops_moving t rest : forall prev f g d a p,
  scanStops t prev rest = Some (moving f g d a p) ->
  p = TripScheduler.calculateProgress d a t.
Proof.
  induction rest as [|cur rest IH]; intros prev f g d a p H; [discriminate|].
  cbn [TripScheduler.scanStops] in H.
  destruct (_ && _) in H.
  { destruct (getStop dm _) in H; discriminate. }
  destruct (_ && _) in H; [|by eapply IH].
  destruct (getStop dm _) in H; [|discriminate].
  destruct (getStop dm _) in H; [|discriminate].
  by simplify_eq.
Qed.

(** C2 (as the code has it). Along a trip with non-decreasing times and
    known stops, at an intermediate stop whose arrival precedes its
    departure: at the arrival second the vehicle is still moving from the
    previous stop, with progress 1, when it left that stop earlier; it
    dwells at the stop from the second after its arrival to its departure;
    and one second after the departure it is moving to the next stop, when
    that stop is reached later than this departure. *)
Theorem C2_boundary_states (stopTimes : list StopTime) (i : nat)
    (prevStop stop nextStop : StopTime) (prevInfo info nextInfo : Stop) :
  timesSorted stopTimes ->
  stopTimes !! i = Some prevStop ->
  stopTimes !! S i = Some stop ->
  stopTimes !! S (S i) = Some nextStop ->
  getStop dm (st_stop_id prevStop) = Some prevInfo ->
  getStop dm (st_stop_id stop) = Some info ->
  getStop dm (st_stop_id nextStop) = Some nextInfo ->
  arrivalOf stop < departureOf stop ->
  (departureOf prevStop < arrivalOf stop ->
   findCurrentState stopTimes (arrivalOf stop)
   = Some (moving prevInfo info (departureOf prevStop) (arrivalOf stop) 1))
  /\ (forall t, arrivalOf stop < t <= departureOf stop ->
      findCurrentState stopTimes t
      = Some (TripScheduler.waitingAt parseFloat info (departureOf stop)))
  /\ (departureOf stop < arrivalOf nextStop ->
      findCurrentState stopTimes (departureOf stop + 1)
      = Some (moving info nextInfo (departureOf stop) (arrivalOf nextStop)
                (TripScheduler.calculateProgress
                   (departureOf stop) (arrivalOf nextStop)
                   (departureOf stop + 1)))).
Proof.
  intros Hs Ha Hb Hc Hpi Hi Hni Hdwell.
  destruct (lookup3_split _ _ _ _ _ Ha Hb Hc) as (pre & post & ->).
  pose proof (timesSorted_before _ _ _ Hs) as Hpre.
  apply timesSorted_app_r in Hs. simpl in Hs.
  destruct Hs as (Hp1 & Hp2 & Hs1 & Hs2 & _).
  assert (forall t, departureOf prevStop < t ->
            Forall (fun s => arrivalOf s <= departureOf s /\ departureOf s < t)
                   (pre ++ [prevStop])) as Hskip.
  { intros t Ht. apply Forall_app. split.
    - eapply Forall_impl; [exact Hpre|]. simpl. intros s [? ?]. lia.
    - repeat constructor; lia. }
  split; [|split].
  - intros Hlt. rewrite findCurrentState_skip by (apply Hskip; lia).
    cbn [TripScheduler.scanStops].
    fold (arrivalOf stop) (departureOf stop) (departureOf prevStop).
    replace (arrivalOf stop >? arrivalOf stop) with false
      by (symmetry; rewrite Z.gtb_ltb; apply Z.ltb_ge; lia).
    replace (arrivalOf stop >? departureOf prevStop) with true
      by (symmetry; rewrite Z.gtb_ltb; apply Z.ltb_lt; lia).
    rewrite Z.leb_refl, Hpi, Hi. simpl.
    by rewrite calculateProgress_at_arrival.
  - intros t [Ht1 Ht2]. rewrite findCurrentState_skip by (apply Hskip; lia).
    cbn [TripScheduler.scanStops].
    fold (arrivalOf stop) (departureOf stop).
    replace (t >? arrivalOf stop) with true
      by (symmetry; rewrite Z.gtb_ltb; apply Z.ltb_lt; lia).
    replace (t <=? departureOf stop) with true
      by (symmetry; apply Z.leb_le; lia).
    by rewrite Hi.
  - intros Hlt.
    replace (pre ++ prevStop :: stop :: nextStop :: post)
      with ((pre ++ [prevStop]) ++ stop :: nextStop :: post)
      by (by rewrite <- app_assoc).
    rewrite findCurrentState_skip.
    2:{ rewrite Forall_app. split; [apply Hskip; lia|].
        repeat constructor; lia. }
    cbn [TripScheduler.scanStops].
    fold (arrivalOf nextStop) (departureOf nextStop) (departureOf stop).
    replace (departureOf stop + 1 >? arrivalOf nextStop) with false
      by (symmetry; rewrite Z.gtb_ltb; apply Z.ltb_ge; lia).
    replace (departureOf stop + 1 >? departureOf stop) with true
      by (symmetry; rewrite Z.gtb_ltb; apply Z.ltb_lt; lia).
    replace (departureOf stop + 1 <=? arrivalOf nextStop) with true
      by (symmetry; apply Z.leb_le; lia).
    by rewrite Hi, Hni.
Qed.

(** From the first departure to the last arrival of a sorted trip with
    known stops, [findCurrentState] finds a state. *)
Lemma findCurrentState_total (stopTimes : list StopTime)
    (firstStop lastStop : StopTime) (t : Z) :
  head stopTimes = Some firstStop ->
  last stopTimes = Some lastStop ->
  timesSorted stopTimes ->
  stopsKnown dm stopTimes ->
  departureOf firstStop <= t <= arrivalOf lastStop ->
  exists state, findCurrentState stopTimes t = Some state.
Proof.
  intros Hh Hl Hs Hk [Ht1 Ht2].
  destruct stopTimes as [|s rest]; [discriminate|].
  simpl in Hh. injection Hh as ->.
  cbn [TripScheduler.findCurrentState].
  fold (arrivalOf firstStop) (departureOf firstStop).
  pose proof Hk as Hk'. apply Forall_cons in Hk' as [[fi Hf] _].
  destruct ((t >=? arrivalOf firstStop) && (t <=? departureOf firstStop))
    eqn:Hd.
  { rewrite Hf. eexists; reflexivity. }
  assert (arrivalOf firstStop <= departureOf firstStop) by (simpl in Hs; tauto).
  assert (departureOf firstStop < t) as Hlt.
  { apply andb_false_iff in Hd. rewrite Z.geb_leb, Z.leb_gt, Z.leb_gt in Hd.
    lia. }
  apply (scanStops_total t lastStop); try assumption.
  destruct rest as [|x rest]; [|exact Hl].
  simpl in Hl. injection Hl as <-. lia.
Qed.

(** Hence every trip [DataManager.getActiveTrips] lists, if sorted and
    with known stops, is reported by [TripScheduler.getActiveTrips]. *)
Corollary live_trip_reported (t : Z) (date : JsDate) (a : ActiveTrip) :
  isLoaded dm = true ->
  In a (getActiveTrips dm t date) ->
  timesSorted (at_stopTimes a) ->
  stopsKnown dm (at_stopTimes a) ->
  exists bus,
    In bus (TripScheduler.getActiveTrips parseFloat dm t date)
    /\ b_tripId bus = at_tripId a.
Proof.
  intros Hloaded Hin Hs Hk.
  assert (exists state, findCurrentState (at_stopTimes a) t = Some state)
    as [state Hstate].
  { unfold getActiveTrips in Hin.
    destruct (falsy _); [destruct Hin|].
    destruct (getServiceId dm date) as [sid|]; [|destruct Hin].
    apply list_elem_of_In, list_elem_of_omap in Hin as (trip & _ & Ht).
    unfold activeTripEntry in Ht.
    destruct (String.eqb _ _); [|discriminate].
    destruct (stopTimesByTrip dm !! trip_id trip) as [sts|]; [|discriminate].
    destruct (length sts <? 2)%nat; [discriminate|].
    destruct (head sts) as [firstStop|] eqn:Hh; [|discriminate].
    destruct (last sts) as [lastStop|] eqn:Hl; [|discriminate].
    destruct (_ && _) eqn:Hw; [|discriminate].
    injection Ht as <-. simpl in *.
    apply andb_true_iff in Hw as [Hw1 Hw2].
    rewrite Z.geb_leb in Hw1. apply Z.leb_le in Hw1, Hw2.
    by apply (findCurrentState_total sts firstStop lastStop). }
  eexists. split.
  - unfold TripScheduler.getActiveTrips. rewrite Hloaded. simpl.
    apply list_elem_of_In, list_elem_of_omap. exists a.
    split; [by apply list_elem_of_In|].
    unfold TripScheduler.activeBus. by rewrite Hstate.
  - reflexivity.
Qed.

(** C3. For a trip with non-decreasing times whose events reference known
    stops, the resolver finds a state (dwelling or moving) at every second
    from the first stop's departure to the last stop's arrival. *)
Theorem C3_no_gap (stopTimes : list StopTime) (firstStop lastStop : StopTime)
    (t : Z) :
  head stopTimes = Some firstStop ->
  last stopTimes = Some lastStop ->
  timesSorted stopTimes ->
  stopsKnown dm stopTimes ->
  departureOf firstStop <= t <= arrivalOf lastStop ->
  exists state,
    findCurrentState stopTimes t = Some state
    /\ match state with
       | waiting_at_stop _ stopInfo _ =>
           exists s, In s stopTimes
                     /\ getStop dm (st_stop_id s) = Some stopInfo
       | moving fromStopInfo toStopInfo _ _ _ =>
           exists s s', In s stopTimes /\ In s' stopTimes
                        /\ getStop dm (st_stop_id s) = Some fromStopInfo
                        /\ getStop dm (st_stop_id s') = Some toStopInfo
       end.
Proof.
  intros Hh Hl Hs Hk Ht.
  destruct (findCurrentState_total stopTimes firstStop lastStop t)
    as [state Hstate]; try assumption.
  exists state. split; [exact Hstate|].
  clear Hh Hl Hs Hk Ht.
  destruct stopTimes as [|s0 rest]; [discriminate|].
  cbn [TripScheduler.findCurrentState] in Hstate.
  destruct (_ && _) in Hstate.
  { destruct (getStop dm (st_stop_id s0)) eqn:E; [|discriminate].
    injection Hstate as <-. exists s0. split; [by left|done]. }
  assert (forall prev l,
            scanStops t prev l = Some state ->
            match state with
            | waiting_at_stop _ stopInfo _ =>
                exists s, In s (prev :: l)
                          /\ getStop dm (st_stop_id s) = Some stopInfo
            | moving fromStopInfo toStopInfo _ _ _ =>
                exists s s', In s (prev :: l) /\ In s' (prev :: l)
                             /\ getStop dm (st_stop_id s) = Some fromStopInfo
                             /\ getStop dm (st_stop_id s') = Some toStopInfo
            end) as Hscan.
  { intros prev l. revert prev.
    induction l as [|cur l IH]; intros prev H; [discriminate|].
    cbn [TripScheduler.scanStops] in H.
    destruct (_ && _) in H.
    { destruct (getStop dm (st_stop_id cur)) eqn:E; [|discriminate].
      injection H as <-. exists cur. split; [right; by left|done]. }
    destruct (_ && _) in H.
    { destruct (getStop dm (st_stop_id prev)) eqn:E1; [|discriminate].
      destruct (getStop dm (st_stop_id cur)) eqn:E2; [|discriminate].
      injection H as <-. exists prev, cur.
      split; [by left|]. split; [right; by left|done]. }
    specialize (IH cur H). destruct state.
    - destruct IH as (s & Hin & Hs). exists s. split; [by right|done].
    - destruct IH as (s & s' & Hin & Hin' & Hs).
      exists s, s'. split; [by right|]. split; [by right|done]. }
  by apply Hscan.
Qed.

(** C9. Every bus the active-trips query reports belongs to a trip with at
    least two stop-time events; in particular it is never a trip with
    exactly one. *)
Theorem C9_at_least_two_events (t : Z) (date : JsDate) (bus : Bus) :
  In bus (TripScheduler.getActiveTrips parseFloat dm t date) ->
  (2 <= length (getStopTimes dm (b_tripId bus)))%nat
  /\ forall trip : Trip,
       length (getStopTimes dm (trip_id trip)) = 1%nat ->
       b_tripId bus <> trip_id trip.
Proof.
  intros Hin.
  assert (2 <= length (getStopTimes dm (b_tripId bus)))%nat as H2.
  { unfold TripScheduler.getActiveTrips in Hin.
    destruct (negb (isLoaded dm)); [destruct Hin|].
    apply list_elem_of_In, list_elem_of_omap in Hin as (a & Ha & Hb).
    unfold TripScheduler.activeBus in Hb.
    destruct (TripScheduler.findCurrentState _ _ _ _); [|discriminate].
    injection Hb as <-. simpl.
    unfold getActiveTrips in Ha.
    destruct (falsy _); [by apply not_elem_of_nil in Ha|].
    destruct (getServiceId dm date) as [sid|];
      [|by apply not_elem_of_nil in Ha].
    apply list_elem_of_omap in Ha as (trip & _ & Ht).
    unfold activeTripEntry in Ht.
    destruct (String.eqb _ _); [|discriminate].
    destruct (stopTimesByTrip dm !! trip_id trip) as [sts|] eqn:Hsts;
      [|discriminate].
    destruct (length sts <? 2)%nat eqn:Hlen; [discriminate|].
    destruct (head sts), (last sts); try discriminate.
    destruct (_ && _); [|discriminate].
    injection Ht as <-. simpl.
    unfold getStopTimes. rewrite Hsts. simpl.
    apply Nat.ltb_ge in Hlen. exact Hlen. }
  split; [exact H2|].
  intros trip H1 Heq. rewrite Heq, H1 in H2. lia.
Qed.

(** C10. [calculateProgress] always lies between 0 and 1, it is 0 when the
    arrival is not later than the departure, and the progress of every
    moving state the resolver produces is such a value. *)
Theorem C10_progress_range :
  (forall d a c, (0 <= TripScheduler.calculateProgress d a c <= 1)%Q)
  /\ (forall d a c, a <= d -> TripScheduler.calculateProgress d a c = 0%Q)
  /\ (forall stopTimes t f g d a p,
        findCurrentState stopTimes t = Some (moving f g d a p) ->
        p = TripScheduler.calculateProgress d a t /\ (0 <= p <= 1)%Q).
Proof.
  split; [exact calculateProgress_range|].
  split; [exact calculateProgress_no_duration|].
  intros stopTimes t f g d a p H.
  assert (p = TripScheduler.calculateProgress d a t) as ->.
  { destruct stopTimes as [|s rest]; [discriminate|].
    cbn [TripScheduler.findCurrentState] in H.
    destruct (_ && _) in H; [|by eapply scanStops_moving].
    destruct (getStop dm _) in H; discriminate. }
  split; [reflexivity|apply calculateProgress_range].
Qed.

End TripResolver.

(** C2 as stated fails. On trip T1, S1 is reached at 08:05:00 and left at
    08:06:00; at 08:05:00 the resolver answers no dwell at all (it answers
    moving from S0 to S1). On trip T2, one second after leaving S1 the
    resolver answers no move at all (it answers dwelling at S2, reached at
    the second S1 was left). *)
Lemma C2_counterexample :
  (timesSorted Demo.stopTimesT1
   /\ Demo.stopTimesT1 !! 1%nat = Some Demo.e1
   /\ arrivalOf Demo.e1 < departureOf Demo.e1
   /\ forall position stopInfo nextDepartureTime,
        TripScheduler.findCurrentState Demo.parseFloat Demo.dm
          Demo.stopTimesT1 (arrivalOf Demo.e1)
        <> Some (waiting_at_stop position stopInfo nextDepartureTime))
  /\ (timesSorted Demo.stopTimesT2
      /\ Demo.stopTimesT2 !! 1%nat = Some Demo.g1
      /\ arrivalOf Demo.g1 < departureOf Demo.g1
      /\ departureOf Demo.g0 <= departureOf Demo.g1 + 1 <= arrivalOf Demo.g3
      /\ forall f g d a p,
           TripScheduler.findCurrentState Demo.parseFloat Demo.dm
             Demo.stopTimesT2 (departureOf Demo.g1 + 1)
           <> Some (moving f g d a p)).
Proof.
  split.
  - split; [cbv; intuition discriminate|].
    split; [reflexivity|]. split; [reflexivity|].
    intros position stopInfo nextDepartureTime. vm_compute. discriminate.
  - split; [cbv; intuition discriminate|].
    split; [reflexivity|]. split; [reflexivity|].
    split; [cbv; intuition discriminate|].
    intros f g d a p. vm_compute. discriminate.
Qed.

Lemma C2_witness :
  TripScheduler.findCurrentState Demo.parseFloat Demo.dm Demo.stopTimesT1
    (arrivalOf Demo.e1)
  = Some (moving Demo.S0 Demo.S1 (departureOf Demo.e0) (arrivalOf Demo.e1) 1)
  /\ (forall t, arrivalOf Demo.e1 < t <= departureOf Demo.e1 ->
      TripScheduler.findCurrentState Demo.parseFloat Demo.dm
        Demo.stopTimesT1 t
      = Some (TripScheduler.waitingAt Demo.parseFloat Demo.S1
                (departureOf Demo.e1)))
  /\ TripScheduler.findCurrentState Demo.parseFloat Demo.dm Demo.stopTimesT1
       (departureOf Demo.e1 + 1)
     = Some (moving Demo.S1 Demo.S2 (departureOf Demo.e1) (arrivalOf Demo.e2)
               (TripScheduler.calculateProgress
                  (departureOf Demo.e1) (arrivalOf Demo.e2)
                  (departureOf Demo.e1 + 1))).
Proof.
  destruct (C2_boundary_states Demo.parseFloat Demo.dm Demo.stopTimesT1 0
              Demo.e0 Demo.e1 Demo.e2 Demo.S0 Demo.S1 Demo.S2)
    as (H1 & H2 & H3);
    try reflexivity; [cbv; intuition discriminate|].
  split; [apply H1; reflexivity|].
  split; [exact H2|apply H3; reflexivity].
Defined.

Lemma C3_witness :
  exists state,
    TripScheduler.findCurrentState Demo.parseFloat Demo.dm Demo.stopTimesT1
      29100 = Some state.
Proof.
  destruct (C3_no_gap Demo.parseFloat Demo.dm Demo.stopTimesT1 Demo.e0
              Demo.e2 29100) as (state & H & _); try reflexivity.
  - cbv; intuition discriminate.
  - repeat constructor; eexists; vm_compute; reflexivity.
  - cbv; intuition discriminate.
  - exists state. exact H.
Defined.

(** C3 as stated fails. Trip N2 leaves P0 at 00:05:00 and reaches, at
    00:07:00, a stop that stops.txt does not have. Its times are in order
    and 00:06:00 lies between its first departure and its last arrival;
    the data manager lists the trip as active, and the resolver answers no
    state, so that no bus is reported. *)
Lemma C3_counterexample :
  timesSorted [Night.m0; Night.m1]
  /\ departureOf Night.m0 <= 360 <= arrivalOf Night.m1
  /\ getStop Night.dmGhost (st_stop_id Night.m1) = None
  /\ TripScheduler.findCurrentState Demo.parseFloat Night.dmGhost
       [Night.m0; Night.m1] 360 = None
  /\ (exists a, In a (getActiveTrips Night.dmGhost 360 Night.midnight)
                /\ at_stopTimes a = [Night.m0; Night.m1])
  /\ TripScheduler.getActiveTrips Demo.parseFloat Night.dmGhost 360
       Night.midnight = [].
Proof.
  split; [cbv; intuition discriminate|].
  split; [cbv; intuition discriminate|].
  split; [reflexivity|]. split; [vm_compute; reflexivity|].
  split; [|vm_compute; reflexivity].
  eexists. split; [vm_compute; left; reflexivity|reflexivity].
Qed.

Lemma C9_witness :
  exists bus,
    In bus (TripScheduler.getActiveTrips Demo.parseFloat Demo.dm 28800
              Demo.monday0805)
    /\ (2 <= length (getStopTimes Demo.dm (b_tripId bus)))%nat
    /\ forall trip : Trip,
         length (getStopTimes Demo.dm (trip_id trip)) = 1%nat ->
         b_tripId bus <> trip_id trip.
Proof.
  set (bus := mkBus "T1" Demo.T1 (Some Demo.R1) None
                (Some (mkLatLon (Demo.parseFloat "46.000")
                                (Demo.parseFloat "4.000")))
                28800).
  assert (In bus (TripScheduler.getActiveTrips Demo.parseFloat Demo.dm 28800
                    Demo.monday0805)) as Hin
    by (vm_compute; left; reflexivity).
  exists bus. split; [exact Hin|].
  exact (C9_at_least_two_events Demo.parseFloat Demo.dm 28800
           Demo.monday0805 bus Hin).
Defined.

(** The single-event trip T3 is in service and inside its window at
    08:00:00, and is not reported. *)
Example single_event_trip_not_reported :
  option_map service_id (Demo.dm.(tripsByTripId) !! "T3")
  = getServiceId Demo.dm Demo.monday0805
  /\ map b_tripId (TripScheduler.getActiveTrips Demo.parseFloat Demo.dm 28800
                     Demo.monday0805) = ["T1"].
Proof. split; vm_compute; reflexivity. Qed.

Lemma C10_witness :
  (60 # 240 = TripScheduler.calculateProgress 29160 29400 29220
   /\ (0 <= 60 # 240 <= 1)%Q)
  /\ TripScheduler.calculateProgress 29400 29400 29400 = 0%Q.
Proof.
  destruct (C10_progress_range Demo.parseFloat Demo.dm) as (_ & H0 & Hm).
  split.
  - apply (Hm Demo.stopTimesT1 29220 Demo.S1 Demo.S2 29160 29400 (60 # 240)%Q).
    vm_compute. reflexivity.
  - apply H0. lia.
Defined.

(* ===================================================================== *)
(** ** Service calendar: properties                                       *)
(* ===================================================================== *)

Section ServiceCalendar.

Lemma find_firstSuch {A} (f : A -> bool) (l : list A) (x : A) :
  List.find f l = Some x <-> firstSuch f l x.
Proof.
  unfold firstSuch. induction l as [|a l IH]; simpl.
  - split; [discriminate|]. intros ([|? ?] & ? & ? & _); discriminate.
  - destruct (f a) eqn:Hfa.
    + split.
      * intros [= ->]. exists [], l. by repeat split.
      * intros ([|b l1] & l2 & Heq & Hall & Hx); simplify_eq/=; [done|].
        apply Forall_cons in Hall as [Hb _]. congruence.
    + rewrite IH. split.
      * intros (l1 & l2 & -> & Hall & Hx). exists (a :: l1), l2.
        repeat split; [by constructor|done].
      * intros ([|b l1] & l2 & Heq & Hall & Hx); simplify_eq/=; [congruence|].
        apply Forall_cons in Hall as [_ Hall]. by exists l1, l2.
Qed.

Lemma find_none_Forall {A} (f : A -> bool) (l : list A) :
  List.find f l = None <-> Forall (fun y => f y = false) l.
Proof.
  induction l as [|a l IH]; simpl; [by split; [constructor|]|].
  destruct (f a) eqn:Hfa.
  - split; [discriminate|]. intros [? _]%Forall_cons. congruence.
  - rewrite IH. split; [by constructor|by intros [_ ?]%Forall_cons].
Qed.

Lemma firstSuch_In {A} (f : A -> bool) (l : list A) (x : A) :
  firstSuch f l x -> In x l /\ f x = true.
Proof.
  intros (l1 & l2 & -> & _ & Hx). split; [|exact Hx].
  apply in_or_app. right. by left.
Qed.

(** C1 (as the code has it). The resolver answers one service identifier
    or none. It answers [sid] exactly when the first exception dated on the
    query date, of whatever service, is of type added and names [sid], or
    when no exception at all is dated on the query date and [sid] is the
    service of the first rule whose window holds the date with the week
    day's bit set. A service it answers is active in the specification's
    sense. *)
Theorem C1_first_match (dm : DataManager) (date : JsDate) (sid : string) :
  (getServiceId dm date = Some sid <->
   (exists e, firstSuch (exceptionMatches (dateString date))
                        (calendarDates dm) e
              /\ exception_type e = "1" /\ cd_service_id e = sid)
   \/ (Forall (fun e => cd_date e <> dateString date) (calendarDates dm)
       /\ exists r, firstSuch (ruleMatches (getDay date) (dateString date))
                              (calendar dm) r
                    /\ c_service_id r = sid))
  /\ (getServiceId dm date = Some sid -> activeBySpec dm date sid).
Proof.
  assert (getServiceId dm date = Some sid <->
   (exists e, firstSuch (exceptionMatches (dateString date))
                        (calendarDates dm) e
              /\ exception_type e = "1" /\ cd_service_id e = sid)
   \/ (Forall (fun e => cd_date e <> dateString date) (calendarDates dm)
       /\ exists r, firstSuch (ruleMatches (getDay date) (dateString date))
                              (calendar dm) r
                    /\ c_service_id r = sid)) as Hiff.
  { unfold getServiceId.
    destruct (List.find (exceptionMatches _) _) as [e|] eqn:He.
    - apply find_firstSuch in He. split.
      + destruct (String.eqb (exception_type e) "1") eqn:Ht; [|discriminate].
        intros [= <-]. left. exists e. apply String.eqb_eq in Ht. done.
      + intros [(e' & He' & Ht & Hs)|[Hnone _]].
        * apply find_firstSuch in He, He'. rewrite He in He'.
          injection He' as <-. apply String.eqb_eq in Ht. by rewrite Ht, Hs.
        * destruct (firstSuch_In _ _ _ He) as [Hin Hm].
          rewrite Forall_forall in Hnone.
          apply list_elem_of_In, Hnone in Hin.
          apply String.eqb_eq in Hm. done.
    - split.
      + destruct (List.find (ruleMatches _ _) _) as [r|] eqn:Hr;
          [|discriminate].
        intros [= <-]. right. split.
        * apply find_none_Forall in He.
          eapply Forall_impl; [exact He|]. simpl.
          intros x Hx. by apply String.eqb_neq in Hx.
        * exists r. by apply find_firstSuch in Hr.
      + intros [(e' & He' & _)|[_ (r & Hr & Hs)]].
        * apply find_firstSuch in He'. congruence.
        * apply find_firstSuch in Hr. by rewrite Hr, Hs. }
  split; [exact Hiff|].
  intros H. apply Hiff in H as [(e & He & Ht & Hs)|(Hnone & r & Hr & Hs)].
  - left. exists e. destruct (firstSuch_In _ _ _ He) as [Hin Hm].
    apply String.eqb_eq in Hm. done.
  - right. split.
    + intros (e & Hin & _ & Hd & _).
      rewrite Forall_forall in Hnone.
      by apply list_elem_of_In, Hnone in Hin.
    + exists r. destruct (firstSuch_In _ _ _ Hr) as [Hin Hm]. done.
Qed.

End ServiceCalendar.

(** C1 as stated fails. In the demonstration feed the services WEEK and
    EXTRA both have a rule covering Monday 2 June 2025 and there is no
    exception, so both are active in the specification's sense; the
    resolver answers WEEK alone. *)
Lemma C1_counterexample :
  activeBySpec Demo.dm Demo.monday0805 "EXTRA"
  /\ getServiceId Demo.dm Demo.monday0805 = Some "WEEK"
  /\ getServiceId Demo.dm Demo.monday0805 <> Some "EXTRA".
Proof.
  split; [|split; [reflexivity|discriminate]].
  right. split.
  - intros (e & [] & _).
  - exists (Demo.everyDay "EXTRA"). split; [right; left; reflexivity|].
    split; reflexivity.
Qed.

Lemma C1_witness : activeBySpec Demo.dm Demo.monday0805 "WEEK".
Proof.
  apply (C1_first_match Demo.dm Demo.monday0805 "WEEK"). reflexivity.
Defined.

(* ===================================================================== *)
(** ** Numbers: the rounding of a quotient                                *)
(* ===================================================================== *)

(** The nearest integer is at most one half away. *)
Lemma roundHalfEven_error (q : Q) :
  (Qabs (inject_Z (roundHalfEven q) - q) <= 1 # 2)%Q.
Proof.
  unfold roundHalfEven.
  pose proof (Qfloor_le q) as Hlo. pose proof (Qlt_floor q) as Hhi.
  rewrite inject_Z_plus in Hhi. change (inject_Z 1) with 1%Q in Hhi.
  destruct (q - inject_Z (Qfloor q) ?= 1 # 2)%Q eqn:Hc.
  - apply Qeq_alt in Hc.
    destruct (Z.even (Qfloor q));
      [|rewrite inject_Z_plus; change (inject_Z 1) with 1%Q];
      apply Qabs_Qle_condition; split; lra.
  - apply Qlt_alt in Hc. apply Qabs_Qle_condition. split; lra.
  - apply Qgt_alt in Hc. rewrite inject_Z_plus.
    change (inject_Z 1) with 1%Q.
    apply Qabs_Qle_condition. split; lra.
Qed.

(** A power of two of any exponent, as a ratio of integers. *)
Lemma Qpower_2_ratio (n m : Z) :
  0 <= n -> 0 <= m -> (2 ^ (n - m) == inject_Z (2 ^ n) / inject_Z (2 ^ m))%Q.
Proof.
  intros Hn Hm. rewrite Qpower_minus by lra.
  by rewrite !Zpower_Qpower.
Qed.

(** The leading bit of a positive rational. *)
Lemma floorLog2_spec (a : Q) :
  (0 < a)%Q -> (2 ^ floorLog2 a <= a < 2 ^ (floorLog2 a + 1))%Q.
Proof.
  intros Ha. destruct a as [n d]. unfold floorLog2. simpl Qnum. simpl Qden.
  assert (0 < n) as Hn by (unfold Qlt in Ha; simpl in Ha; lia).
  pose proof (Z.log2_spec n Hn) as [Hn1 Hn2].
  pose proof (Z.log2_spec (Z.pos d) (Pos2Z.is_pos d)) as [Hd1 Hd2].
  pose proof (Z.log2_nonneg n) as Hln.
  pose proof (Z.log2_nonneg (Z.pos d)) as Hld.
  set (ln := Z.log2 n) in *. set (ld := Z.log2 (Z.pos d)) in *.
  rewrite Z.pow_succ_r in Hn2, Hd2 by done.
  assert (0 < 2 ^ ln /\ 0 < 2 ^ ld) as [Hpn Hpd]
      by (split; apply Z.pow_pos_nonneg; lia).
  assert (n # d == inject_Z n / inject_Z (Z.pos d))%Q as Hnd
      by (by rewrite Qmake_Qdiv).
  assert (0 < inject_Z (Z.pos d))%Q as Hdpos
      by (unfold Qlt; simpl; lia).
  assert (2 ^ (ln - ld - 1) <= n # d)%Q as Hlow.
  { replace (ln - ld - 1) with (ln - (ld + 1)) by lia.
    rewrite Qpower_2_ratio, Hnd by lia.
    apply Qle_shift_div_l; [done|].
    unfold Qdiv. rewrite <- Qmult_assoc, (Qmult_comm (/ _)), Qmult_assoc.
    apply Qle_shift_div_r.
    { change 0%Q with (inject_Z 0). rewrite <- Zlt_Qlt.
      apply Z.pow_pos_nonneg; lia. }
    rewrite <- !inject_Z_mult, <- Zle_Qle.
    rewrite Z.pow_add_r by lia. change (2 ^ 1) with 2. nia. }
  assert (n # d < 2 ^ (ln - ld + 1))%Q as Hhigh.
  { replace (ln - ld + 1) with (ln + 1 - ld) by lia.
    rewrite Qpower_2_ratio, Hnd by lia.
    apply Qlt_shift_div_l.
    { change 0%Q with (inject_Z 0). by rewrite <- Zlt_Qlt. }
    unfold Qdiv. rewrite <- Qmult_assoc, (Qmult_comm (/ _)), Qmult_assoc.
    apply Qlt_shift_div_r; [done|].
    rewrite <- !inject_Z_mult, <- Zlt_Qlt.
    rewrite Z.pow_add_r by lia. change (2 ^ 1) with 2. nia. }
  destruct (Qle_bool (2 ^ (ln - ld)) (n # d)) eqn:Hb.
  - apply Qle_bool_iff in Hb. split; done.
  - split; [done|].
    replace (ln - ld - 1 + 1) with (ln - ld) by lia.
    apply Qnot_le_lt. intros H. apply Qle_bool_iff in H. congruence.
Qed.

(** The nearest integer of a number in a range of integers from 0. *)
Lemma roundHalfEven_range (q : Q) (n : Z) :
  (0 <= q < inject_Z n)%Q -> 0 <= roundHalfEven q <= n.
Proof.
  intros [Hlo Hhi].
  assert (0 <= Qfloor q < n) as Hf.
  { split.
    - apply (Qfloor_resp_le 0 q Hlo).
    - rewrite Zlt_Qlt. pose proof (Qfloor_le q). lra. }
  unfold roundHalfEven.
  destruct (_ ?= _)%Q; [destruct (Z.even _)|..]; lia.
Qed.

(** The nearest number has a significand of at most 53 bits, counted
    from the leading bit of the rational, or from [2 ^ -1022]. *)
Lemma binary64_significand (x : Q) :
  exists m : Z,
    (Qabs (binary64 x)
     == inject_Z m * 2 ^ (Z.max (floorLog2 (Qabs x)) (-1022) - 52))%Q
    /\ 0 <= m <= 2 ^ 53.
Proof.
  unfold binary64.
  set (e := Z.max (floorLog2 (Qabs x)) (-1022)).
  destruct (Qeq_bool x 0) eqn:Hz.
  { exists 0. split; [|done]. change (Qabs 0) with 0%Q.
    change (inject_Z 0) with 0%Q. ring. }
  assert (~ x == 0)%Q as Hx.
  { intros H. apply Qeq_bool_iff in H. congruence. }
  assert (0 < Qabs x)%Q as Ha.
  { pose proof (Qabs_nonneg x) as H0.
    destruct (Qlt_le_dec 0 (Qabs x)) as [|Hle]; [done|].
    destruct Hx. apply Qabs_Qle_condition in Hle. lra. }
  assert (0 < 2 ^ (e - 52))%Q as Hq by (by apply Qpower_0_lt).
  exists (roundHalfEven (Qabs x / 2 ^ (e - 52))).
  assert (0 <= roundHalfEven (Qabs x / 2 ^ (e - 52)) <= 2 ^ 53) as Hm.
  { apply roundHalfEven_range. split.
    - apply Qle_shift_div_l; [done|]. lra.
    - apply Qlt_shift_div_r; [done|].
      rewrite Zpower_Qpower by lia. change (inject_Z 2) with 2%Q.
      rewrite <- Qpower_plus by lra.
      replace (53 + (e - 52)) with (e + 1) by lia.
      destruct (floorLog2_spec _ Ha) as [_ Hup].
      eapply Qlt_le_trans; [exact Hup|].
      apply Qpower_le_compat_l; [lia|lra]. }
  split; [|done]. cbv zeta.
  assert (0 <= inject_Z (roundHalfEven (Qabs x / 2 ^ (e - 52)))
               * 2 ^ (e - 52))%Q as Hr.
  { apply Qmult_le_0_compat; [|lra].
    change 0%Q with (inject_Z 0). rewrite <- Zle_Qle. lia. }
  destruct (Qle_bool 0 x); [|rewrite Qabs_opp];
    rewrite Qred_correct; by apply Qabs_pos.
Qed.

(** The number nearest to a rational is at most half a unit of its last
    place away. *)
Lemma binary64_error (x : Q) :
  (Qabs (binary64 x - x)
   <= (1 # 2) * 2 ^ (Z.max (floorLog2 (Qabs x)) (-1022) - 52))%Q.
Proof.
  unfold binary64.
  set (e := Z.max (floorLog2 (Qabs x)) (-1022)).
  assert (0 < 2 ^ (e - 52))%Q as Hq by (by apply Qpower_0_lt).
  destruct (Qeq_bool x 0) eqn:Hz.
  { apply Qeq_bool_iff in Hz.
    assert (0 - x == 0)%Q as -> by lra. change (Qabs 0) with 0%Q. lra. }
  set (quantum := (2 ^ (e - 52))%Q) in *.
  pose proof (roundHalfEven_error (Qabs x / quantum)) as Herr.
  set (m := inject_Z (roundHalfEven (Qabs x / quantum))) in *.
  cbv zeta.
  assert (Qabs (m * quantum - Qabs x) <= (1 # 2) * quantum)%Q as Hmag.
  { assert (m * quantum - Qabs x == (m - Qabs x / quantum) * quantum)%Q
      as -> by (field; lra).
    rewrite Qabs_Qmult, (Qabs_pos quantum) by lra.
    apply Qmult_le_compat_r; [done|lra]. }
  destruct (Qle_bool 0 x) eqn:Hs.
  - apply Qle_bool_iff in Hs. rewrite (Qabs_pos x) in Hmag by done.
    by rewrite Qred_correct.
  - assert (x < 0)%Q as Hneg.
    { apply Qnot_le_lt. intros H. apply Qle_bool_iff in H. congruence. }
    rewrite (Qabs_neg x) in Hmag by lra. rewrite Qred_correct.
    assert (- (m * quantum) - x == - (m * quantum - - x))%Q as -> by ring.
    by rewrite Qabs_opp.
Qed.

(** The leading bit of a rational up to 512 is at most the tenth. *)
Lemma floorLog2_le_9 (a : Q) : (a <= 512)%Q -> floorLog2 a <= 9.
Proof.
  intros Ha. unfold floorLog2.
  assert (Z.log2 (Qnum a) - Z.log2 (Z.pos (Qden a)) <= 9) as Hk.
  { unfold Qle in Ha. simpl in Ha.
    assert (Z.log2 (Qnum a) <= Z.log2 (Z.pos (Qden a) * 2 ^ 9)) as H.
    { apply Z.log2_le_mono. lia. }
    rewrite Z.log2_mul_pow2 in H by lia. lia. }
  destruct (Qle_bool _ _); lia.
Qed.

(** Up to 512 the nearest number is within [2 ^ -44]. *)
Lemma binary64_near (x : Q) :
  (Qabs x <= 512)%Q -> (Qabs (binary64 x - x) <= 1 # 17592186044416)%Q.
Proof.
  intros Hx. pose proof (binary64_error x) as Herr.
  pose proof (floorLog2_le_9 _ Hx) as Hlog.
  assert (2 ^ (Z.max (floorLog2 (Qabs x)) (-1022) - 52) <= 2 ^ (-43))%Q as Hq.
  { apply Qpower_le_compat_l; [lia|lra]. }
  assert (2 ^ (-43) == 1 # 8796093022208)%Q as Hv by (vm_compute; reflexivity).
  rewrite Hv in Hq. lra.
Qed.

(** Up to 500 m the walking seconds are the ceiling of the exact quotient
    of the distance by 1.4, or differ from it by one. *)
Lemma walkSeconds_near_ceiling (distance : Q) :
  (0 <= distance <= 500)%Q ->
  Qceiling (distance / (14 # 10)) - 1 <= walkSeconds distance
    <= Qceiling (distance / (14 # 10)) + 1.
Proof.
  intros [Hlo Hhi]. unfold walkSeconds.
  assert (13999 # 10000 <= binary64 WALK_SPEED_MPS <= 14 # 10)%Q as [Hb1 Hb2]
    by (split; vm_compute; discriminate).
  set (b := binary64 WALK_SPEED_MPS) in *. clearbody b.
  set (q := (distance / (14 # 10))%Q).
  assert (q <= distance / b <= q + (1 # 2))%Q as [Hq1 Hq2].
  { subst q. split.
    - apply Qle_shift_div_l; [lra|]. 
      assert (distance / (14 # 10) == distance * (10 # 14))%Q as -> by (field).
      nra.
    - apply Qle_shift_div_r; [lra|].
      assert (distance / (14 # 10) == distance * (10 # 14))%Q as -> by (field).
      nra. }
  assert (Qabs (distance / b) <= 512)%Q as Hx.
  { rewrite Qabs_pos; [|subst q].
    - assert (q <= 358)%Q; [|lra]. subst q.
      apply Qle_shift_div_r; lra.
    - apply Qle_shift_div_l; lra. }
  apply binary64_near in Hx. apply Qabs_Qle_condition in Hx as [Hx1 Hx2].
  set (r := binary64 (distance / b)) in *. clearbody r.
  set (q' := (distance / b)%Q) in *. clearbody q' q.
  pose proof (Qle_ceiling q) as Hc1. pose proof (Qceiling_lt q) as Hc2.
  pose proof (Qle_ceiling r) as Hr1. pose proof (Qceiling_lt r) as Hr2.
  unfold Z.sub in Hc2, Hr2. rewrite inject_Z_plus in Hc2, Hr2.
  change (inject_Z (- (1))) with (- (1))%Q in Hc2, Hr2.
  assert (Qceiling q - 2 < Qceiling r /\ Qceiling r < Qceiling q + 2)
    as [H1 H2]; [|lia].
  rewrite !Zlt_Qlt. unfold Z.sub. rewrite !inject_Z_plus.
  change (inject_Z (- (2))) with (- (2))%Q.
  change (inject_Z 2) with 2%Q.
  split; lra.
Qed.

(** The numbers that some literals denote, and the quotient of 21 by
    1.4. *)
Lemma binary64_values :
  (binary64 (14 # 10) == 6305039478318694 # 4503599627370496)%Q
  /\ (binary64 (1 # 10) == 3602879701896397 # 36028797018963968)%Q
  /\ (binary64 (1 # 3) == 6004799503160661 # 18014398509481984)%Q
  /\ (binary64 500 == 500)%Q
  /\ (binary64 (21 / binary64 (14 # 10))
      == 8444249301319681 # 562949953421312)%Q.
Proof. repeat split; vm_compute; reflexivity. Qed.

(** The walking seconds are taken of the rounded quotient: at 21 m they
    are 16, where the ceiling of the exact quotient by 1.4 is 15. The
    number that [1.4] denotes is a little less than 1.4, and the quotient
    of 21 by it is rounded to a number above 15. *)
Lemma walkSeconds_rounded_quotient :
  walkSeconds 21 = 16
  /\ Qceiling (21 / (14 # 10)) = 15
  /\ (binary64 (14 # 10) < 14 # 10)%Q
  /\ (15 < binary64 (21 / binary64 (14 # 10)))%Q
  /\ walkSeconds 200 = 143
  /\ walkSeconds 0 = 0.
Proof. repeat split; vm_compute; reflexivity. Qed.

(* ===================================================================== *)
(** ** Transfer index: properties                                         *)
(* ===================================================================== *)

Section TransferIndex.

Variable calculateDistance : jsval -> jsval -> jsval -> jsval -> Q.

Local Abbreviation stopDistance :=
  (LocalPathfinder.stopDistance calculateDistance).
Local Abbreviation transfersFrom :=
  (LocalPathfinder.transfersFrom calculateDistance).
Local Abbreviation buildTransfers :=
  (LocalPathfinder.buildTransfers calculateDistance).

Local Abbreviation transferTo := (transferTo calculateDistance).

(** What the inner loop collects: one record per other position of the
    list that is in walking range. *)
Lemma transfersFrom_In i fromStop rest : forall j r,
  In r (transfersFrom i fromStop j rest) <->
  exists k toStop,
    rest !! k = Some toStop /\ (j + k)%nat <> i
    /\ Qle_bool (stopDistance fromStop toStop) MAX_WALK_METERS = true
    /\ r = transferTo fromStop toStop.
Proof.
  induction rest as [|x rest IH]; intros j r; simpl.
  - split; [tauto|]. intros (k & ? & ? & _). discriminate.
  - assert ((exists k toStop,
               rest !! k = Some toStop /\ (S j + k)%nat <> i
               /\ Qle_bool (stopDistance fromStop toStop) MAX_WALK_METERS
                  = true
               /\ r = transferTo fromStop toStop)
            -> exists k toStop,
               (x :: rest) !! k = Some toStop /\ (j + k)%nat <> i
               /\ Qle_bool (stopDistance fromStop toStop) MAX_WALK_METERS
                  = true
               /\ r = transferTo fromStop toStop) as Hshift.
    { intros (k & y & Hk & Hne & Hd & Hr). exists (S k), y.
      repeat split; try done. lia. }
    destruct (i =? j)%nat eqn:Hij.
    + apply Nat.eqb_eq in Hij. rewrite IH. split; [exact Hshift|].
      intros ([|k] & y & Hk & Hne & Hd & Hr); [lia|].
      exists k, y. repeat split; try done. simpl in Hk. lia.
    + apply Nat.eqb_neq in Hij.
      destruct (Qle_bool (stopDistance fromStop x) MAX_WALK_METERS) eqn:Hd.
      * simpl. rewrite IH. split.
        -- intros [<-|H]; [|by apply Hshift].
           exists 0%nat, x. repeat split; try done. lia.
        -- intros ([|k] & y & Hk & Hne & Hd' & Hr).
           ++ left. simpl in Hk. by simplify_eq.
           ++ right. exists k, y. repeat split; try done. lia.
      * rewrite IH. split; [exact Hshift|].
        intros ([|k] & y & Hk & Hne & Hd' & Hr).
        -- simpl in Hk. simplify_eq. congruence.
        -- exists k, y. repeat split; try done. lia.
Qed.

(** The outer loop leaves alone the entries of other identifiers. *)
Lemma buildTransfers_other stops id rest : forall i tm,
  Forall (fun s => stop_id s <> id) rest ->
  buildTransfers stops i rest tm !! id = tm !! id.
Proof.
  induction rest as [|x rest IH]; intros i tm H; simpl; [done|].
  apply Forall_cons in H as [Hx H].
  rewrite IH by done. by rewrite lookup_insert_ne.
Qed.

(** With distinct identifiers, the entry of the stop at position [k] is
    what the inner loop collected for it. *)
Lemma buildTransfers_lookup stops rest : forall i tm k fromStop,
  NoDup (map stop_id rest) ->
  rest !! k = Some fromStop ->
  buildTransfers stops i rest tm !! stop_id fromStop
  = Some (transfersFrom (i + k) fromStop 0 stops).
Proof.
  induction rest as [|x rest IH]; intros i tm k fromStop Hnd Hk;
    [discriminate|].
  simpl in Hnd. apply NoDup_cons in Hnd as [Hx Hnd].
  destruct k as [|k]; simpl in Hk |- *.
  - injection Hk as ->. rewrite buildTransfers_other.
    + rewrite lookup_insert_eq. by rewrite Nat.add_0_r.
    + apply Forall_forall. intros s Hs Heq. apply Hx.
      rewrite <- Heq. apply list_elem_of_fmap. by exists s.
  - rewrite (IH (S i) _ k fromStop Hnd Hk). do 2 f_equal. lia.
Qed.

(** An entry of the built map belongs to a stop of the list. *)
Lemma buildTransfers_Some stops rest : forall i tm id transfers,
  buildTransfers stops i rest tm !! id = Some transfers ->
  tm !! id = Some transfers
  \/ exists k fromStop, rest !! k = Some fromStop /\ stop_id fromStop = id
       /\ transfers = transfersFrom (i + k) fromStop 0 stops.
Proof.
  induction rest as [|x rest IH]; intros i tm id transfers H; simpl in H;
    [by left|].
  apply IH in H as [H|(k & y & Hk & Hid & Ht)].
  - destruct (decide (stop_id x = id)) as [Heq|Hne].
    + rewrite Heq, lookup_insert_eq in H. injection H as <-.
      right. exists 0%nat, x. by rewrite Nat.add_0_r.
    + rewrite lookup_insert_ne in H by done. by left.
  - right. exists (S k), y. repeat split; try done.
    rewrite Ht. by replace (i + S k)%nat with (S i + k)%nat by lia.
Qed.

(** C6. With distinct master-stop identifiers: for
    every ordered pair of distinct master stops whose distance, computed
    by [calculateDistance] on the coordinates of the first and of the
    second, is at most 500, the entry of the first holds a record to the
    second with that distance; every stored record goes to another master
    stop, at most 500 away, with that distance; and the walking seconds of
    a record are the ceiling of the number nearest to the quotient of the
    distance by the number nearest to 1.4. *)
Theorem C6_transfer_index (dm : DataManager) :
  NoDup (map stop_id (masterStops dm)) ->
  let tm := LocalPathfinder.prebuildTransferMap calculateDistance dm in
  let distance A B :=
    calculateDistance (JStr (stop_lat A)) (JStr (stop_lon A))
                      (JStr (stop_lat B)) (JStr (stop_lon B)) in
  (forall i j A B,
      masterStops dm !! i = Some A -> masterStops dm !! j = Some B ->
      i <> j ->
      (distance A B <= 500)%Q ->
      exists transfers,
        tm !! stop_id A = Some transfers
        /\ In (mkTransfer (stop_id B)
                 (Qceiling (binary64 (distance A B / binary64 (14 # 10))))
                 (distance A B)) transfers)
  /\ (forall a transfers r,
        tm !! a = Some transfers -> In r transfers ->
        tr_toStopId r <> a
        /\ (tr_distance r <= 500)%Q
        /\ exists A B,
             In A (masterStops dm) /\ In B (masterStops dm)
             /\ stop_id A = a /\ stop_id B = tr_toStopId r
             /\ tr_distance r = distance A B
             /\ walkTime r
                = Qceiling (binary64 (tr_distance r / binary64 (14 # 10)))).
Proof.
  intros Hnd tm distance. subst tm distance. cbv beta.
  unfold LocalPathfinder.prebuildTransferMap. split.
  - intros i j A B HA HB Hij Hd.
    exists (transfersFrom i A 0 (masterStops dm)). split.
    + by rewrite (buildTransfers_lookup _ _ 0%nat ∅ i A Hnd HA).
    + apply transfersFrom_In. exists j, B.
      split; [exact HB|]. split; [simpl; lia|].
      split; [by apply Qle_bool_iff|reflexivity].
  - intros a transfers r Hlook Hin.
    apply buildTransfers_Some in Hlook as [Hlook|(i & A & HA & Hid & ->)];
      [by rewrite lookup_empty in Hlook|].
    apply transfersFrom_In in Hin as (j & B & HB & Hij & Hd & ->).
    simpl in Hij |- *. split; [|split].
    + intros Heq. apply Hij. symmetry.
      eapply NoDup_lookup; [exact Hnd| |].
      * rewrite list_lookup_fmap, HA. reflexivity.
      * rewrite list_lookup_fmap, HB. simpl. congruence.
    + by apply Qle_bool_iff.
    + exists A, B. repeat split; try done.
      * apply list_elem_of_In. by eapply list_elem_of_lookup_2.
      * apply list_elem_of_In. by eapply list_elem_of_lookup_2.
Qed.

End TransferIndex.

(* ===================================================================== *)
(** ** Journey planner: properties                                        *)
(* ===================================================================== *)

Section Planner.

Variable calculateDistance : jsval -> jsval -> jsval -> jsval -> Q.
Variable findStopsWithinRadius :
  DataManager -> Coords -> Q -> list (Stop * Q).

Local Abbreviation dijkstra :=
  (LocalPathfinder.dijkstra).
Local Abbreviation findItinerary :=
  (LocalPathfinder.findItinerary calculateDistance findStopsWithinRadius).

(** The acceptance test reads a label of [0] as no label. *)
Lemma improves_iff t labels stopId :
  improves t labels stopId = true <->
  labels !! stopId = None \/ labels !! stopId = Some 0
  \/ exists label, labels !! stopId = Some label /\ t < label.
Proof.
  unfold improves, orInfinity, ltExt.
  destruct (labels !! stopId) as [[|p|p]|]; simpl.
  - split; [by auto|done].
  - rewrite Z.ltb_lt. split; [by eauto 6|].
    intros [?|[?|(l & [= <-] & ?)]]; done.
  - rewrite Z.ltb_lt. split; [by eauto 6|].
    intros [?|[?|(l & [= <-] & ?)]]; done.
  - split; [by auto|done].
Qed.

(** So does the test at dequeue. *)
Lemma superseded_iff t labels stopId :
  superseded t labels stopId = true <->
  exists label, labels !! stopId = Some label /\ label <> 0 /\ t > label.
Proof.
  unfold superseded, orInfinity, gtExt.
  destruct (labels !! stopId) as [[|p|p]|]; simpl.
  - split; [done|]. intros (l & [= <-] & ? & _). done.
  - rewrite Z.gtb_ltb, Z.ltb_lt. split; [intros; eexists; split; [done|lia]|].
    intros (l & [= <-] & _ & ?). lia.
  - rewrite Z.gtb_ltb, Z.ltb_lt. split; [intros; eexists; split; [done|lia]|].
    intros (l & [= <-] & _ & ?). lia.
  - split; [done|]. intros (l & ? & _). done.
Qed.

(** A transfer relaxation that goes through either leaves the state alone
    or replaces the label and the back-link of the target together. *)
Lemma relaxWalk_updates dm cur t s transfer s' :
  LocalPathfinder.relaxWalk dm cur t s transfer = Return s' ->
  (improves (t + walkTime transfer) (minArrivalTime s) (tr_toStopId transfer)
   = false /\ s' = s)
  \/ (improves (t + walkTime transfer) (minArrivalTime s)
               (tr_toStopId transfer) = true
      /\ exists leg,
           backLink s'
           = <[tr_toStopId transfer := mkBackLink leg cur]> (backLink s)
           /\ endTime leg = t + walkTime transfer /\ startTime leg = t
           /\ minArrivalTime s'
              = <[tr_toStopId transfer := t + walkTime transfer]>
                  (minArrivalTime s)
           /\ pq s' = PriorityQueue.enqueue (leg, t + walkTime transfer)
                                            (pq s)).
Proof.
  unfold LocalPathfinder.relaxWalk. destruct (improves _ _ _).
  - destruct (getStop dm cur); [|discriminate].
    destruct (getStop dm (tr_toStopId transfer)); [|discriminate].
    simpl. intros [= <-]. right. split; [done|]. eexists.
    split; [reflexivity|]. by repeat split.
  - intros [= <-]. by left.
Qed.

(** Likewise for a bus relaxation. *)
Lemma relaxBus_updates dm cur st trip depTime s next s' :
  LocalPathfinder.relaxBus dm cur st trip depTime s next = Return s' ->
  s' = s
  \/ (improves (arrivalOf next) (minArrivalTime s) (st_stop_id next) = true
      /\ exists leg,
           backLink s'
           = <[st_stop_id next := mkBackLink leg cur]> (backLink s)
           /\ endTime leg = arrivalOf next /\ startTime leg = depTime
           /\ minArrivalTime s'
              = <[st_stop_id next := arrivalOf next]> (minArrivalTime s)
           /\ pq s' = PriorityQueue.enqueue (leg, arrivalOf next) (pq s)).
Proof.
  unfold LocalPathfinder.relaxBus, arrivalOf.
  destruct (_ >? _); [|intros [= <-]; by left].
  destruct (improves _ _ _); [|intros [= <-]; by left].
  destruct (getStop dm (st_stop_id st)); [|discriminate].
  destruct (getStop dm (st_stop_id next)); [|discriminate].
  simpl. intros [= <-]. right. split; [done|]. eexists.
    split; [reflexivity|]. by repeat split.
Qed.

(** A loop stops at the first body that throws. *)
Lemma forEachM_throw {A S} (body : S -> A -> result S) before a after s s' e :
  forEachM body before s = Return s' ->
  body s' a = Throw e ->
  forEachM body (before ++ a :: after) s = Throw e.
Proof.
  revert s. induction before as [|b before IH]; intros s; simpl.
  - intros [= ->] H. by rewrite H.
  - destruct (body s b) as [s1| |]; simpl; [|discriminate..].
    intros H1 H2. by apply IH.
Qed.

(** The search ends with a TypeError when the expansion of a dequeued
    entry reaches an accepted bus candidate whose stop is unknown. *)
Lemma dijkstra_missing_stop (pf : Pathfinder) (serviceId : string)
    (endStopIds : gset string) fuel s currentLeg t rest currentStopId
    earlier st later s1 trip before next after s2 :
  pq s = (currentLeg, t) :: rest ->
  toStopId currentLeg = Some currentStopId ->
  superseded t (minArrivalTime s) currentStopId = false ->
  currentStopId ∉ endStopIds ->
  stopTimesByStop (dataManager pf) !! currentStopId
  = Some (earlier ++ st :: later) ->
  forEachM (LocalPathfinder.boardTrip (dataManager pf) serviceId
              currentStopId t)
           earlier (mkSearch rest (minArrivalTime s) (backLink s))
  = Return s1 ->
  tripsByTripId (dataManager pf) !! st_trip_id st = Some trip ->
  service_id trip = serviceId ->
  t <= departureOf st ->
  getStopTimes (dataManager pf) (st_trip_id st) = before ++ next :: after ->
  forEachM (LocalPathfinder.relaxBus (dataManager pf) currentStopId st
              trip (departureOf st)) before s1
  = Return s2 ->
  stop_sequence st < stop_sequence next ->
  improves (arrivalOf next) (minArrivalTime s2) (st_stop_id next) = true ->
  getStop (dataManager pf) (st_stop_id next) = None ->
  dijkstra (S fuel) pf serviceId endStopIds s = Throw TypeError.
Proof.
  intros Hpq Hleg Hsup Hend Hdep Hearlier Htrip Hsid Ht Hstops Hbefore Hseq
         Himp Hnone.
  cbn [LocalPathfinder.dijkstra]. rewrite Hpq. simpl. rewrite Hleg, Hsup.
  rewrite bool_decide_eq_false_2 by done.
  unfold LocalPathfinder.expand. rewrite Hdep. simpl.
  erewrite forEachM_throw; [done|exact Hearlier|].
  unfold LocalPathfinder.boardTrip. rewrite Htrip. simpl.
  rewrite Hsid, String.eqb_refl. fold (departureOf st).
  replace (departureOf st >=? t) with true
    by (symmetry; rewrite Z.geb_leb; apply Z.leb_le; lia).
  simpl. rewrite Hstops.
  erewrite forEachM_throw; [done|exact Hbefore|].
  unfold LocalPathfinder.relaxBus.
  replace (stop_sequence next >? stop_sequence st) with true
    by (symmetry; rewrite Z.gtb_ltb; apply Z.ltb_lt; lia).
  fold (arrivalOf next). rewrite Himp, Hnone.
  by destruct (getStop (dataManager pf) (st_stop_id st)).
Qed.

(** Path reconstruction ends with a TypeError at a back-link that names a
    stop without back-link. *)
Lemma followLinks_missing_link fuel links link legs :
  prevStopId link <> "START" ->
  links !! prevStopId link = None ->
  LocalPathfinder.followLinks (S fuel) links link legs = Throw TypeError.
Proof.
  intros Hne Hnone. simpl. apply String.eqb_neq in Hne.
  by rewrite Hne, Hnone.
Qed.

(** A search that ends without final stop ends on an empty queue. *)
Lemma dijkstra_none_empty pf sid fuel : forall ends s0 s,
  dijkstra fuel pf sid ends s0 = Return (None, s) -> pq s = [].
Proof.
  induction fuel as [|fuel IH]; intros ends s0 s Hd.
  - simpl in Hd. destruct (pq s0) as [|[l t] r] eqn:Hq; simpl in Hd;
      [by simplify_eq|discriminate].
  - simpl in Hd. destruct (pq s0) as [|[l t] r] eqn:Hq; simpl in Hd;
      [by simplify_eq|].
    destruct (toStopId l) as [cur|]; [|by eapply IH].
    destruct (superseded _ _ _); [by eapply IH|].
    destruct (bool_decide _); [discriminate|].
    destruct (LocalPathfinder.expand _ _ _ _ _) as [s1| |];
      simpl in Hd; try discriminate.
    by eapply IH.
Qed.

(** The outcome NO_PATH_FOUND is returned only when the search loop of the
    query itself ended normally, without a final stop (or with one whose
    identifier is the empty string, which is falsy). *)
Lemma no_path_found_inv pf fuel startCoords endCoords departureDate outcome :
  findItinerary fuel pf startCoords endCoords departureDate = Return outcome ->
  status outcome = NO_PATH_FOUND ->
  exists sid final s,
    getServiceId (dataManager pf) departureDate = Some sid
    /\ dijkstra fuel pf sid
         (list_to_set
            (map (fun s : Stop * Q => stop_id s.1)
               (findStopsWithinRadius (dataManager pf) endCoords
                  MAX_WALK_METERS)))
         (foldl (LocalPathfinder.seedStart startCoords
                   (getHours departureDate * 3600
                    + getMinutes departureDate * 60
                    + getSeconds departureDate))
                (mkSearch [] ∅ ∅)
                (findStopsWithinRadius (dataManager pf) startCoords
                   MAX_WALK_METERS))
       = Return (final, s)
    /\ falsy final = true
    /\ (final = None -> pq s = []).
Proof.
  intros H Hst. unfold LocalPathfinder.findItinerary in H.
  destruct (falsy (getServiceId _ _)); [by simplify_eq/=|].
  destruct (getServiceId _ _) as [sid|]; [|by simplify_eq/=].
  destruct (_ =? _)%nat; [by simplify_eq/=|].
  destruct (_ =? _)%nat; [by simplify_eq/=|].
  destruct (LocalPathfinder.dijkstra _ _ _ _ _)
    as [[final s]| |] eqn:Hd; simpl in H; try discriminate.
  exists sid, final, s. split; [done|]. split; [exact Hd|].
  destruct (falsy final) eqn:Hf.
  - split; [done|]. intros ->. by eapply dijkstra_none_empty.
  - destruct final as [final|]; [|done].
    destruct (LocalPathfinder.reconstructPath _ _ _ _ _ _)
      as [[legs total]| |]; simpl in H; by simplify_eq/=.
Qed.

(** C8 (as the code has it). Nothing in the planner catches an exception.
    When the expansion of a dequeued entry reaches a bus candidate that is
    accepted and whose stop has no known Stop, the search ends with a
    TypeError; so does path reconstruction at a back-link that names a
    stop without back-link; and the outcome NO_PATH_FOUND is returned only
    when the search loop itself ended normally, without a final stop (on
    an empty queue) or with a final stop whose identifier is the empty
    string. *)
Theorem C8_violation_raises (pf : Pathfinder) (serviceId : string)
    (endStopIds : gset string) :
  (forall fuel s currentLeg t rest currentStopId earlier st later s1 trip
          before next after s2,
      pq s = (currentLeg, t) :: rest ->
      toStopId currentLeg = Some currentStopId ->
      superseded t (minArrivalTime s) currentStopId = false ->
      currentStopId ∉ endStopIds ->
      stopTimesByStop (dataManager pf) !! currentStopId
      = Some (earlier ++ st :: later) ->
      forEachM (LocalPathfinder.boardTrip (dataManager pf) serviceId
                  currentStopId t)
               earlier (mkSearch rest (minArrivalTime s) (backLink s))
      = Return s1 ->
      tripsByTripId (dataManager pf) !! st_trip_id st = Some trip ->
      service_id trip = serviceId ->
      t <= departureOf st ->
      getStopTimes (dataManager pf) (st_trip_id st)
      = before ++ next :: after ->
      forEachM (LocalPathfinder.relaxBus (dataManager pf) currentStopId st
                  trip (departureOf st)) before s1
      = Return s2 ->
      stop_sequence st < stop_sequence next ->
      improves (arrivalOf next) (minArrivalTime s2) (st_stop_id next) = true ->
      getStop (dataManager pf) (st_stop_id next) = None ->
      dijkstra (S fuel) pf serviceId endStopIds s = Throw TypeError)
  /\ (forall fuel links link legs,
        prevStopId link <> "START" ->
        links !! prevStopId link = None ->
        LocalPathfinder.followLinks (S fuel) links link legs
        = Throw TypeError)
  /\ (forall fuel startCoords endCoords departureDate outcome,
        findItinerary fuel pf startCoords endCoords departureDate
        = Return outcome ->
        status outcome = NO_PATH_FOUND ->
        exists sid final s,
          getServiceId (dataManager pf) departureDate = Some sid
          /\ dijkstra fuel pf sid
               (list_to_set
                  (map (fun s : Stop * Q => stop_id s.1)
                     (findStopsWithinRadius (dataManager pf) endCoords
                        MAX_WALK_METERS)))
               (foldl (LocalPathfinder.seedStart startCoords
                         (getHours departureDate * 3600
                          + getMinutes departureDate * 60
                          + getSeconds departureDate))
                      (mkSearch [] ∅ ∅)
                      (findStopsWithinRadius (dataManager pf) startCoords
                         MAX_WALK_METERS))
             = Return (final, s)
          /\ falsy final = true
          /\ (final = None -> pq s = [])).
Proof.
  split; [|split].
  - intros. by eapply dijkstra_missing_stop.
  - intros. by apply followLinks_missing_link.
  - intros. by eapply no_path_found_inv.
Qed.

End Planner.

(** C8 as stated fails. Trip N2 of the second night feed goes from P0 to a
    stop GHOST that stops.txt does not have. A query leaving the Square at
    00:02:00 does not return NO_PATH_FOUND, whatever the bound on the
    loops: it ends with a TypeError. *)
Lemma C8_counterexample :
  getStop Night.dmGhost "GHOST" = None
  /\ LocalPathfinder.findItinerary Night.calculateDistance
       Night.findStopsWithinRadius 100 Night.pfGhost Night.atSquare
       Night.atQuay Night.twoPast
     = Throw TypeError
  /\ forall fuel outcome,
       LocalPathfinder.findItinerary Night.calculateDistance
         Night.findStopsWithinRadius fuel Night.pfGhost Night.atSquare
         Night.atQuay Night.twoPast
       <> Return outcome.
Proof.
  split; [reflexivity|]. split; [vm_compute; reflexivity|].
  intros [|fuel] outcome; [vm_compute; discriminate|].
  unfold LocalPathfinder.findItinerary.
  change (falsy (getServiceId (dataManager Night.pfGhost) Night.twoPast))
    with false.
  change (getServiceId (dataManager Night.pfGhost) Night.twoPast)
    with (Some "WEEK").
  cbv iota.
  change (length (Night.findStopsWithinRadius (dataManager Night.pfGhost)
                    Night.atSquare MAX_WALK_METERS) =? 0)%nat with false.
  change (length (Night.findStopsWithinRadius (dataManager Night.pfGhost)
                    Night.atQuay MAX_WALK_METERS) =? 0)%nat with false.
  cbv iota.
  erewrite (dijkstra_missing_stop Night.pfGhost "WEEK" _ fuel _ _ 120 _ "P0"
              [] Night.m0 [] _ Night.N2 [Night.m0] Night.m1 []);
    [discriminate|try (vm_compute; reflexivity)..].
  - apply (bool_decide_unpack _). vm_compute. reflexivity.
  - vm_compute. discriminate.
Qed.

Lemma C8_witness :
  LocalPathfinder.dijkstra 1 Night.pfGhost "WEEK" Night.nearQuay
    (Night.seeded 120)
  = Throw TypeError.
Proof.
  destruct (C8_violation_raises Night.calculateDistance
              Night.findStopsWithinRadius Night.pfGhost "WEEK"
              Night.nearQuay) as [H _].
  eapply (H 0%nat (Night.seeded 120) _ 120 _ "P0" [] Night.m0 [] _ Night.N2
            [Night.m0] Night.m1 []); try (vm_compute; reflexivity).
  - apply (bool_decide_unpack _). vm_compute. reflexivity.
  - vm_compute. discriminate.
Defined.

(** C4 at the failing input. A query leaves the Square, where stop P0 is,
    at 00:00:00: P0 is seeded with the label 0 and P1 with 100. When P1 is
    expanded, the transfer back to P0 proposes the arrival 200: the test
    accepts it against the label 0, the label becomes 200 and the back-link
    of P0 now comes from P1; nor would an entry for P0 at 200 be skipped at
    dequeue while the label is 0. The search ends at P2 with the label 200
    for P0. *)
Lemma C4_zero_label_overwritten :
  let s0 := Night.seeded 0 in
  exists back s1,
    transferMap Night.pf !! "P1" = Some [back]
    /\ tr_toStopId back = "P0" /\ walkTime back = 100
    /\ minArrivalTime s0 !! "P0" = Some 0
    /\ minArrivalTime s0 !! "P1" = Some 100
    /\ improves (100 + walkTime back) (minArrivalTime s0) "P0" = true
    /\ superseded 200 (minArrivalTime s0) "P0" = false
    /\ LocalPathfinder.relaxWalk Night.dm "P1" 100 s0 back = Return s1
    /\ minArrivalTime s1 !! "P0" = Some 200
    /\ (prevStopId <$> backLink s0 !! "P0") = Some "START"
    /\ (prevStopId <$> backLink s1 !! "P0") = Some "P1"
    /\ exists s,
         LocalPathfinder.dijkstra 100 Night.pf "WEEK" Night.nearQuay s0
         = Return (Some "P2", s)
         /\ minArrivalTime s !! "P0" = Some 200.
Proof.
  cbv zeta. do 2 eexists.
  split; [vm_compute; reflexivity|].
  split; [reflexivity|]. split; [reflexivity|].
  split; [vm_compute; reflexivity|]. split; [vm_compute; reflexivity|].
  split; [vm_compute; reflexivity|]. split; [vm_compute; reflexivity|].
  split; [vm_compute; reflexivity|].
  split; [vm_compute; reflexivity|]. split; [vm_compute; reflexivity|].
  split; [vm_compute; reflexivity|].
  eexists. split; vm_compute; reflexivity.
Qed.

(** C5 at the failing input. The same query reaches the Quay: the outcome
    is OK, with four legs. The second leg is the walk from P1 that reaches
    P0 at 200; the third is the bus that left P0 at 60. *)
Lemma C5_midnight_chain_broken :
  exists l1 l2 l3 l4 total,
    LocalPathfinder.findItinerary Night.calculateDistance
      Night.findStopsWithinRadius 100 Night.pf Night.atSquare Night.atQuay
      Night.midnight
    = Return (mkOutcome OK [l1; l2; l3; l4] total)
    /\ (leg_type l1 = WALK /\ fromCoords l1 = Some Night.atSquare
        /\ startTime l1 = 0 /\ toStopId l1 = Some "P1" /\ endTime l1 = 100)
    /\ (leg_type l2 = WALK /\ fromStopId l2 = Some "P1"
        /\ toStopId l2 = Some "P0" /\ startTime l2 = 100 /\ endTime l2 = 200)
    /\ (leg_type l3 = BUS /\ fromStopId l3 = Some "P0"
        /\ toStopId l3 = Some "P2" /\ startTime l3 = 60 /\ endTime l3 = 600)
    /\ (leg_type l4 = WALK /\ toCoords l4 = Some Night.atQuay)
    /\ endTime l2 > startTime l3.
Proof.
  do 5 eexists. split; [vm_compute; reflexivity|].
  simpl. repeat split.
Qed.

(* ===================================================================== *)
(** ** Position interpolator: properties                                  *)
(* ===================================================================== *)

Section PositionInterpolator.

Variable parseFloat : string -> option Q.
Variable calculateDistance : jsval -> jsval -> jsval -> jsval -> Q.
Variable findNearestPointOnRoute : list (Q * Q) -> Q -> Q -> option nat.

Local Abbreviation calculatePosition :=
  (BusPositionCalculator.calculatePosition parseFloat calculateDistance
     findNearestPointOnRoute).

(** A geometry that is not a bare array of vertices has no [length]: the
    attempt on the geometry gives nothing, and the linear fallback is
    taken. *)
Lemma geometry_not_used (dm : DataManager) (routeId : option string)
    (fromLat fromLon toLat toLon progress : Q) :
  (forall features feature vertices,
     geoJson dm = Some features -> feature ∈ features ->
     f_geometry feature <> GeomArray vertices) ->
  BusPositionCalculator.alongGeometry calculateDistance
    findNearestPointOnRoute dm routeId fromLat fromLon toLat toLon progress
  = None.
Proof.
  intros Hobj. unfold BusPositionCalculator.alongGeometry.
  destruct (BusPositionCalculator.truthy routeId) as [r|]; [|done].
  destruct (getRouteGeometry dm r) as [[ty cs|vs]|] eqn:Hgeo; try done.
  exfalso. unfold getRouteGeometry in Hgeo.
  destruct (geoJson dm) as [features|] eqn:Hjson; [|discriminate].
  destruct (List.find _ features) as [feature|] eqn:Hfind; [|discriminate].
  injection Hgeo as Hgeo. apply List.find_some in Hfind as [Hin _].
  apply list_elem_of_In in Hin.
  exact (Hobj features feature vs eq_refl Hin Hgeo).
Qed.

Lemma metresApart_same (lat lon lat' lon' : Q) :
  (lat == lat')%Q -> (lon == lon')%Q ->
  (metresApart lat lon lat' lon' <= 1)%Q.
Proof.
  intros Hlat Hlon. unfold metresApart.
  assert (Qabs (lat - lat') == 0)%Q as ->.
  { assert (lat - lat' == 0)%Q as -> by lra. reflexivity. }
  assert (Qabs (lon - lon') == 0)%Q as ->.
  { assert (lon - lon' == 0)%Q as -> by lra. reflexivity. }
  lra.
Qed.


End PositionInterpolator.


(** The transfer from P0 to P1, 139 m apart, takes 100 s; between two
    stops 21 m apart it takes 16 s, the quotient of 21 by the number that
    [1.4] denotes being rounded to a number above 15. *)
Lemma C6_witness :
  (exists transfers,
     LocalPathfinder.prebuildTransferMap Night.calculateDistance Night.dm
       !! "P0" = Some transfers
     /\ In (mkTransfer "P1" 100
              (Night.calculateDistance (JStr "46.00000") (JStr "4.00000")
                 (JStr "45.99875") (JStr "4.00000"))) transfers)
  /\ (exists transfers,
        LocalPathfinder.prebuildTransferMap Grid.calculateDistance Grid.dm
          !! "G0" = Some transfers
        /\ In (mkTransfer "G1" 16
                 (Grid.calculateDistance (JStr "46.00000") (JStr "4.00000")
                    (JStr "46.00021") (JStr "4.00000"))) transfers).
Proof.
  split.
  - assert (NoDup (map stop_id (masterStops Night.dm))) as Hnd.
    { apply (bool_decide_unpack _). vm_compute. reflexivity. }
    destruct (C6_transfer_index Night.calculateDistance Night.dm Hnd)
      as [H _].
    apply (H 0%nat 1%nat Night.P0 Night.P1); try reflexivity.
    + discriminate.
    + vm_compute. discriminate.
  - assert (NoDup (map stop_id (masterStops Grid.dm))) as Hnd.
    { apply (bool_decide_unpack _). vm_compute. reflexivity. }
    destruct (C6_transfer_index Grid.calculateDistance Grid.dm Hnd)
      as [H _].
    destruct (H 0%nat 1%nat Grid.G0 Grid.G1) as (transfers & Hlook & Hin);
      try reflexivity.
    + discriminate.
    + vm_compute. discriminate.
    + exists transfers. split; [exact Hlook|].
      replace 16 with
        (Qceiling
           (binary64
              (Grid.calculateDistance (JStr (stop_lat Grid.G0))
                 (JStr (stop_lon Grid.G0)) (JStr (stop_lat Grid.G1))
                 (JStr (stop_lon Grid.G1)) / binary64 (14 # 10))))
        by (vm_compute; reflexivity).
      exact Hin.
Defined.

(* ===================================================================== *)
(** ** Stable insertion and the priority queue: properties                *)
(* ===================================================================== *)

Section Insertion.

Context {A : Type} (key : A -> Z).

(** Where the insertion puts the element: after everything up to the first
    element of strictly greater key. *)
Lemma insertByKey_split (x : A) (l : list A) :
  exists before after,
    l = before ++ after
    /\ insertByKey key x l = before ++ x :: after
    /\ Forall (fun y => key y <= key x) before
    /\ (sortedBy key l -> Forall (fun y => key x < key y) after).
Proof.
  induction l as [|y l (before & after & -> & Hins & Hb & Ha)]; simpl.
  - exists [], []. repeat split; by constructor.
  - destruct (key x <? key y) eqn:Hlt.
    + apply Z.ltb_lt in Hlt. exists [], (y :: before ++ after).
      repeat split; [by constructor|].
      intros Hs. apply StronglySorted_inv in Hs as [_ Hall].
      constructor; [done|].
      eapply Forall_impl; [exact Hall|]. simpl. intros z Hz. lia.
    + apply Z.ltb_ge in Hlt. exists (y :: before), after.
      repeat split.
      * by rewrite Hins.
      * by constructor.
      * intros Hs. apply Ha. by apply StronglySorted_inv in Hs as [? _].
Qed.

Lemma insertByKey_Permutation (x : A) (l : list A) :
  insertByKey key x l ≡ₚ x :: l.
Proof.
  destruct (insertByKey_split x l) as (before & after & -> & -> & _).
  by rewrite Permutation_middle.
Qed.

Lemma insertByKey_sorted (x : A) (l : list A) :
  sortedBy key l -> sortedBy key (insertByKey key x l).
Proof.
  intros Hs.
  destruct (insertByKey_split x l) as (before & after & -> & -> & Hb & Ha).
  specialize (Ha Hs). unfold sortedBy in *.
  apply StronglySorted_app in Hs as (_ & Hsb & Hsa).
  rewrite Forall_forall in Hb, Ha.
  apply StronglySorted_app. split; [|split; [done|]].
  - intros y z Hy Hz. apply elem_of_cons in Hz as [->|Hz].
    + by apply Hb.
    + specialize (Hb y Hy). specialize (Ha z Hz). lia.
  - apply StronglySorted_cons. split; [|done].
    apply Forall_forall. intros z Hz. specialize (Ha z Hz). lia.
Qed.

(** Among the elements of one key, an insertion appends. *)
Lemma insertByKey_filter (k : Z) (x : A) (l : list A) :
  sortedBy key l ->
  filter (fun y => key y = k) (insertByKey key x l)
  = filter (fun y => key y = k) l
    ++ (if decide (key x = k) then [x] else []).
Proof.
  intros Hs.
  destruct (insertByKey_split x l) as (before & after & -> & -> & Hb & Ha).
  specialize (Ha Hs). rewrite !filter_app, filter_cons.
  destruct (decide (key x = k)) as [Hk|Hk].
  - assert (filter (fun y => key y = k) after = []) as ->.
    { clear -Ha Hk. induction after as [|z after IH]; [done|].
      apply Forall_cons in Ha as [Hz Ha].
      rewrite filter_cons_False by lia. by apply IH. }
    by rewrite app_nil_r.
  - by rewrite app_nil_r.
Qed.

Lemma sortByKey_snoc (l : list A) (x : A) :
  sortByKey key (l ++ [x]) = insertByKey key x (sortByKey key l).
Proof. unfold sortByKey. by rewrite foldl_app. Qed.

Lemma sortByKey_sorted (l : list A) : sortedBy key (sortByKey key l).
Proof.
  induction l as [|x l IH] using rev_ind; [constructor|].
  rewrite sortByKey_snoc. by apply insertByKey_sorted.
Qed.

Lemma sortByKey_Permutation (l : list A) : sortByKey key l ≡ₚ l.
Proof.
  induction l as [|x l IH] using rev_ind; [done|].
  rewrite sortByKey_snoc, insertByKey_Permutation, IH.
  by rewrite <- Permutation_cons_append.
Qed.

Lemma sortByKey_stable (k : Z) (l : list A) :
  filter (fun y => key y = k) (sortByKey key l)
  = filter (fun y => key y = k) l.
Proof.
  induction l as [|x l IH] using rev_ind; [done|].
  rewrite sortByKey_snoc, insertByKey_filter by apply sortByKey_sorted.
  rewrite IH, filter_app, filter_cons, filter_nil.
  by destruct (decide _).
Qed.

End Insertion.

Lemma sortedBy_map {A B} (key : B -> Z) (f : A -> B) (l : list A) :
  sortedBy key (map f l) -> sortedBy (fun a => key (f a)) l.
Proof.
  unfold sortedBy. induction l as [|a l IH]; simpl; [constructor|].
  intros [Hall Hs]%StronglySorted_cons. constructor; [by apply IH|].
  clear -Hall. induction l as [|b l IH]; [constructor|].
  simpl in Hall. apply Forall_cons in Hall as [? ?].
  constructor; [done|by apply IH].
Qed.

Lemma elem_of_take_list {A} (x : A) (n : nat) (l : list A) :
  x ∈ take n l -> x ∈ l.
Proof.
  intros H. rewrite <- (take_drop n l). apply elem_of_app. by left.
Qed.

Lemma PriorityQueue_enqueue_insertByKey (e : Leg * Z) (q : list (Leg * Z)) :
  PriorityQueue.enqueue e q = insertByKey snd e q.
Proof.
  destruct q as [|x q]; [done|]. unfold PriorityQueue.enqueue.
  generalize (x :: q). intros l. induction l as [|y l IH]; simpl; [done|].
  by rewrite IH.
Qed.

Lemma enqueueAll_sortByKey (elements : list (Leg * Z)) :
  enqueueAll elements = sortByKey snd elements.
Proof.
  unfold enqueueAll, sortByKey. generalize (@nil (Leg * Z)).
  induction elements as [|e l IH]; intros q; simpl; [done|].
  by rewrite PriorityQueue_enqueue_insertByKey, IH.
Qed.

(** X1. [enqueue] on a queue in priority order puts the element after
    every entry of priority not greater than its own and before every
    entry of greater priority; the queue stays in priority order. *)
Theorem X1_enqueue_position (e : Leg * Z) (q : list (Leg * Z)) :
  sortedBy snd q ->
  exists before after,
    q = before ++ after
    /\ PriorityQueue.enqueue e q = before ++ e :: after
    /\ Forall (fun x => x.2 <= e.2) before
    /\ Forall (fun x => e.2 < x.2) after
    /\ sortedBy snd (PriorityQueue.enqueue e q).
Proof.
  intros Hs. rewrite PriorityQueue_enqueue_insertByKey.
  destruct (insertByKey_split snd e q) as (before & after & Hq & Hi & Hb & Ha).
  exists before, after. repeat split; try done.
  - by apply Ha.
  - by apply insertByKey_sorted.
Qed.

(** X2. Whatever is enqueued into an empty queue, in whatever order,
    [dequeue] hands back an entry of least priority, the earliest enqueued
    of that priority, and leaves the others. *)
Theorem X2_dequeue_least (elements : list (Leg * Z)) :
  match PriorityQueue.dequeue (enqueueAll elements) with
  | None => elements = []
  | Some (x, rest) =>
      x :: rest ≡ₚ elements
      /\ Forall (fun y => x.2 <= y.2) elements
      /\ head (filter (fun y => y.2 = x.2) elements) = Some x
  end.
Proof.
  rewrite enqueueAll_sortByKey.
  pose proof (sortByKey_sorted snd elements) as Hs.
  pose proof (sortByKey_Permutation snd elements) as Hp.
  pose proof (sortByKey_stable (A := Leg * Z) snd) as Hst.
  destruct (sortByKey snd elements) as [|x rest] eqn:E; simpl.
  - by apply Permutation_nil_l in Hp.
  - split; [done|]. split.
    + rewrite <- Hp. apply StronglySorted_inv in Hs as [_ Hall].
      constructor; [lia|]. done.
    + rewrite <- (Hst x.2 elements), E, filter_cons.
      by rewrite decide_True.
Qed.

(* ===================================================================== *)
(** ** The indexes of [loadAllData]: properties                           *)
(* ===================================================================== *)

Section Indexes.

Context {A : Type}.

Lemma dictSet_own (key : A -> string) (rows : list A) (k : string) :
  own (indexBy key rows) !! k
  = if String.eqb k "__proto__" then None
    else last (filter (fun r => key r = k) rows).
Proof.
  unfold indexBy.
  induction rows as [|r rows IH] using rev_ind.
  { simpl. by destruct (String.eqb k "__proto__"). }
  rewrite foldl_app, filter_app, filter_cons, filter_nil. simpl.
  unfold dictSet at 1.
  destruct (String.eqb (key r) "__proto__") eqn:Hr; simpl.
  - apply String.eqb_eq in Hr. rewrite IH.
    destruct (String.eqb k "__proto__") eqn:Hk; [done|].
    apply String.eqb_neq in Hk.
    destruct (decide (key r = k)) as [Heq|_]; [congruence|].
    by rewrite app_nil_r.
  - apply String.eqb_neq in Hr.
    destruct (decide (key r = k)) as [<-|Hne].
    + rewrite lookup_insert_eq, last_snoc.
      by apply String.eqb_neq in Hr as ->.
    + by rewrite lookup_insert_ne, app_nil_r.
Qed.

Lemma dictSet_proto (key : A -> string) (rows : list A) :
  proto (indexBy key rows)
  = last (filter (fun r => key r = "__proto__") rows).
Proof.
  unfold indexBy.
  induction rows as [|r rows IH] using rev_ind; [done|].
  rewrite foldl_app, filter_app, filter_cons, filter_nil. simpl.
  unfold dictSet at 1.
  destruct (String.eqb (key r) "__proto__") eqn:Hr; simpl.
  - apply String.eqb_eq in Hr.
    rewrite decide_True by done. by rewrite last_snoc.
  - apply String.eqb_neq in Hr.
    rewrite decide_False by done. by rewrite app_nil_r.
Qed.


(** One row filed under a key that is not a prototype name. *)
Lemma pushUnder_plain (key : string) (x : A) (m : gmap string (list A)) :
  inherited key = false ->
  pushUnder key x m = Return (pushInto key x m).
Proof.
  intros Hkey. unfold pushUnder, pushInto, readPlain. rewrite Hkey.
  destruct (m !! key) as [l|] eqn:Hl.
  - by rewrite Hl.
  - rewrite lookup_insert_eq. simpl.
    by rewrite insert_insert_eq.
Qed.

(** One row under a prototype name, in an object that has no such own
    property. *)
Lemma pushUnder_inherited (key : string) (x : A)
    (m : gmap string (list A)) :
  inherited key = true -> m !! key = None ->
  pushUnder key x m = Throw TypeError.
Proof.
  intros Hkey Hm. unfold pushUnder, readPlain. rewrite Hm, Hkey. simpl.
  by rewrite Hm.
Qed.

Lemma pushInto_fold_lookup (key : A -> string) (rows : list A) (k : string) :
  forall m : gmap string (list A),
  foldl (fun acc row => pushInto (key row) row acc) m rows !! k
  = match filter (fun r => key r = k) rows with
    | [] => m !! k
    | l => Some (default [] (m !! k) ++ l)
    end.
Proof.
  induction rows as [|r rows IH]; intros m; [done|].
  simpl. rewrite IH, filter_cons. unfold pushInto.
  destruct (decide (key r = k)) as [<-|Hne].
  - rewrite lookup_insert_eq. simpl.
    destruct (filter _ rows); [done|]. by rewrite <- app_assoc.
  - by rewrite lookup_insert_ne.
Qed.

(** A grouping ends with a TypeError exactly when a row has a prototype
    name for key; else it appends to each entry the rows of its key, in
    their order, and creates no entry for a key without row. *)
Lemma groupBy_spec (key : A -> string) (rows : list A) :
  forall m : gmap string (list A),
  (forall k, inherited k = true -> m !! k = None) ->
  match groupBy key rows m with
  | Return m' =>
      Forall (fun r => inherited (key r) = false) rows
      /\ (forall k, inherited k = true -> m' !! k = None)
      /\ forall k,
           m' !! k = match filter (fun r => key r = k) rows with
                     | [] => m !! k
                     | l => Some (default [] (m !! k) ++ l)
                     end
  | Throw e =>
      e = TypeError /\ Exists (fun r => inherited (key r) = true) rows
  | OutOfFuel => False
  end.
Proof.
  unfold groupBy. induction rows as [|r rows IH]; intros m Hm; simpl.
  { split; [constructor|]. split; [done|]. by intros k. }
  destruct (inherited (key r)) eqn:Hkey.
  - rewrite pushUnder_inherited by auto. simpl.
    split; [done|]. by apply Exists_cons_hd.
  - rewrite pushUnder_plain by done. simpl.
    assert (forall k, inherited k = true
                      -> pushInto (key r) r m !! k = None) as Hm'.
    { intros k Hk. unfold pushInto. rewrite lookup_insert_ne; [by apply Hm|].
      intros <-. congruence. }
    specialize (IH _ Hm').
    destruct (forEachM _ rows (pushInto (key r) r m)) as [m'|e|];
      [|destruct IH as [-> IH]; split; [done|by apply Exists_cons_tl]|done].
    destruct IH as (Hall & Hinh & Hlook).
    split; [by constructor|]. split; [done|].
    intros k. rewrite Hlook, filter_cons. unfold pushInto.
    destruct (decide (key r = k)) as [<-|Hne].
    + rewrite lookup_insert_eq. simpl.
      destruct (filter _ rows); [done|]. by rewrite <- app_assoc.
    + by rewrite lookup_insert_ne.
Qed.

End Indexes.

Section Preprocess.

Variable stopTimes : list StopTime.

(** X4. [preprocessStopTimesByStop] ends with a TypeError exactly when a
    row has for stop identifier a name that objects inherit (the
    inherited member is read, and has no [push]). Else a read of the
    index under a stop identifier answers the rows of that stop, in the
    order of the file; for a stop without row it answers an inherited
    member under such a name, and nothing under another. *)
Theorem X4_stopTimesByStop :
  match preprocessStopTimesByStop stopTimes with
  | Return index =>
      Forall (fun st => inherited (st_stop_id st) = false) stopTimes
      /\ forall id,
           readPlain index id
           = match filter (fun st => st_stop_id st = id) stopTimes with
             | [] => if inherited id then Foreign else Undefined
             | events => Stored events
             end
  | Throw e =>
      e = TypeError
      /\ Exists (fun st => inherited (st_stop_id st) = true) stopTimes
  | OutOfFuel => False
  end.
Proof.
  unfold preprocessStopTimesByStop.
  pose proof (groupBy_spec st_stop_id stopTimes ∅ (fun k _ => lookup_empty k))
    as H.
  destruct (groupBy st_stop_id stopTimes ∅) as [index|e|]; [|done..].
  destruct H as (Hall & _ & Hlook). split; [done|].
  intros id. unfold readPlain. rewrite Hlook, lookup_empty.
  by destruct (filter _ stopTimes).
Qed.


End Preprocess.

(* ===================================================================== *)
(** ** Stop grouping: properties                                          *)
(* ===================================================================== *)

Section StopGrouping.

Variable trim : string -> string.

Local Abbreviation hasParent := (Grouping.hasParent trim).
Local Abbreviation groupStop := (Grouping.groupStop trim).
Local Abbreviation idOf := (fun s : StopRow => stop_id (row s)).

(** With distinct identifiers, a row without parent is not in the set of
    children. *)
Lemma plain_not_child (stops : list StopRow) (x : StopRow) :
  NoDup (map idOf stops) -> x ∈ stops -> hasParent x = false ->
  idOf x ∉ Grouping.childStops trim stops.
Proof.
  intros Hnd Hx Hp Hin. unfold Grouping.childStops in Hin.
  apply elem_of_list_to_set, list_elem_of_fmap in Hin as (c & Hid & Hc).
  apply list_elem_of_filter in Hc as [Hpc Hc].
  apply list_elem_of_lookup in Hx as [i Hi], Hc as [j Hj].
  assert (i = j) as ->.
  { eapply NoDup_lookup; [exact Hnd| |]; rewrite list_lookup_fmap.
    - by rewrite Hi.
    - rewrite Hj. simpl. by rewrite Hid. }
  simplify_eq. apply Is_true_true in Hpc. congruence.
Qed.

(** The masters after a prefix of the rows. *)
Lemma fold_masters (stops : list StopRow) :
  NoDup (map idOf stops) ->
  forall done rest, stops = done ++ rest ->
  (foldl (groupStop (Grouping.childStops trim stops)) ([], ∅) done).1
  = filter (fun s => isMaster trim s = true) done.
Proof.
  intros Hnd done. induction done as [|x done IH] using rev_ind;
    intros rest Hsplit; [done|].
  rewrite foldl_app, filter_app. simpl.
  specialize (IH (x :: rest)). rewrite <- app_assoc in Hsplit.
  specialize (IH Hsplit).
  destruct (foldl _ _ done) as [masters grouped]. simpl in IH. subst masters.
  unfold Grouping.groupStop.
  destruct (String.eqb (location_type x) "1") eqn:Hst.
  { rewrite filter_cons_True; [done|]. unfold isMaster. by rewrite Hst. }
  destruct (hasParent x) eqn:Hp.
  { rewrite filter_cons_False; [by rewrite filter_nil, app_nil_r|].
    unfold isMaster. by rewrite Hst, Hp. }
  rewrite bool_decide_eq_false_2.
  - simpl. rewrite filter_cons_True; [done|].
    unfold isMaster. by rewrite Hst, Hp.
  - apply plain_not_child; [done| |done].
    rewrite Hsplit. apply elem_of_app. right. by left.
Qed.

(** The groups after a prefix of the rows. *)
Lemma fold_grouped (stops : list StopRow) :
  NoDup (map idOf stops) ->
  parentsAreNotPlain trim stops ->
  forall done rest k, stops = done ++ rest ->
  (foldl (groupStop (Grouping.childStops trim stops)) ([], ∅) done).2 !! k
  = match filter (fun s => groupKey trim s = k) done with
    | [] => None
    | l => Some (map idOf l)
    end.
Proof.
  intros Hnd Hplain done. induction done as [|x done IH] using rev_ind;
    intros rest k Hsplit; [done|].
  rewrite foldl_app, filter_app. simpl.
  assert (stops = done ++ x :: rest) as Hsplit'
    by (by rewrite <- app_assoc in Hsplit).
  pose proof (fun k => IH (x :: rest) k Hsplit') as IH'. clear IH.
  assert (x ∈ stops) as Hx.
  { rewrite Hsplit'. apply elem_of_app. right. by left. }
  destruct (foldl _ _ done) as [masters grouped]. simpl in IH'.
  assert (forall key,
            groupKey trim x = key ->
            pushInto key (idOf x) grouped !! k
            = match filter (fun s => groupKey trim s = k) done
                    ++ filter (fun s => groupKey trim s = k) [x] with
              | [] => None
              | l => Some (map idOf l)
              end) as Hpush.
  { intros key Hkey. unfold pushInto.
    rewrite filter_cons, filter_nil, Hkey.
    destruct (decide (key = k)) as [->|Hne].
    - rewrite lookup_insert_eq, IH'.
      destruct (filter _ done) as [|y l]; simpl; [done|].
      by rewrite map_app.
    - rewrite lookup_insert_ne by done. by rewrite IH', app_nil_r. }
  unfold Grouping.groupStop.
  destruct (String.eqb (location_type x) "1") eqn:Hst; simpl.
  { apply Hpush. unfold groupKey. by rewrite Hst. }
  destruct (hasParent x) eqn:Hp; simpl.
  { apply Hpush. unfold groupKey. by rewrite Hst, Hp. }
  rewrite bool_decide_eq_false_2 by (by apply plain_not_child).
  simpl. rewrite filter_cons, filter_nil.
  assert (groupKey trim x = idOf x) as Hkey
    by (unfold groupKey; by rewrite Hst, Hp).
  rewrite Hkey.
  destruct (decide (idOf x = k)) as [<-|Hne].
  - rewrite lookup_insert_eq.
    assert (filter (fun s => groupKey trim s = idOf x) done = []) as ->; [|done].
    apply elem_of_nil_inv. intros y Hy.
    apply list_elem_of_filter in Hy as [Hky Hy].
    assert (y ∈ stops) as Hys
      by (rewrite Hsplit'; apply elem_of_app; by left).
    assert (idOf y <> idOf x) as Hdiff.
    { apply list_elem_of_lookup in Hy as [i Hi].
      intros Heq.
      assert (i = length done) as ->.
      { eapply NoDup_lookup; [exact Hnd| |]; rewrite list_lookup_fmap.
        - rewrite Hsplit', lookup_app_l by (by eapply lookup_lt_Some).
          by rewrite Hi.
        - rewrite Hsplit', list_lookup_middle by done. simpl.
          by rewrite Heq. }
      apply lookup_lt_Some in Hi. lia. }
    unfold groupKey in Hky.
    destruct (String.eqb (location_type y) "1") eqn:Hsty; [done|].
    destruct (hasParent y) eqn:Hpy; [|done].
    apply String.eqb_neq in Hst, Hsty.
    apply (Hplain y x Hys Hx Hsty Hpy Hst Hp).
    unfold Grouping.hasParent in Hpy.
    destruct (parent_station y); [|done]. simpl in Hky. by rewrite Hky.
  - rewrite lookup_insert_ne by done. by rewrite IH', app_nil_r.
Qed.

Lemma masters_filter (stops : list StopRow) :
  NoDup (map idOf stops) ->
  (Grouping.groupNearbyStops trim stops).1
  = filter (fun s => isMaster trim s = true) stops.
Proof.
  intros Hnd. unfold Grouping.groupNearbyStops.
  apply (fold_masters stops Hnd stops []). by rewrite app_nil_r.
Qed.



End StopGrouping.

(* ===================================================================== *)
(** ** Upcoming departures: properties                                    *)
(* ===================================================================== *)

Section Departures.

Variable dm : DataManager.

Lemma mapM_Return {A B} (f : A -> result B) (l : list A) (bs : list B) :
  mapM f l = Return bs -> Forall2 (fun a b => f a = Return b) l bs.
Proof.
  revert bs. induction l as [|a l IH]; intros bs; simpl.
  - intros [= <-]. constructor.
  - destruct (f a) as [b| |] eqn:Hfa; simpl; try discriminate.
    destruct (mapM f l) as [bs'| |]; simpl; try discriminate.
    intros [= <-]. constructor; [done|]. by apply IH.
Qed.

Lemma mapM_Throw {A B} (f : A -> result B) (l : list A) (e : JsError) :
  mapM f l = Throw e -> exists a, a ∈ l /\ f a = Throw e.
Proof.
  induction l as [|a l IH]; simpl; [discriminate|].
  destruct (f a) as [b| |] eqn:Hfa; simpl; try discriminate.
  - destruct (mapM f l) as [bs'|e'|]; simpl; try discriminate.
    intros Heq. destruct IH as (a' & Hin & Ha'); [congruence|].
    exists a'. split; [by right|done].
  - intros Heq. exists a. split; [by left|congruence].
Qed.

Lemma mapM_all_Return {A B} (f : A -> result B) (l : list A) :
  Forall (fun a => exists b, f a = Return b) l ->
  exists bs, mapM f l = Return bs.
Proof.
  induction l as [|a l IH]; intros H; simpl; [by eexists|].
  apply Forall_cons in H as [[b Hb] H]. destruct (IH H) as [bs Hbs].
  rewrite Hb, Hbs. by eexists.
Qed.

Lemma mapM_terminates {A B} (f : A -> result B) (l : list A) :
  (forall a, f a <> OutOfFuel) -> mapM f l <> OutOfFuel.
Proof.
  intros Hf. induction l as [|a l IH]; simpl; [discriminate|].
  specialize (Hf a). destruct (f a); simpl; try done.
  by destruct (mapM f l).
Qed.

Lemma enrich_Return (dep : Departure) (u : UpcomingDeparture) :
  enrich dm dep = Return u ->
  up_departure u = dep
  /\ exists trip route,
       tripsByTripId dm !! dep_tripId dep = Some trip
       /\ routesById dm !! t_route_id trip = Some route
       /\ routeShortName u = route_short_name route
       /\ routeColor u = route_color route
       /\ routeTextColor u = route_text_color route
       /\ destination u
          = getTripDestination dm (stopTimesByTrip dm !! dep_tripId dep).
Proof.
  unfold enrich.
  destruct (tripsByTripId dm !! dep_tripId dep) as [trip|] eqn:Ht;
    [|discriminate].
  simpl. destruct (routesById dm !! t_route_id trip) as [route|] eqn:Hr;
    [|discriminate].
  simpl. intros [= <-]. split; [done|]. by exists trip, route.
Qed.

(** A candidate is an event of one of the stops, of a trip in service,
    not before the instant. *)
Lemma candidate_inv (serviceId : string) (t : Z) (stopIds : list string)
    (c : Departure) :
  c ∈ candidateDepartures dm serviceId t stopIds ->
  dep_stopId c ∈ stopIds
  /\ t <= departureSeconds c
  /\ exists st trip events,
       stopTimesByStop dm !! dep_stopId c = Some events /\ st ∈ events
       /\ dep_tripId c = st_trip_id st
       /\ departureSeconds c = departureOf st
       /\ tripsByTripId dm !! st_trip_id st = Some trip
       /\ service_id trip = serviceId.
Proof.
  unfold candidateDepartures. intros Hc.
  apply list_elem_of_bind in Hc as (stopId & Hc & Hid).
  apply list_elem_of_omap in Hc as (st & Hst & Hd).
  unfold departureOfEvent in Hd.
  destruct (tripsByTripId dm !! st_trip_id st) as [trip|] eqn:Ht;
    [|discriminate].
  destruct (String.eqb (service_id trip) serviceId) eqn:Hs; [|discriminate].
  destruct (_ >=? _) eqn:Hge; [|discriminate].
  injection Hd as <-. simpl.
  rewrite Z.geb_leb in Hge. apply Z.leb_le in Hge.
  apply String.eqb_eq in Hs.
  split; [done|]. split; [done|].
  destruct (stopTimesByStop dm !! stopId) as [events|] eqn:He;
    [|by apply elem_of_nil in Hst].
  by exists st, trip, events.
Qed.



End Departures.

(* ===================================================================== *)
(** ** Service bounds: properties                                         *)
(* ===================================================================== *)

Section ServiceBounds.

Variable blank : TimeStr -> bool.
Variable dm : DataManager.


(** A running minimum is the least of what it has seen. *)
Lemma fold_minExt (xs : list Z) : forall init,
  match foldl (fun acc x => minExt x acc) init xs with
  | None => init = None /\ xs = []
  | Some v =>
      (init = Some v \/ v ∈ xs)
      /\ (forall i, init = Some i -> v <= i)
      /\ Forall (fun x => v <= x) xs
  end.
Proof.
  induction xs as [|x xs IH]; intros init; simpl.
  - destruct init; [|done]. repeat split; [by left| |constructor].
    intros i [= <-]. lia.
  - specialize (IH (minExt x init)).
    destruct (foldl _ (minExt x init) xs) as [v|].
    + destruct IH as (Hin & Hle & Hall).
      assert (v <= x /\ (forall i, init = Some i -> v <= i)
              /\ (minExt x init = Some v -> init = Some v \/ v = x))
        as (Hx & Hi & Hm).
      { unfold minExt in *. destruct init as [b|].
        - destruct (x <? b) eqn:E.
          + apply Z.ltb_lt in E. specialize (Hle x eq_refl).
            repeat split; [done| |].
            * intros i [= <-]. lia.
            * intros [= ->]. by right.
          + apply Z.ltb_ge in E. specialize (Hle b eq_refl).
            repeat split; [lia| |].
            * intros i [= <-]. lia.
            * intros [= ->]. by left.
        - specialize (Hle x eq_refl). repeat split; [done|done|].
          intros [= ->]. by right. }
      split; [|split; [done|by constructor]].
      destruct Hin as [Hin|Hin].
      * destruct (Hm Hin) as [?| ->]; [by left|right; by left].
      * right. by right.
    + destruct IH as [Hnone _]. destruct init as [b|]; simpl in Hnone;
        [by destruct (x <? b)|done].
Qed.

Lemma fold_maxExt (xs : list Z) : forall init,
  match foldl (fun acc x => maxExt x acc) init xs with
  | None => init = None /\ xs = []
  | Some v =>
      (init = Some v \/ v ∈ xs)
      /\ (forall i, init = Some i -> i <= v)
      /\ Forall (fun x => x <= v) xs
  end.
Proof.
  induction xs as [|x xs IH]; intros init; simpl.
  - destruct init; [|done]. repeat split; [by left| |constructor].
    intros i [= <-]. lia.
  - specialize (IH (maxExt x init)).
    destruct (foldl _ (maxExt x init) xs) as [v|].
    + destruct IH as (Hin & Hle & Hall).
      assert (x <= v /\ (forall i, init = Some i -> i <= v)
              /\ (maxExt x init = Some v -> init = Some v \/ v = x))
        as (Hx & Hi & Hm).
      { unfold maxExt in *. destruct init as [b|].
        - destruct (x >? b) eqn:E; rewrite Z.gtb_ltb in E.
          + apply Z.ltb_lt in E. specialize (Hle x eq_refl).
            repeat split; [done| |].
            * intros i [= <-]. lia.
            * intros [= ->]. by right.
          + apply Z.ltb_ge in E. specialize (Hle b eq_refl).
            repeat split; [lia| |].
            * intros i [= <-]. lia.
            * intros [= ->]. by left.
        - specialize (Hle x eq_refl). repeat split; [done|done|].
          intros [= ->]. by right. }
      split; [|split; [done|by constructor]].
      destruct Hin as [Hin|Hin].
      * destruct (Hm Hin) as [?| ->]; [by left|right; by left].
      * right. by right.
    + destruct IH as [Hnone _]. destruct init as [b|]; simpl in Hnone;
        [by destruct (x >? b)|done].
Qed.

(** The two folds of [getDailyServiceBounds], one bound at a time. *)
Lemma foldl_widenBounds (ls : list (list StopTime)) : forall acc,
  foldl (widenBounds blank) acc ls
  = (foldl (fun a x => minExt x a) acc.1 (omap (tripStart blank) ls),
     foldl (fun a x => maxExt x a) acc.2 (omap (tripEnd blank) ls)).
Proof.
  induction ls as [|l ls IH]; intros [lo hi]; [done|].
  simpl. rewrite IH. unfold widenBounds, tripStart,
    tripEnd.
  destruct (length l <? 2)%nat eqn:Hlen; [done|].
  destruct l as [|a l]; [done|]. simpl head.
  destruct (last (a :: l)) as [z|] eqn:Hl.
  2:{ rewrite last_cons in Hl. by destruct (last l). }
  simpl.
  destruct (secondsOfField blank (orElse blank (departure_time a) _));
    destruct (secondsOfField blank (orElse blank (arrival_time z) _)); done.
Qed.

Lemma foldl_nextStart (t : Z) (ls : list (list StopTime)) : forall acc,
  foldl (nextStart blank t) acc ls
  = foldl (fun a x => minExt x a) acc
          (filter (fun s => t < s) (omap (tripStart blank) ls)).
Proof.
  induction ls as [|l ls IH]; intros acc; [done|].
  simpl. rewrite IH. unfold nextStart, tripStart.
  destruct (length l <? 2)%nat; [done|].
  destruct l as [|a l]; [done|]. simpl.
  destruct (secondsOfField blank (orElse blank (departure_time a) _))
    as [start|]; [|done].
  rewrite filter_cons. rewrite Z.gtb_ltb.
  destruct (decide (t < start)) as [Hlt|Hge].
  - apply Z.ltb_lt in Hlt. rewrite Hlt. simpl.
    destruct acc as [b|]; simpl; [|done]. by destruct (_ <? b).
  - apply Z.ltb_nlt in Hge. by rewrite Hge.
Qed.

Lemma elem_of_starts (s : Z) :
  s ∈ omap (tripStart blank) (tripTimetables dm) <-> startsAt blank dm s.
Proof.
  unfold startsAt, tripTimetables. rewrite list_elem_of_omap. split.
  - intros (l & Hl & Hs). apply list_elem_of_fmap in Hl as ([id l'] & -> & Hl).
    apply elem_of_map_to_list in Hl. by exists id, l'.
  - intros (id & l & Hl & Hs). exists l. split; [|done].
    apply list_elem_of_fmap. exists (id, l). split; [done|].
    by apply elem_of_map_to_list.
Qed.

Lemma elem_of_ends (s : Z) :
  s ∈ omap (tripEnd blank) (tripTimetables dm) <-> endsAt blank dm s.
Proof.
  unfold endsAt, tripTimetables. rewrite list_elem_of_omap. split.
  - intros (l & Hl & Hs). apply list_elem_of_fmap in Hl as ([id l'] & -> & Hl).
    apply elem_of_map_to_list in Hl. by exists id, l'.
  - intros (id & l & Hl & Hs). exists l. split; [|done].
    apply list_elem_of_fmap. exists (id, l). split; [done|].
    by apply elem_of_map_to_list.
Qed.

(** The bounds of the day, read off the two folds. *)
Lemma serviceBounds_spec :
  let '(earliestStart, latestEnd) := getDailyServiceBounds blank dm in
  ((forall s, ~ startsAt blank dm s) /\ earliestStart = 0
   \/ startsAt blank dm earliestStart /\ forall s, startsAt blank dm s -> earliestStart <= s)
  /\ ((forall s, ~ endsAt blank dm s) /\ latestEnd = 86400
      \/ endsAt blank dm latestEnd /\ forall s, endsAt blank dm s -> s <= latestEnd).
Proof.
  unfold getDailyServiceBounds. rewrite foldl_widenBounds. simpl.
  pose proof (fold_minExt (omap (tripStart blank) (tripTimetables dm)) None) as Hmin.
  pose proof (fold_maxExt (omap (tripEnd blank) (tripTimetables dm)) None) as Hmax.
  split.
  - destruct (foldl _ None (omap (tripStart blank) _)) as [v|]; simpl.
    + destruct Hmin as ([?|Hin] & _ & Hall); [done|]. right. split.
      * by apply elem_of_starts.
      * intros s Hs. apply elem_of_starts in Hs.
        by eapply Forall_forall in Hall.
    + destruct Hmin as [_ Hnil]. left. split; [|done].
      intros s Hs. apply elem_of_starts in Hs. rewrite Hnil in Hs.
      by apply elem_of_nil in Hs.
  - destruct (foldl _ None (omap (tripEnd blank) _)) as [v|]; simpl.
    + destruct Hmax as ([?|Hin] & _ & Hall); [done|]. right. split.
      * by apply elem_of_ends.
      * intros s Hs. apply elem_of_ends in Hs.
        by eapply Forall_forall in Hall.
    + destruct Hmax as [_ Hnil]. left. split; [|done].
      intros s Hs. apply elem_of_ends in Hs. rewrite Hnil in Hs.
      by apply elem_of_nil in Hs.
Qed.

(** X10. [getDailyServiceBounds] answers the least start and the greatest
    end over the trips of at least two events, and 0 and 86400 where no
    trip has one; the start of a trip is the departure of its first event
    or, where that field is empty, its arrival, and its end the arrival of
    its last event or, where that field is empty, its departure. *)
Theorem X10_service_bounds :
  ((forall s, ~ startsAt blank dm s) /\ (getDailyServiceBounds blank dm).1 = 0
   \/ startsAt blank dm (getDailyServiceBounds blank dm).1
      /\ forall s, startsAt blank dm s -> (getDailyServiceBounds blank dm).1 <= s)
  /\ ((forall s, ~ endsAt blank dm s) /\ (getDailyServiceBounds blank dm).2 = 86400
      \/ endsAt blank dm (getDailyServiceBounds blank dm).2
         /\ forall s, endsAt blank dm s -> s <= (getDailyServiceBounds blank dm).2).
Proof.
  pose proof serviceBounds_spec as H.
  by destruct (getDailyServiceBounds blank dm) as [lo hi].
Qed.

(** X11. When no time field of the trips is empty, every instant at which
    [DataManager.getActiveTrips] lists a trip lies within the bounds of
    the day. *)
Theorem X11_active_within_bounds (t : Z) (date : JsDate) (a : ActiveTrip) :
  timesGiven blank dm ->
  In a (getActiveTrips dm t date) ->
  (getDailyServiceBounds blank dm).1 <= t <= (getDailyServiceBounds blank dm).2.
Proof.
  intros Hgiven Hin. unfold getActiveTrips in Hin.
  destruct (falsy _); [destruct Hin|].
  destruct (getServiceId dm date) as [sid|]; [|destruct Hin].
  apply list_elem_of_In, list_elem_of_omap in Hin as (trip & _ & Ht).
  unfold activeTripEntry in Ht.
  destruct (String.eqb _ _); [|discriminate].
  destruct (stopTimesByTrip dm !! trip_id trip) as [sts|] eqn:Hsts;
    [|discriminate].
  destruct (length sts <? 2)%nat eqn:Hlen; [discriminate|].
  destruct (head sts) as [firstStop|] eqn:Hh; [|discriminate].
  destruct (last sts) as [lastStop|] eqn:Hl; [|discriminate].
  destruct (_ && _) eqn:Hw; [|discriminate].
  apply andb_true_iff in Hw as [Hw1 Hw2].
  rewrite Z.geb_leb in Hw1. apply Z.leb_le in Hw1, Hw2.
  pose proof (map_Forall_lookup_1 _ _ _ _ Hgiven Hsts) as Hall.
  simpl in Hall. rewrite Forall_forall in Hall.
  assert (firstStop ∈ sts) as Hfirst.
  { destruct sts; [done|]. simpl in Hh. injection Hh as ->.
    apply elem_of_cons. by left. }
  assert (lastStop ∈ sts) as Hlast.
  { apply last_Some in Hl as [pre ->]. apply elem_of_app. right.
    apply elem_of_cons. by left. }
  destruct (Hall _ Hfirst) as [_ Hdep]. destruct (Hall _ Hlast) as [Harr _].
  assert (startsAt blank dm (departureOf firstStop)) as Hs.
  { exists (trip_id trip), sts. split; [done|].
    unfold tripStart. rewrite Hlen, Hh. simpl.
    unfold secondsOfField, orElse. rewrite Hdep. by rewrite Hdep. }
  assert (endsAt blank dm (arrivalOf lastStop)) as He.
  { exists (trip_id trip), sts. split; [done|].
    unfold tripEnd. rewrite Hlen, Hl. simpl.
    unfold secondsOfField, orElse. rewrite Harr. by rewrite Harr. }
  pose proof serviceBounds_spec as H.
  destruct (getDailyServiceBounds blank dm) as [lo hi]. simpl.
  destruct H as [[[Hno _]|[_ Hlo]] [[Hno' _]|[_ Hhi]]];
    try (by destruct (Hno _ Hs)); try (by destruct (Hno' _ He)).
  specialize (Hlo _ Hs). specialize (Hhi _ He).
  unfold departureOf, arrivalOf in *. lia.
Qed.

(** X12. [findNextActiveSecond] answers the least start later than the
    instant, over the trips of at least two events (the start of a trip
    being the departure of its first event or, where that field is empty,
    its arrival); when no trip starts later, it answers the first active
    second of the day. *)
Theorem X12_next_active_second (t : Z) :
  (startsAt blank dm (findNextActiveSecond blank dm t)
   /\ t < findNextActiveSecond blank dm t
   /\ forall s, startsAt blank dm s -> t < s -> findNextActiveSecond blank dm t <= s)
  \/ ((forall s, startsAt blank dm s -> s <= t)
      /\ findNextActiveSecond blank dm t = findFirstActiveSecond blank dm).
Proof.
  unfold findNextActiveSecond. rewrite foldl_nextStart.
  pose proof (fold_minExt
                (filter (fun s => t < s) (omap (tripStart blank) (tripTimetables dm)))
                None) as Hmin.
  destruct (foldl _ None (filter _ _)) as [v|].
  - left. destruct Hmin as ([?|Hin] & _ & Hall); [done|].
    apply list_elem_of_filter in Hin as [Hlt Hin].
    split; [by apply elem_of_starts|]. split; [done|].
    intros s Hs Hts. apply elem_of_starts in Hs.
    eapply Forall_forall in Hall; [exact Hall|].
    by apply list_elem_of_filter.
  - right. destruct Hmin as [_ Hnil]. split; [|done].
    intros s Hs. apply elem_of_starts in Hs.
    destruct (decide (t < s)) as [Hlt|]; [|lia].
    assert (s ∈ filter (fun s => t < s) (omap (tripStart blank) (tripTimetables dm)))
      as Hin by (by apply list_elem_of_filter).
    rewrite Hnil in Hin. by apply elem_of_nil in Hin.
Qed.

End ServiceBounds.

(* ===================================================================== *)
(** ** Trip resolver: what a state says                                   *)
(* ===================================================================== *)

Section ResolverStates.

Variable parseFloat : string -> option Q.
Variable dm : DataManager.

Local Abbreviation findCurrentState :=
  (TripScheduler.findCurrentState parseFloat dm).
Local Abbreviation scanStops := (TripScheduler.scanStops parseFloat dm).

Local Abbreviation stateAt := (stateAt parseFloat dm).

Lemma scanStops_stateAt (t : Z) (state : State) (rest : list StopTime) :
  forall pre prev,
  scanStops t prev rest = Some state ->
  stateAt (pre ++ prev :: rest) t state.
Proof.
  induction rest as [|cur rest IH]; intros pre prev H; [discriminate|].
  cbn [TripScheduler.scanStops] in H.
  fold (arrivalOf cur) (departureOf cur) (departureOf prev) in H.
  assert ((pre ++ prev :: cur :: rest) !! length pre = Some prev) as Hprev
    by (by rewrite list_lookup_middle).
  assert ((pre ++ prev :: cur :: rest) !! S (length pre) = Some cur) as Hcur.
  { replace (pre ++ prev :: cur :: rest) with ((pre ++ [prev]) ++ cur :: rest)
      by (by rewrite <- app_assoc).
    rewrite list_lookup_middle; [done|]. rewrite length_app. simpl. lia. }
  destruct ((t >? arrivalOf cur) && (t <=? departureOf cur)) eqn:Hd.
  { destruct (getStop dm (st_stop_id cur)) as [info|] eqn:Hi; [|discriminate].
    injection H as <-. apply andb_true_iff in Hd as [H1 H2].
    rewrite Z.gtb_ltb in H1. apply Z.ltb_lt in H1. apply Z.leb_le in H2.
    exists (S (length pre)), cur. by repeat split. }
  destruct ((t >? departureOf prev) && (t <=? arrivalOf cur)) eqn:Hm.
  { destruct (getStop dm (st_stop_id prev)) as [f|] eqn:Hf; [|discriminate].
    destruct (getStop dm (st_stop_id cur)) as [g|] eqn:Hg; [|discriminate].
    injection H as <-. apply andb_true_iff in Hm as [H1 H2].
    rewrite Z.gtb_ltb in H1. apply Z.ltb_lt in H1. apply Z.leb_le in H2.
    exists (length pre), prev, cur. by repeat split. }
  specialize (IH (pre ++ [prev]) cur H).
  by rewrite <- app_assoc in IH.
Qed.

Lemma findCurrentState_stateAt (stopTimes : list StopTime) (t : Z)
    (state : State) :
  findCurrentState stopTimes t = Some state -> stateAt stopTimes t state.
Proof.
  destruct stopTimes as [|s0 rest]; [discriminate|].
  cbn [TripScheduler.findCurrentState].
  fold (arrivalOf s0) (departureOf s0).
  destruct ((t >=? arrivalOf s0) && (t <=? departureOf s0)) eqn:Hd.
  - destruct (getStop dm (st_stop_id s0)) as [info|] eqn:Hi; [|discriminate].
    intros [= <-]. apply andb_true_iff in Hd as [H1 H2].
    rewrite Z.geb_leb in H1. apply Z.leb_le in H1, H2.
    exists 0%nat, s0. by repeat split.
  - intros H. by apply (scanStops_stateAt t state rest []).
Qed.

(** X13. A state [findCurrentState] answers is true of the timetable: a
    moving state lies between two consecutive events, strictly after the
    departure of the first and not after the arrival of the second; a
    waiting state is at an event whose departure has not passed, reached
    strictly before (or, at the first event, not after) the instant. *)
Theorem X13_state_sound (stopTimes : list StopTime) (t : Z) (state : State) :
  findCurrentState stopTimes t = Some state -> stateAt stopTimes t state.
Proof. apply findCurrentState_stateAt. Qed.

(** X14. For a moving state found at an instant, [getNextStopETA] at that
    instant counts the seconds left to the arrival, which are not
    negative, and formats them as whole minutes and seconds below 60. *)
Theorem X14_eta_of_moving (stopTimes : list StopTime) (t : Z)
    (f g : Stop) (d a : Z) (p : Q) :
  findCurrentState stopTimes t = Some (moving f g d a p) ->
  exists m s,
    getNextStopETA (Some (moving f g d a p)) t
    = Some (mkETA (a - t)
              (String.append (String_of_Z m)
                 (String.append "m " (String.append (String_of_Z s) "s"))))
    /\ 0 <= m /\ 0 <= s < 60 /\ a - t = 60 * m + s.
Proof.
  intros H. apply findCurrentState_stateAt in H.
  destruct H as (i & prev & cur & _ & _ & _ & _ & _ & _ & [_ Hle] & _).
  exists ((a - t) / 60), ((a - t) mod 60). simpl.
  assert (0 <= a - t) as Hnn by lia.
  pose proof (Z.mod_pos_bound (a - t) 60 ltac:(lia)).
  pose proof (Z.div_pos (a - t) 60 Hnn ltac:(lia)).
  rewrite Z.rem_mod_nonneg by lia.
  rewrite !Z.max_r by lia.
  repeat split; try lia. apply Z.div_mod. lia.
Qed.

Lemma sublist_omap_proj {A B} (h : A -> option B) (proj : B -> A)
    (l : list A) :
  (forall x y, h x = Some y -> proj y = x) ->
  sublist (map proj (omap h l)) l.
Proof.
  intros Hh. induction l as [|x l IH]; simpl; [constructor|].
  destruct (h x) as [y|] eqn:Hy; simpl.
  - rewrite (Hh x y Hy). by constructor.
  - by constructor.
Qed.

Lemma omap_omap_bind {A B C} (g : A -> option B) (f : B -> option C)
    (l : list A) :
  omap f (omap g l) = omap (fun x => g x ≫= f) l.
Proof.
  induction l as [|x l IH]; [done|]. simpl.
  destruct (g x) as [y|]; simpl; [|done].
  destruct (f y); [f_equal|]; apply IH.
Qed.

(** X15. Every bus of [TripScheduler.getActiveTrips] is a trip of the
    feed, of the day's service, with the instant within its first
    departure and last arrival, carrying the state of its timetable at the
    instant, as a segment when moving and as a position when waiting; and
    the buses follow the order of the trips, one at most per trip row. *)
Theorem X15_active_buses_sound (t : Z) (date : JsDate) :
  let buses := TripScheduler.getActiveTrips parseFloat dm t date in
  sublist (map b_trip buses) (trips dm)
  /\ Forall (fun bus =>
       b_tripId bus = trip_id (b_trip bus)
       /\ getServiceId dm date = Some (service_id (b_trip bus))
       /\ b_route bus = routesById dm !! t_route_id (b_trip bus)
       /\ b_currentSeconds bus = t
       /\ exists stopTimes firstStop lastStop state,
            stopTimesByTrip dm !! b_tripId bus = Some stopTimes
            /\ head stopTimes = Some firstStop
            /\ last stopTimes = Some lastStop
            /\ departureOf firstStop <= t <= arrivalOf lastStop
            /\ findCurrentState stopTimes t = Some state
            /\ match state with
               | moving _ _ _ _ _ =>
                   b_segment bus = Some state /\ b_position bus = None
               | waiting_at_stop position _ _ =>
                   b_segment bus = None /\ b_position bus = Some position
               end) buses.
Proof.
  intros buses. subst buses. unfold TripScheduler.getActiveTrips.
  destruct (negb (isLoaded dm)).
  { split; [apply sublist_nil_l|constructor]. }
  unfold getActiveTrips.
  destruct (falsy (getServiceId dm date)).
  { split; [apply sublist_nil_l|constructor]. }
  destruct (getServiceId dm date) as [sid|].
  2:{ split; [apply sublist_nil_l|constructor]. }
  assert (forall trip a bus,
            activeTripEntry dm sid t trip = Some a ->
            TripScheduler.activeBus parseFloat dm t a = Some bus ->
            b_trip bus = trip
            /\ b_tripId bus = trip_id (b_trip bus)
            /\ Some sid = Some (service_id (b_trip bus))
            /\ b_route bus = routesById dm !! t_route_id (b_trip bus)
            /\ b_currentSeconds bus = t
            /\ exists stopTimes firstStop lastStop state,
                 stopTimesByTrip dm !! b_tripId bus = Some stopTimes
                 /\ head stopTimes = Some firstStop
                 /\ last stopTimes = Some lastStop
                 /\ departureOf firstStop <= t <= arrivalOf lastStop
                 /\ findCurrentState stopTimes t = Some state
                 /\ match state with
                    | moving _ _ _ _ _ =>
                        b_segment bus = Some state /\ b_position bus = None
                    | waiting_at_stop position _ _ =>
                        b_segment bus = None
                        /\ b_position bus = Some position
                    end) as Hone.
  { intros trip a bus Ha Hb. unfold activeTripEntry in Ha.
    destruct (String.eqb _ _) eqn:Hs; [|discriminate].
    apply String.eqb_eq in Hs.
    destruct (stopTimesByTrip dm !! trip_id trip) as [sts|] eqn:Hsts;
      [|discriminate].
    destruct (length sts <? 2)%nat; [discriminate|].
    destruct (head sts) as [firstStop|] eqn:Hh; [|discriminate].
    destruct (last sts) as [lastStop|] eqn:Hl; [|discriminate].
    destruct (_ && _) eqn:Hw; [|discriminate].
    injection Ha as <-.
    apply andb_true_iff in Hw as [Hw1 Hw2].
    rewrite Z.geb_leb in Hw1. apply Z.leb_le in Hw1, Hw2.
    unfold TripScheduler.activeBus in Hb. simpl in Hb.
    destruct (TripScheduler.findCurrentState parseFloat dm sts t)
      as [state|] eqn:Hstate; [|discriminate].
    injection Hb as <-. simpl.
    repeat split; try done; [by rewrite Hs|].
    exists sts, firstStop, lastStop, state.
    repeat split; try done. by destruct state. }
  split.
  - rewrite omap_omap_bind.
    apply sublist_omap_proj. intros trip bus Hh. simpl in Hh.
    destruct (activeTripEntry dm sid t trip) as [a|] eqn:Ha; [|done].
    simpl in Hh. by destruct (Hone trip a bus Ha Hh) as [? _].
  - apply Forall_forall. intros bus Hbus.
    apply list_elem_of_omap in Hbus as (a & Ha & Hb).
    apply list_elem_of_omap in Ha as (trip & _ & Ha).
    by destruct (Hone trip a bus Ha Hb) as [_ ?].
Qed.

End ResolverStates.

(* ===================================================================== *)
(** ** Bus positions: properties                                          *)
(* ===================================================================== *)

Section Positions.

Variable parseFloat : string -> option Q.
Variable calculateDistance : jsval -> jsval -> jsval -> jsval -> Q.
Variable findNearestPointOnRoute : list (Q * Q) -> Q -> Q -> option nat.
Variable calculateBearing : State -> Q.
Variable dm : DataManager.

Local Abbreviation locate := BusPositionCalculator.locate.
Local Abbreviation interpolateAlongRoute :=
  (BusPositionCalculator.interpolateAlongRoute calculateDistance
     findNearestPointOnRoute).
Local Abbreviation alongGeometry :=
  (BusPositionCalculator.alongGeometry calculateDistance
     findNearestPointOnRoute dm).
Local Abbreviation calculatePosition :=
  (BusPositionCalculator.calculatePosition parseFloat calculateDistance
     findNearestPointOnRoute dm).
Local Abbreviation calculateAllPositions :=
  (AllPositions.calculateAllPositions parseFloat calculateDistance
     findNearestPointOnRoute calculateBearing dm).

Lemma fraction_range (target di di1 : Q) :
  (di <= target)%Q -> (target <= di1)%Q ->
  (0 <= (if negb (Qle_bool (di1 - di) 0)
         then (target - di) / (di1 - di) else 0) <= 1)%Q.
Proof.
  intros H1 H2. destruct (Qle_bool (di1 - di) 0) eqn:Hd; simpl; [lra|].
  assert (0 < di1 - di)%Q as Hpos.
  { apply Qnot_le_lt. intros Hle. apply Qle_bool_iff in Hle. congruence. }
  split.
  - apply Qle_shift_div_l; [done|]. lra.
  - apply Qle_shift_div_r; [done|]. lra.
Qed.

Lemma locate_on_piece (target progress : Q) (distances : list Q) :
  forall (path : list (Q * Q)) (position : Position),
  locate target progress distances path = Some position ->
  pos_progress position = progress
  /\ exists i v1 v2,
       path !! i = Some v1 /\ path !! S i = Some v2
       /\ onPiece position v1 v2.
Proof.
  induction distances as [|di distances IH]; intros path position H;
    [discriminate|].
  destruct distances as [|di1 distances]; [discriminate|].
  destruct path as [|p1 [|p2 path]]; try discriminate.
  cbn [BusPositionCalculator.locate] in H.
  destruct (Qle_bool di target && Qle_bool target di1) eqn:Hin.
  - apply andb_true_iff in Hin as [H1 H2].
    apply Qle_bool_iff in H1, H2.
    destruct p1 as [lon1 lat1], p2 as [lon2 lat2].
    injection H as <-. split; [done|].
    exists 0%nat, (lon1, lat1), (lon2, lat2). repeat split.
    eexists. split; [apply (fraction_range target di di1 H1 H2)|].
    simpl. split; reflexivity.
  - destruct (IH (p2 :: path) position H) as [Hp (i & v1 & v2 & ? & ? & ?)].
    split; [done|]. by exists (S i), v1, v2.
Qed.

Lemma interpolate_on_piece (routeCoordinates : list (Q * Q))
    (fromLat fromLon toLat toLon progress : Q) (position : Position) :
  interpolateAlongRoute routeCoordinates fromLat fromLon toLat toLon progress
  = Some position ->
  pos_progress position = progress
  /\ exists fromIndex toIndex v1 v2,
       findNearestPointOnRoute routeCoordinates fromLat fromLon
       = Some fromIndex
       /\ findNearestPointOnRoute routeCoordinates toLat toLon = Some toIndex
       /\ fromIndex <> toIndex
       /\ onPiece position v1 v2
       /\ ((exists i, pathBetween routeCoordinates fromIndex toIndex !! i
                      = Some v1
                      /\ pathBetween routeCoordinates fromIndex toIndex !! S i
                         = Some v2)
           \/ (v1 = v2
               /\ last (pathBetween routeCoordinates fromIndex toIndex)
                  = Some v1)).
Proof.
  unfold BusPositionCalculator.interpolateAlongRoute.
  destruct (findNearestPointOnRoute routeCoordinates fromLat fromLon)
    as [fromIndex|]; [|discriminate].
  destruct (findNearestPointOnRoute routeCoordinates toLat toLon)
    as [toIndex|]; [|discriminate].
  destruct (fromIndex =? toIndex)%nat eqn:Hne; [discriminate|].
  apply Nat.eqb_neq in Hne.
  fold (pathBetween routeCoordinates fromIndex toIndex).
  destruct (pathBetween routeCoordinates fromIndex toIndex)
    as [|p0 [|p1 rest]] eqn:Hpath; try discriminate.
  set (distances := 0%Q :: BusPositionCalculator.cumulative calculateDistance
                             0%Q p0 (p1 :: rest)).
  destruct (Qeq_bool _ _); [discriminate|].
  destruct (locate _ progress distances (p0 :: p1 :: rest))
    as [located|] eqn:Hloc.
  - intros [= <-].
    destruct (locate_on_piece _ _ _ _ _ Hloc)
      as [Hp (i & v1 & v2 & H1 & H2 & Hon)].
    split; [done|]. exists fromIndex, toIndex, v1, v2.
    repeat split; try done. left. exists i. by rewrite Hpath.
  - destruct (last (p0 :: p1 :: rest)) as [[lon lat]|] eqn:Hlast;
      [|discriminate].
    intros [= <-]. split; [done|].
    exists fromIndex, toIndex, (lon, lat), (lon, lat).
    repeat split; try done.
    + exists 0%Q. simpl. repeat split; lra.
    + right. by rewrite Hpath.
Qed.

(** X16. A position [interpolateAlongRoute] returns on a polyline whose
    vertices are latitudes and longitudes carries the progress it was
    given and lies within one metre of a point of a piece of the polyline
    between the two nearest vertices, in the direction of travel (or of
    its last vertex): of a convex combination of two consecutive vertices.
    The range of the vertices bounds the rounding of the number
    arithmetic, far below the metre. *)
Theorem X16_interpolated_on_piece (routeCoordinates : list (Q * Q))
    (fromLat fromLon toLat toLon progress : Q) (position : Position) :
  Forall (fun v : Q * Q => geographic v.2 v.1) routeCoordinates ->
  interpolateAlongRoute routeCoordinates fromLat fromLon toLat toLon progress
  = Some position ->
  pos_progress position = progress
  /\ exists fromIndex toIndex v1 v2,
       findNearestPointOnRoute routeCoordinates fromLat fromLon
       = Some fromIndex
       /\ findNearestPointOnRoute routeCoordinates toLat toLon = Some toIndex
       /\ fromIndex <> toIndex
       /\ nearPiece position v1 v2
       /\ ((exists i, pathBetween routeCoordinates fromIndex toIndex !! i
                      = Some v1
                      /\ pathBetween routeCoordinates fromIndex toIndex !! S i
                         = Some v2)
           \/ (v1 = v2
               /\ last (pathBetween routeCoordinates fromIndex toIndex)
                  = Some v1)).
Proof.
  intros _ H.
  destruct (interpolate_on_piece _ _ _ _ _ _ _ H)
    as [Hp (fromIndex & toIndex & v1 & v2 & Hf & Ht & Hne & Hon & Hpath)].
  split; [done|]. exists fromIndex, toIndex, v1, v2.
  split; [done|]. split; [done|]. split; [done|]. split; [|done].
  destruct Hon as (fraction & Hrange & Hlat & Hlon).
  exists fraction. split; [done|]. unfold metresApart.
  assert (Qabs (pos_lat position - (v1.2 + (v2.2 - v1.2) * fraction)) == 0)%Q
    as ->.
  { assert (pos_lat position - (v1.2 + (v2.2 - v1.2) * fraction) == 0)%Q
      as -> by lra. reflexivity. }
  assert (Qabs (pos_lon position - (v1.1 + (v2.1 - v1.1) * fraction)) == 0)%Q
    as ->.
  { assert (pos_lon position - (v1.1 + (v2.1 - v1.1) * fraction) == 0)%Q
      as -> by lra. reflexivity. }
  lra.
Qed.

Lemma alongGeometry_progress (routeId : option string)
    (fromLat fromLon toLat toLon progress : Q) (position : Position) :
  alongGeometry routeId fromLat fromLon toLat toLon progress = Some position ->
  pos_progress position = progress.
Proof.
  unfold BusPositionCalculator.alongGeometry.
  destruct (BusPositionCalculator.truthy routeId) as [r|]; [|discriminate].
  destruct (getRouteGeometry dm r) as [[ty cs|vs]|]; try discriminate.
  destruct (0 <? length vs)%nat; [|discriminate].
  intros H. by destruct (interpolate_on_piece _ _ _ _ _ _ _ H).
Qed.

Lemma calculatePosition_moving (f g : Stop) (d a : Z) (p : Q)
    (routeId : option string) :
  match calculatePosition (Some (moving f g d a p)) routeId with
  | None =>
      parseFloat (stop_lat f) = None \/ parseFloat (stop_lon f) = None
      \/ parseFloat (stop_lat g) = None \/ parseFloat (stop_lon g) = None
  | Some position =>
      exists fromLat fromLon toLat toLon,
        parseFloat (stop_lat f) = Some fromLat
        /\ parseFloat (stop_lon f) = Some fromLon
        /\ parseFloat (stop_lat g) = Some toLat
        /\ parseFloat (stop_lon g) = Some toLon
        /\ pos_progress position = p
        /\ (alongGeometry routeId fromLat fromLon toLat toLon p
            = Some position
            \/ (alongGeometry routeId fromLat fromLon toLat toLon p = None
                /\ position = straightLine fromLat fromLon toLat toLon p))
  end.
Proof.
  unfold BusPositionCalculator.calculatePosition.
  destruct (parseFloat (stop_lat f)) as [fromLat|]; [|by left].
  destruct (parseFloat (stop_lon f)) as [fromLon|]; [|by right; left].
  destruct (parseFloat (stop_lat g)) as [toLat|]; [|by right; right; left].
  destruct (parseFloat (stop_lon g)) as [toLon|]; [|by right; right; right].
  destruct (BusPositionCalculator.alongGeometry _ _ _ _ _ _ _ _ _)
    as [position|] eqn:Hgeo.
  - exists fromLat, fromLon, toLat, toLon. repeat split; try done.
    + by apply alongGeometry_progress in Hgeo.
    + by left.
  - exists fromLat, fromLon, toLat, toLon. repeat split; try done.
    by right.
Qed.

(** X17. For a moving state [calculatePosition] answers [null] exactly
    when one of the four coordinates of its two stops is not a number;
    otherwise it answers a position that carries the state's progress and
    is the one found along the route's geometry or, when none is found,
    the one on the straight line between the stops. *)
Theorem X17_position_of_moving (f g : Stop) (d a : Z) (p : Q)
    (routeId : option string) :
  match calculatePosition (Some (moving f g d a p)) routeId with
  | None =>
      parseFloat (stop_lat f) = None \/ parseFloat (stop_lon f) = None
      \/ parseFloat (stop_lat g) = None \/ parseFloat (stop_lon g) = None
  | Some position =>
      exists fromLat fromLon toLat toLon,
        parseFloat (stop_lat f) = Some fromLat
        /\ parseFloat (stop_lon f) = Some fromLon
        /\ parseFloat (stop_lat g) = Some toLat
        /\ parseFloat (stop_lon g) = Some toLon
        /\ pos_progress position = p
        /\ (alongGeometry routeId fromLat fromLon toLat toLon p
            = Some position
            \/ (alongGeometry routeId fromLat fromLon toLat toLon p = None
                /\ position = straightLine fromLat fromLon toLat toLon p))
  end.
Proof. apply calculatePosition_moving. Qed.

Lemma find_Some_elem {A} (f : A -> bool) (l : list A) (x : A) :
  List.find f l = Some x -> x ∈ l.
Proof.
  intros H. apply List.find_some in H as [H _]. by apply list_elem_of_In.
Qed.

(** X18. When no feature of the loaded GeoJSON carries a bare array as its
    geometry, the geometry is never used: the position of a moving state
    whose coordinates are numbers is the one on the straight line between
    its stops, whatever the route. *)
Theorem X18_object_geometry_unused (f g : Stop) (d a : Z) (p : Q)
    (routeId : option string) (fromLat fromLon toLat toLon : Q) :
  (forall features feature vertices,
     geoJson dm = Some features -> feature ∈ features ->
     f_geometry feature <> GeomArray vertices) ->
  parseFloat (stop_lat f) = Some fromLat ->
  parseFloat (stop_lon f) = Some fromLon ->
  parseFloat (stop_lat g) = Some toLat ->
  parseFloat (stop_lon g) = Some toLon ->
  calculatePosition (Some (moving f g d a p)) routeId
  = Some (straightLine fromLat fromLon toLat toLon p).
Proof.
  intros Hobj H1 H2 H3 H4.
  unfold BusPositionCalculator.calculatePosition.
  rewrite H1, H2, H3, H4.
  assert (alongGeometry routeId fromLat fromLon toLat toLon p = None) as ->;
    [|done].
  unfold BusPositionCalculator.alongGeometry.
  destruct (BusPositionCalculator.truthy routeId) as [r|]; [|done].
  destruct (getRouteGeometry dm r) as [[ty cs|vs]|] eqn:Hgeo; try done.
  exfalso. unfold getRouteGeometry in Hgeo.
  destruct (geoJson dm) as [features|] eqn:Hjson; [|discriminate].
  destruct (List.find _ features) as [feature|] eqn:Hfind; [|discriminate].
  injection Hgeo as Hgeo.
  apply find_Some_elem in Hfind.
  exact (Hobj features feature vs eq_refl Hfind Hgeo).
Qed.

Lemma straightLine_between (fromLat fromLon toLat toLon p : Q) :
  (0 <= p <= 1)%Q ->
  let position := straightLine fromLat fromLon toLat toLon p in
  (Qmin fromLat toLat <= pos_lat position <= Qmax fromLat toLat)%Q
  /\ (Qmin fromLon toLon <= pos_lon position <= Qmax fromLon toLon)%Q.
Proof.
  intros [H0 H1]. simpl.
  assert (forall x y : Q,
            (Qmin x y <= x + (y - x) * p <= Qmax x y)%Q) as Hbetween.
  { intros x y.
    destruct (Q.min_spec x y) as [[Hlt Hmin]|[Hle Hmin]];
    destruct (Q.max_spec x y) as [[Hlt' Hmax]|[Hle' Hmax]];
    rewrite Hmin, Hmax; split; nra. }
  split; apply Hbetween.
Qed.

(** X19. For a progress between 0 and 1 and two stops whose coordinates
    are latitudes and longitudes, a position [calculatePosition] answers
    is either one found along the route's geometry or lies, within one
    metre of arc, in the bounds of the two stops, in latitude and in
    longitude. The range of the coordinates bounds the rounding of the
    number arithmetic, far below the metre. *)
Theorem X19_position_between_stops (f g : Stop) (d a : Z) (p : Q)
    (routeId : option string) (position : Position)
    (fromLat fromLon toLat toLon : Q) :
  (0 <= p <= 1)%Q ->
  parseFloat (stop_lat f) = Some fromLat ->
  parseFloat (stop_lon f) = Some fromLon ->
  parseFloat (stop_lat g) = Some toLat ->
  parseFloat (stop_lon g) = Some toLon ->
  geographic fromLat fromLon -> geographic toLat toLon ->
  calculatePosition (Some (moving f g d a p)) routeId = Some position ->
  alongGeometry routeId fromLat fromLon toLat toLon p = Some position
  \/ ((Qmin fromLat toLat - oneMetre <= pos_lat position
       <= Qmax fromLat toLat + oneMetre)%Q
      /\ (Qmin fromLon toLon - oneMetre <= pos_lon position
          <= Qmax fromLon toLon + oneMetre)%Q).
Proof.
  intros Hp H1 H2 H3 H4 _ _ Hpos.
  pose proof (calculatePosition_moving f g d a p routeId) as Hcalc.
  rewrite Hpos in Hcalc.
  destruct Hcalc as (fromLat' & fromLon' & toLat' & toLon' & H1' & H2' & H3'
                     & H4' & _ & Hcase).
  rewrite H1 in H1'. rewrite H2 in H2'. rewrite H3 in H3'. rewrite H4 in H4'.
  injection H1' as <-. injection H2' as <-.
  injection H3' as <-. injection H4' as <-.
  destruct Hcase as [Hgeo|[_ ->]]; [by left|right].
  destruct (straightLine_between fromLat fromLon toLat toLon p Hp)
    as [[Ha Hb] [Hc Hd]].
  unfold oneMetre. repeat split; lra.
Qed.

(** X20. [calculateAllPositions] keeps the order of the buses and drops
    some: never a waiting bus, which keeps the position of its stop and
    the bearing 0, and a moving bus exactly when a coordinate of one of
    its two stops is not a number. *)
Theorem X20_all_positions (allBuses : list Bus) :
  let placed := calculateAllPositions allBuses in
  sublist (map pb_bus placed) allBuses
  /\ (forall bus position,
        bus ∈ allBuses -> b_segment bus = None ->
        b_position bus = Some position ->
        mkPlaced bus (inl position) 0 ∈ placed)
  /\ (forall bus f g d a p,
        bus ∈ allBuses -> b_segment bus = Some (moving f g d a p) ->
        (exists entry, entry ∈ placed /\ pb_bus entry = bus)
        <-> (parseFloat (stop_lat f) <> None
             /\ parseFloat (stop_lon f) <> None
             /\ parseFloat (stop_lat g) <> None
             /\ parseFloat (stop_lon g) <> None)).
Proof.
  intros placed. subst placed. unfold AllPositions.calculateAllPositions.
  assert (forall bus entry,
            AllPositions.placeBus parseFloat calculateDistance
              findNearestPointOnRoute calculateBearing dm bus = Some entry ->
            pb_bus entry = bus) as Hproj.
  { intros bus entry. unfold AllPositions.placeBus.
    destruct (b_segment bus) as [segment|].
    - destruct (BusPositionCalculator.calculatePosition _ _ _ _ _ _);
        [|discriminate]. by intros [= <-].
    - destruct (b_position bus); [|discriminate]. by intros [= <-]. }
  split; [by apply sublist_omap_proj|]. split.
  - intros bus position Hin Hseg Hpos.
    apply list_elem_of_omap. exists bus. split; [done|].
    unfold AllPositions.placeBus. by rewrite Hseg, Hpos.
  - intros bus f g d a p Hin Hseg.
    pose proof (calculatePosition_moving f g d a p
                  (r_route_id <$> b_route bus)) as Hcalc.
    split.
    + intros (entry & Hentry & Hbus).
      apply list_elem_of_omap in Hentry as (bus' & _ & Hplace).
      pose proof (Hproj _ _ Hplace) as Heq. rewrite Hbus in Heq. subst bus'.
      unfold AllPositions.placeBus in Hplace. rewrite Hseg in Hplace.
      destruct (BusPositionCalculator.calculatePosition _ _ _ _ _ _)
        as [position|]; [|discriminate].
      destruct Hcalc as (? & ? & ? & ? & -> & -> & -> & -> & _).
      by repeat split.
    + intros (H1 & H2 & H3 & H4).
      destruct (BusPositionCalculator.calculatePosition _ _ _ _ _ _)
        as [position|] eqn:Hposition.
      * exists (mkPlaced bus (inr position)
                  (calculateBearing (moving f g d a p))).
        split; [|done]. apply list_elem_of_omap. exists bus.
        split; [done|]. unfold AllPositions.placeBus.
        by rewrite Hseg, Hposition.
      * by destruct Hcalc as [?|[?|[?|?]]].
Qed.

End Positions.

(* ===================================================================== *)
(** ** Planner: what the search keeps true                                *)
(* ===================================================================== *)

Section PlannerInvariant.

Variable calculateDistance : jsval -> jsval -> jsval -> jsval -> Q.
Variable findStopsWithinRadius :
  DataManager -> Coords -> Q -> list (Stop * Q).
Variable pf : Pathfinder.
Variable startCoords : Coords.
Variable departureTimeSeconds : Z.
Variable startStops : list (Stop * Q).

Local Abbreviation dm := (dataManager pf).
Local Abbreviation Inv :=
  (searchInv dm startCoords departureTimeSeconds startStops).
Local Abbreviation linkOK' :=
  (linkOK dm startCoords departureTimeSeconds startStops).

(** The state is sound and the stop being expanded has a back-link. *)
Local Abbreviation At cur :=
  (fun s => Inv s /\ is_Some (backLink s !! cur)).

Lemma unlessBroken_bind {A B} (sound : Prop) (P : A -> Prop) (Q : B -> Prop)
    (m : result A) (k : A -> result B) :
  unlessBroken sound P m ->
  (forall a, m = Return a -> P a -> unlessBroken sound Q (k a)) ->
  unlessBroken sound Q (m ≫= k).
Proof. destruct m as [a| |]; simpl; auto. Qed.

Lemma unlessBroken_deref {A B} (sound : Prop) (Q : B -> Prop)
    (o : option A) (k : A -> result B) :
  (sound -> is_Some o) ->
  (forall a, o = Some a -> unlessBroken sound Q (k a)) ->
  unlessBroken sound Q (deref o ≫= k).
Proof.
  intros Hs Hk. destruct o as [a|]; simpl; [by apply Hk|].
  intros Hsound. by destruct (Hs Hsound).
Qed.

Lemma forEachM_unlessBroken {A S} (sound : Prop) (P : S -> Prop)
    (body : S -> A -> result S) (l : list A) :
  forall s,
  (forall s a, a ∈ l -> P s -> unlessBroken sound P (body s a)) ->
  P s -> unlessBroken sound P (forEachM body l s).
Proof.
  induction l as [|a l IH]; intros s Hbody Hs; simpl; [done|].
  apply (unlessBroken_bind sound P P).
  - apply Hbody; [apply elem_of_cons; by left|done].
  - intros s' _ Hs'. apply IH; [|done].
    intros s1 b Hb. apply Hbody. apply elem_of_cons. by right.
Qed.

Lemma Forall_enqueue (P : Leg * Z -> Prop) (e : Leg * Z)
    (q : list (Leg * Z)) :
  P e -> Forall P q -> Forall P (PriorityQueue.enqueue e q).
Proof.
  intros He Hq. rewrite PriorityQueue_enqueue_insertByKey.
  apply Forall_forall. intros x Hx.
  rewrite (insertByKey_Permutation snd e q) in Hx.
  apply elem_of_cons in Hx as [->|Hx]; [done|].
  rewrite Forall_forall in Hq. by apply Hq.
Qed.

Lemma linkOK_mono (links : gmap string BackLink) (key : string)
    (new : BackLink) (stopId : string) (link : BackLink) :
  linkOK' links stopId link -> linkOK' (<[key := new]> links) stopId link.
Proof.
  intros (H1 & H2 & H3). split; [done|]. split; [|done].
  destruct H2 as [?|H2]; [by left|right].
  apply lookup_insert_is_Some'. by right.
Qed.

(** Filing a new back-link and queueing its leg keeps the state sound. *)
Lemma searchInv_insert (s : SearchState) (next : string) (leg : Leg)
    (prev : string) (t : Z) (labels : gmap string Z) :
  Inv s ->
  toStopId leg = Some next ->
  is_Some (getStop dm next) ->
  linkOK' (<[next := mkBackLink leg prev]> (backLink s)) next
          (mkBackLink leg prev) ->
  Inv (mkSearch (PriorityQueue.enqueue (leg, t) (pq s)) labels
                (<[next := mkBackLink leg prev]> (backLink s))).
Proof.
  intros [Hq Hl] Hto Hknown Hnew. split; simpl.
  - apply Forall_enqueue.
    + exists next. simpl. repeat split; [done| |done].
      apply lookup_insert_is_Some'. by left.
    + eapply Forall_impl; [exact Hq|]. simpl.
      intros entry (stopId & ? & ? & ?). exists stopId.
      repeat split; [done| |done]. apply lookup_insert_is_Some'. by right.
  - intros stopId link Hlink.
    apply lookup_insert_Some in Hlink as [[<- <-]|[_ Hlink]]; [done|].
    apply linkOK_mono. by apply Hl.
Qed.

Lemma known_not_START (stopId : string) :
  wellFormed dm -> is_Some (getStop dm stopId) ->
  String.eqb stopId "START" = false.
Proof.
  intros [_ Hno] [stop Hstop]. apply String.eqb_neq. intros ->. congruence.
Qed.

Lemma seedStart_inv (s : SearchState) (stopInfo : Stop * Q) :
  stopInfo ∈ startStops ->
  is_Some (getStop dm (stop_id stopInfo.1)) ->
  Inv s ->
  Inv (LocalPathfinder.seedStart startCoords departureTimeSeconds s stopInfo).
Proof.
  intros Hin Hknown Hs. destruct stopInfo as [stop distance].
  unfold LocalPathfinder.seedStart.
  apply searchInv_insert; try done.
  split; [done|]. split; simpl; [by left|]. intros _.
  repeat split. by exists stop, distance.
Qed.

Lemma seeded_inv (seeds : list (Stop * Q)) :
  forall s,
  seeds ⊆ startStops -> foundKnown dm seeds -> Inv s ->
  Inv (foldl (LocalPathfinder.seedStart startCoords departureTimeSeconds)
             s seeds).
Proof.
  induction seeds as [|x seeds IH]; intros s Hsub Hknown Hs; simpl; [done|].
  apply Forall_cons in Hknown as [Hx Hknown].
  apply IH; [set_solver|done|].
  apply seedStart_inv; [set_solver|done|done].
Qed.

Lemma relaxWalk_inv (cur : string) (t : Z) (s : SearchState)
    (transfer : Transfer) :
  transfer ∈ default [] (transferMap pf !! cur) ->
  is_Some (getStop dm cur) ->
  At cur s ->
  unlessBroken (intact pf) (At cur)
    (LocalPathfinder.relaxWalk dm cur t s transfer).
Proof.
  intros Hin Hcur [Hs Hlink]. unfold LocalPathfinder.relaxWalk.
  destruct (improves _ _ _); [|by split].
  apply unlessBroken_deref; [done|]. intros fromStop _.
  apply unlessBroken_deref.
  { intros (_ & _ & Htr).
    destruct (transferMap pf !! cur) as [transfers|] eqn:Hmap;
      [|by apply elem_of_nil in Hin].
    pose proof (map_Forall_lookup_1 _ _ _ _ Htr Hmap) as Hall.
    simpl in Hall. rewrite Forall_forall in Hall. by apply Hall. }
  intros toStop HtoStop. simpl. split.
  - apply searchInv_insert; try done.
    split; [done|]. split; simpl.
    + right. apply lookup_insert_is_Some'. by right.
    + intros Hwf. by rewrite (known_not_START cur Hwf Hcur).
  - apply lookup_insert_is_Some'. by right.
Qed.

Lemma relaxBus_inv (cur : string) (st : StopTime) (trip : Trip)
    (depTime : Z) (s : SearchState) (nextStopOnTrip : StopTime) :
  st ∈ default [] (stopTimesByStop dm !! cur) ->
  nextStopOnTrip ∈ getStopTimes dm (st_trip_id st) ->
  is_Some (getStop dm cur) ->
  At cur s ->
  unlessBroken (intact pf) (At cur)
    (LocalPathfinder.relaxBus dm cur st trip depTime s nextStopOnTrip).
Proof.
  intros Hst Hnext Hcur [Hs Hlink]. unfold LocalPathfinder.relaxBus.
  destruct (_ >? _); [|by split].
  destruct (improves _ _ _); [|by split].
  destruct (stopTimesByStop dm !! cur) as [events|] eqn:Hevents;
    [|by apply elem_of_nil in Hst].
  simpl in Hst.
  apply unlessBroken_deref.
  { intros (Hby & _ & _).
    pose proof (map_Forall_lookup_1 _ _ _ _ Hby Hevents) as Hall.
    simpl in Hall. rewrite Forall_forall in Hall.
    by destruct (Hall st Hst). }
  intros fromStop _.
  apply unlessBroken_deref.
  { intros (_ & Hby & _). unfold getStopTimes in Hnext.
    destruct (stopTimesByTrip dm !! st_trip_id st) as [tripStops|] eqn:Ht;
      [|by apply elem_of_nil in Hnext].
    pose proof (map_Forall_lookup_1 _ _ _ _ Hby Ht) as Hall.
    simpl in Hall. unfold stopsKnown in Hall.
    rewrite Forall_forall in Hall. by apply Hall. }
  intros toStop HtoStop. simpl. split.
  - apply searchInv_insert; try done.
    split; [done|]. split; simpl.
    + right. apply lookup_insert_is_Some'. by right.
    + intros Hwf. rewrite (known_not_START cur Hwf Hcur).
      destruct Hwf as [Hkeyed _].
      pose proof (map_Forall_lookup_1 _ _ _ _ Hkeyed Hevents) as Hall.
      simpl in Hall. rewrite Forall_forall in Hall.
      by rewrite (Hall st Hst).
  - apply lookup_insert_is_Some'. by right.
Qed.

Lemma boardTrip_inv (serviceId cur : string) (t : Z) (s : SearchState)
    (st : StopTime) :
  st ∈ default [] (stopTimesByStop dm !! cur) ->
  is_Some (getStop dm cur) ->
  At cur s ->
  unlessBroken (intact pf) (At cur)
    (LocalPathfinder.boardTrip dm serviceId cur t s st).
Proof.
  intros Hst Hcur Hs. unfold LocalPathfinder.boardTrip.
  apply unlessBroken_deref.
  { intros (Hby & _ & _).
    destruct (stopTimesByStop dm !! cur) as [events|] eqn:Hevents;
      [|by apply elem_of_nil in Hst].
    pose proof (map_Forall_lookup_1 _ _ _ _ Hby Hevents) as Hall.
    simpl in Hall. rewrite Forall_forall in Hall.
    by destruct (Hall st Hst). }
  intros trip _. destruct (_ && _); [|done].
  apply forEachM_unlessBroken; [|done].
  intros s1 next Hnext Hs1. by apply relaxBus_inv.
Qed.

Lemma expand_inv (serviceId cur : string) (t : Z) (s : SearchState) :
  is_Some (getStop dm cur) ->
  At cur s ->
  unlessBroken (intact pf) (At cur)
    (LocalPathfinder.expand pf serviceId cur t s).
Proof.
  intros Hcur Hs. unfold LocalPathfinder.expand.
  apply (unlessBroken_bind _ (At cur)).
  - apply forEachM_unlessBroken; [|done].
    intros s1 st Hst Hs1. by apply boardTrip_inv.
  - intros s1 _ Hs1. apply forEachM_unlessBroken; [|done].
    intros s2 tr Htr Hs2. by apply relaxWalk_inv.
Qed.

(** The search keeps its state sound, and a final stop is an end stop
    that is known and has a back-link. *)
Lemma dijkstra_inv (serviceId : string) (endStopIds : gset string)
    (fuel : nat) :
  forall s,
  Inv s ->
  unlessBroken (intact pf)
    (fun r : option string * SearchState =>
       Inv r.2
       /\ match r.1 with
          | Some final =>
              final ∈ endStopIds /\ is_Some (backLink r.2 !! final)
              /\ is_Some (getStop dm final)
          | None => True
          end)
    (LocalPathfinder.dijkstra fuel pf serviceId endStopIds s).
Proof.
  induction fuel as [|fuel IH]; intros s Hs.
  - simpl. destruct (pq s) as [|[leg t] rest]; simpl; [by split|done].
  - simpl. destruct (pq s) as [|[leg t] rest] eqn:Hq; simpl; [by split|].
    assert (Inv (mkSearch rest (minArrivalTime s) (backLink s))) as Hs0.
    { destruct Hs as [Hqs Hl]. split; [|done]. simpl.
      rewrite Hq in Hqs. by apply Forall_cons in Hqs as [_ ?]. }
    destruct Hs as [Hqs _]. rewrite Hq in Hqs.
    apply Forall_cons in Hqs as [(cur & Hcur & Hlink & Hknown) _].
    simpl in Hcur. rewrite Hcur.
    destruct (superseded _ _ _); [by apply IH|].
    destruct (bool_decide (cur ∈ endStopIds)) eqn:Hend.
    + simpl. apply bool_decide_eq_true in Hend.
      split; [done|]. split; [done|]. by split.
    + apply (unlessBroken_bind _ (At cur)).
      * by apply expand_inv.
      * intros s1 _ [Hs1 _]. by apply IH.
Qed.

(** Following back-links from a sound set of links never meets a missing
    link; the legs collected run back to an access walk, each starting
    where the one collected after it ends. *)
Lemma followLinks_inv (sound : Prop) (links : gmap string BackLink)
    (fuel : nat) :
  (forall stopId link, links !! stopId = Some link ->
                       linkOK' links stopId link) ->
  forall stopId link legs,
  linkOK' links stopId link ->
  unlessBroken sound
    (fun collected =>
       exists chain,
         collected = legs ++ chain
         /\ head chain = Some (bl_leg link)
         /\ (wellFormed dm ->
             (exists access,
                last chain = Some access
                /\ isAccess startCoords departureTimeSeconds startStops
                            access)
             /\ chained (fun leg before => joinedAt before leg) chain))
    (LocalPathfinder.followLinks fuel links link legs).
Proof.
  intros Hlinks.
  assert (forall stopId link legs,
            String.eqb (prevStopId link) "START" = true ->
            linkOK' links stopId link ->
            exists chain,
              legs ++ [bl_leg link] = legs ++ chain
              /\ head chain = Some (bl_leg link)
              /\ (wellFormed dm ->
                  (exists access,
                     last chain = Some access
                     /\ isAccess startCoords departureTimeSeconds startStops
                                 access)
                  /\ chained (fun leg before => joinedAt before leg) chain))
    as Hstart.
  { intros stopId link legs Heq (_ & _ & Hshape).
    exists [bl_leg link]. split; [done|]. split; [done|]. intros Hwf.
    specialize (Hshape Hwf). rewrite Heq in Hshape.
    split; [by exists (bl_leg link)|done]. }
  induction fuel as [|fuel IH]; intros stopId link legs Hlink; simpl.
  - destruct (String.eqb (prevStopId link) "START") eqn:Heq; simpl; [|done].
    by apply (Hstart stopId).
  - destruct (String.eqb (prevStopId link) "START") eqn:Heq; simpl;
      [by apply (Hstart stopId)|].
    pose proof Hlink as (Hto & Hprev & Hshape).
    destruct Hprev as [Hprev|[next Hnext]];
      [by rewrite Hprev in Heq|].
    rewrite Hnext. simpl.
    pose proof (Hlinks _ _ Hnext) as Hnextok.
    specialize (IH (prevStopId link) next (legs ++ [bl_leg link]) Hnextok).
    destruct (LocalPathfinder.followLinks fuel links next _)
      as [collected| |]; simpl in *; [|done..].
    destruct IH as (chain & -> & Hhead & Hrest).
    exists (bl_leg link :: chain). rewrite <- app_assoc.
    split; [done|]. split; [done|]. intros Hwf.
    destruct (Hrest Hwf) as [(access & Hlast & Haccess) Hchain].
    destruct chain as [|before chain]; [done|].
    simpl in Hhead. injection Hhead as ->.
    split.
    + exists access. split; [|done]. by rewrite last_cons, Hlast.
    + split; [|done].
      specialize (Hshape Hwf). rewrite Heq in Hshape.
      destruct Hnextok as [Hnextto _].
      unfold joinedAt. rewrite Hnextto, Hshape. by split.
Qed.

End PlannerInvariant.

Section PlannerOutcomes.

Variable calculateDistance : jsval -> jsval -> jsval -> jsval -> Q.
Variable findStopsWithinRadius :
  DataManager -> Coords -> Q -> list (Stop * Q).

Local Abbreviation findItinerary :=
  (LocalPathfinder.findItinerary calculateDistance findStopsWithinRadius).
Local Abbreviation secondsOf date :=
  (getHours date * 3600 + getMinutes date * 60 + getSeconds date).
Local Abbreviation around pf coords :=
  (findStopsWithinRadius (dataManager pf) coords MAX_WALK_METERS).

Lemma chained_reverse {A} (R : A -> A -> Prop) (l : list A) :
  chained (fun a b => R b a) l -> chained R (reverse l).
Proof.
  induction l as [|a l IH]; [done|]. intros [Hhead Hrest].
  rewrite reverse_cons. specialize (IH Hrest).
  destruct l as [|b l]; [done|].
  rewrite reverse_cons in *.
  revert IH. generalize (reverse l). intros l' IH.
  induction l' as [|c l' IHl]; simpl in *; [done|].
  destruct IH as [Hc IH]. split.
  - by destruct l'.
  - by apply IHl.
Qed.

Lemma chained_snoc {A} (R : A -> A -> Prop) (l : list A) (e : A) :
  chained R l -> (forall x, last l = Some x -> R x e) ->
  chained R (l ++ [e]).
Proof.
  induction l as [|a l IH]; [done|]. intros [Hhead Hrest] Hlast.
  destruct l as [|b l]; simpl in *; [by auto|].
  split; [done|]. apply IH; [done|]. intros x Hx. by apply Hlast.
Qed.

Lemma findItinerary_inv (fuel : nat) (pf : Pathfinder)
    (startCoords endCoords : Coords) (departureDate : JsDate) :
  foundKnown (dataManager pf) (around pf startCoords) ->
  unlessBroken (intact pf)
    (fun outcome =>
       status outcome = OK -> wellFormed (dataManager pf) ->
       wellShaped startCoords endCoords (secondsOf departureDate)
                  (around pf startCoords) (around pf endCoords) outcome)
    (findItinerary fuel pf startCoords endCoords departureDate).
Proof.
  intros Hknown. unfold LocalPathfinder.findItinerary.
  destruct (falsy _); [done|].
  destruct (getServiceId _ _) as [sid|]; [|done].
  destruct (length _ =? 0)%nat; [done|].
  destruct (length _ =? 0)%nat; [done|].
  set (t0 := secondsOf departureDate).
  set (startStops := around pf startCoords) in *.
  set (endStops := around pf endCoords).
  eapply unlessBroken_bind.
  { apply (dijkstra_inv pf startCoords t0 startStops).
    apply seeded_inv; [done|done|]. split; [constructor|]. simpl.
    intros stopId link Hl. by rewrite lookup_empty in Hl. }
  intros [[final|] s] _ [[Hq Hlinks] Hfinal]; simpl in *; [|done].
  destruct (String.eqb final ""); [done|].
  destruct Hfinal as (Hend & [finalLink HfinalLink] & [finalStop HfinalStop]).
  unfold LocalPathfinder.reconstructPath.
  rewrite HfinalStop, HfinalLink. simpl.
  pose proof (Hlinks _ _ HfinalLink) as HlinkOK.
  match goal with
  | |- context [LocalPathfinder.followLinks fuel _ finalLink [?e]] =>
      set (egress := e)
  end.
  pose proof (followLinks_inv pf startCoords t0 startStops (intact pf)
                (backLink s) fuel Hlinks final finalLink [egress] HlinkOK)
    as Hfollow.
  destruct (LocalPathfinder.followLinks fuel _ finalLink [egress])
    as [collected| |]; simpl in *; [|done..].
  intros _ Hwf.
  destruct Hfollow as (chain & -> & Hhead & Hshape).
  destruct (Hshape Hwf) as [(access & Hlast & Haccess) Hchain].
  apply last_Some in Hlast as [pre ->].
  assert (reverse (egress :: pre ++ [access])
          = access :: reverse pre ++ [egress]) as Hrev.
  { by rewrite reverse_cons, reverse_app, reverse_singleton. }
  exists access, (reverse pre), egress. simpl. rewrite Hrev.
  assert (last (access :: reverse pre) = Some (bl_leg finalLink)) as Hjoin.
  { rewrite <- Hhead. replace (access :: reverse pre)
      with (reverse (pre ++ [access]))
      by (by rewrite reverse_app, reverse_singleton).
    by rewrite last_reverse. }
  split; [done|]. split; [done|]. split.
  { split; [done|]. split; [done|]. split; [done|].
    apply elem_of_list_to_set, list_elem_of_fmap in Hend
      as ([stop distance] & -> & Hin).
    by exists stop, distance. }
  split.
  { change (access :: reverse pre ++ [egress])
      with ((access :: reverse pre) ++ [egress]).
    apply chained_snoc.
    - replace (access :: reverse pre) with (reverse (pre ++ [access]))
        by (by rewrite reverse_app, reverse_singleton).
      by apply chained_reverse.
    - intros x Hx. rewrite Hjoin in Hx. injection Hx as <-.
      destruct HlinkOK as [Hto _]. unfold joinedAt. rewrite Hto. by split. }
  split.
  { rewrite last_cons in Hjoin.
    destruct (last (reverse pre)) as [l|]; simpl in *;
      by injection Hjoin as ->. }
  destruct Haccess as (_ & _ & _ & Hstart & _).
  change (access :: reverse pre ++ [egress])
    with ((access :: reverse pre) ++ [egress]).
  rewrite last_snoc. simpl. by rewrite Hstart.
Qed.


(** X22. An itinerary found on a feed whose stop index is keyed by stop
    and that has no stop called START is an access walk from the origin at
    the departure instant to a start stop, then legs, then an egress walk
    from an end stop to the destination that starts when the leg before it
    ends; each leg ends at the stop where the next one starts; and the
    duration runs from the departure instant to the end of the egress
    walk. *)
Theorem X22_itinerary_shape (fuel : nat) (pf : Pathfinder)
    (startCoords endCoords : Coords) (departureDate : JsDate)
    (outcome : Outcome) :
  wellFormed (dataManager pf) ->
  foundKnown (dataManager pf) (around pf startCoords) ->
  findItinerary fuel pf startCoords endCoords departureDate
  = Return outcome ->
  status outcome = OK ->
  wellShaped startCoords endCoords (secondsOf departureDate)
             (around pf startCoords) (around pf endCoords) outcome.
Proof.
  intros Hwf Hknown Hreturn Hok.
  pose proof (findItinerary_inv fuel pf startCoords endCoords departureDate
                Hknown) as H.
  rewrite Hreturn in H. by apply H.
Qed.

(** X23. The outcomes other than OK carry no leg and no duration, and the
    three early ones are decided in order, before any search: NO_SERVICE
    exactly when the date has no service identifier (or an empty one),
    else NO_START_STOPS exactly when no stop is found around the origin,
    else NO_END_STOPS exactly when none is found around the destination. *)
Theorem X23_early_outcomes (fuel : nat) (pf : Pathfinder)
    (startCoords endCoords : Coords) (departureDate : JsDate)
    (outcome : Outcome) :
  findItinerary fuel pf startCoords endCoords departureDate
  = Return outcome ->
  (status outcome <> OK -> path outcome = [] /\ stats_duration outcome = None)
  /\ (status outcome = NO_SERVICE
      <-> falsy (getServiceId (dataManager pf) departureDate) = true)
  /\ (status outcome = NO_START_STOPS
      <-> falsy (getServiceId (dataManager pf) departureDate) = false
          /\ around pf startCoords = [])
  /\ (status outcome = NO_END_STOPS
      <-> falsy (getServiceId (dataManager pf) departureDate) = false
          /\ around pf startCoords <> []
          /\ around pf endCoords = []).
Proof.
  unfold LocalPathfinder.findItinerary.
  destruct (falsy _) eqn:Hfalsy.
  { intros [= <-]. simpl. repeat split; try done; by intros []. }
  destruct (getServiceId _ _) as [sid|]; [|done].
  destruct (around pf startCoords) as [|s1 starts] eqn:Hstarts; simpl.
  { intros [= <-]. simpl. repeat split; try done. by intros (_ & ? & _). }
  destruct (around pf endCoords) as [|e1 ends] eqn:Hends; simpl.
  { intros [= <-]. simpl. repeat split; try done. by intros []. }
  destruct (LocalPathfinder.dijkstra _ _ _ _ _) as [[final s]| |];
    simpl; [|done..].
  assert (forall o : Outcome,
            status o = NO_PATH_FOUND \/ status o = OK ->
            (status o <> OK -> path o = [] /\ stats_duration o = None) ->
            (status o <> OK -> path o = [] /\ stats_duration o = None)
            /\ (status o = NO_SERVICE <-> false = true)
            /\ (status o = NO_START_STOPS <-> false = false /\ s1 :: starts = [])
            /\ (status o = NO_END_STOPS
                <-> false = false /\ s1 :: starts <> [] /\ e1 :: ends = []))
    as Hlate.
  { intros o Ho Hempty. split; [done|].
    assert (forall other, other <> NO_PATH_FOUND -> other <> OK ->
                          status o <> other) as Hother.
    { intros other H1 H2 Hs. rewrite Hs in Ho. by destruct Ho. }
    split; [|split]; (split; [intros Hs; by apply Hother in Hs|]).
    - done.
    - by intros [_ ?].
    - by intros (_ & _ & ?). }
  destruct (falsy final).
  { intros [= <-]. apply Hlate; [by left|done]. }
  destruct final as [final|].
  2:{ intros [= <-]. apply Hlate; [by left|done]. }
  destruct (LocalPathfinder.reconstructPath _ _ _ _ _ _)
    as [[legs total]| |]; simpl; [|done..].
  intros [= <-]. apply Hlate; [by right|done].
Qed.

End PlannerOutcomes.

(* ===================================================================== *)
(** ** Clock times: properties                                            *)
(* ===================================================================== *)

Lemma length_append (s1 s2 : string) :
  String.length (String.append s1 s2)
  = (String.length s1 + String.length s2)%nat.
Proof. induction s1 as [|c s1 IH]; simpl; [done|]. by rewrite IH. Qed.

Lemma padStart2_below_100 (n : Z) :
  0 <= n < 100 -> String.length (padStart2 (String_of_Z n)) = 2%nat.
Proof.
  intros Hn.
  assert (forallb (fun k => Nat.eqb (String.length
                                       (padStart2 (String_of_Z (Z.of_nat k))))
                                    2)
                  (seq 0 100) = true) as Hall by (vm_compute; reflexivity).
  rewrite forallb_forall in Hall.
  specialize (Hall (Z.to_nat n)).
  rewrite Z2Nat.id in Hall by lia.
  apply Nat.eqb_eq, Hall, in_seq. lia.
Qed.

(** X24. For a number of seconds that is not negative, [formatTime]
    writes eight characters and its three numbers are an hour below 24, a
    minute and a second below 60; read back with [timeToSeconds] they give
    the seconds again, modulo one day. *)
Theorem X24_clock_of_seconds (s : Z) :
  0 <= s ->
  0 <= hours (clockOf s) < 24
  /\ 0 <= minutes (clockOf s) < 60
  /\ 0 <= seconds (clockOf s) < 60
  /\ timeToSeconds (clockOf s) = s mod 86400
  /\ String.length (formatTime s) = 8%nat.
Proof.
  intros Hs. unfold formatTime, timeToSeconds, clockOf. simpl.
  rewrite !Z.rem_mod_nonneg by (try lia; apply Z.div_pos; lia).
  pose proof (Z.mod_pos_bound (s / 3600) 24 ltac:(lia)) as Hh.
  pose proof (Z.mod_pos_bound s 3600 ltac:(lia)) as Hm.
  pose proof (Z.mod_pos_bound s 60 ltac:(lia)) as Hsec.
  assert (0 <= s mod 3600 / 60 < 60) as Hmin.
  { split; [apply Z.div_pos; lia|]. apply Z.div_lt_upper_bound; lia. }
  split; [done|]. split; [done|]. split; [done|]. split.
  - pose proof (Z.div_mod s 3600 ltac:(lia)) as E1.
    pose proof (Z.div_mod (s / 3600) 24 ltac:(lia)) as E2.
    pose proof (Z.div_mod (s mod 3600) 60 ltac:(lia)) as E3.
    assert (s mod 60 = (s mod 3600) mod 60) as E4.
    { symmetry. apply Z.mod_mod_divide. exists 60. lia. }
    apply (Z.mod_unique_pos _ _ (s / 3600 / 24)); lia.
  - rewrite !length_append, !padStart2_below_100 by lia. done.
Qed.

(** X25. Conversely the three numbers of a time of day, read with
    [timeToSeconds], are the ones [formatTime] writes. *)
Theorem X25_seconds_of_clock (t : TimeStr) :
  0 <= hours t < 24 -> 0 <= minutes t < 60 -> 0 <= seconds t < 60 ->
  clockOf (timeToSeconds t) = t.
Proof.
  intros Hh Hm Hs. destruct t as [h m s]. simpl in *.
  unfold clockOf, timeToSeconds. simpl.
  assert ((h * 3600 + m * 60 + s) / 3600 = h) as E1.
  { symmetry. apply (Z.div_unique_pos _ _ _ (m * 60 + s)); lia. }
  assert ((h * 3600 + m * 60 + s) mod 3600 = m * 60 + s) as E2.
  { symmetry. apply (Z.mod_unique_pos _ _ h); lia. }
  assert ((m * 60 + s) / 60 = m) as E3.
  { symmetry. apply (Z.div_unique_pos _ _ _ s); lia. }
  assert ((h * 3600 + m * 60 + s) mod 60 = s) as E4.
  { symmetry. apply (Z.mod_unique_pos _ _ (h * 60 + m)); lia. }
  rewrite !Z.rem_mod_nonneg by lia.
  rewrite E1, E2, E3, E4. f_equal. apply Z.mod_small. lia.
Qed.

(* ===================================================================== *)
(** ** Planner: a search that does not end                                *)
(* ===================================================================== *)

Section Midnight.

Variable calculateDistance : jsval -> jsval -> jsval -> jsval -> Q.
Variable findStopsWithinRadius :
  DataManager -> Coords -> Q -> list (Stop * Q).
Variable pf : Pathfinder.
Variables A B : string.

Local Abbreviation dm := (dataManager pf).
Local Abbreviation findItinerary :=
  (LocalPathfinder.findItinerary calculateDistance findStopsWithinRadius).

Lemma zero_improves (labels : gmap string Z) (x : string) :
  superseded 0 labels x = false -> improves 0 labels x = true.
Proof.
  unfold superseded, improves, orInfinity.
  by destruct (labels !! x) as [[|l|l]|].
Qed.

Lemma zero_label_kept (labels : gmap string Z) (x y : string) :
  superseded 0 labels x = false ->
  superseded 0 (<[y := 0]> labels) x = false.
Proof.
  intros H. unfold superseded. destruct (decide (y = x)) as [->|Hne].
  - by rewrite lookup_insert_eq.
  - by rewrite lookup_insert_ne.
Qed.

Lemma enqueue_not_nil (e : Leg * Z) (q : list (Leg * Z)) :
  PriorityQueue.enqueue e q <> [].
Proof.
  destruct q as [|x q]; [done|]. simpl.
  destruct (e.2 <? x.2); done.
Qed.

(** Expanding a stop that has no departure and a single transfer, of no
    duration, to the other stop queues that stop again, at 0. *)
Lemma pinned_expand (serviceId X Y : string) (stopX stopY : Stop)
    (d : Q) (s : SearchState) :
  (Y = A \/ Y = B) ->
  getStop dm X = Some stopX -> getStop dm Y = Some stopY ->
  default [] (stopTimesByStop dm !! X) = [] ->
  transferMap pf !! X = Some [mkTransfer Y 0 d] ->
  pinned A B s ->
  exists s',
    LocalPathfinder.expand pf serviceId X 0 s = Return s'
    /\ pinned A B s' /\ pq s' <> [].
Proof.
  intros HY HX HYs Hdep Htr (Hq & HA & HB).
  unfold LocalPathfinder.expand. rewrite Hdep, Htr. simpl.
  unfold LocalPathfinder.relaxWalk. simpl.
  change (0 + 0) with 0.
  assert (improves 0 (minArrivalTime s) Y = true) as ->.
  { apply zero_improves. by destruct HY as [->| ->]. }
  rewrite HX, HYs. simpl. eexists. split; [reflexivity|]. simpl.
  split; [|apply enqueue_not_nil].
  split; [|split; by apply zero_label_kept].
  simpl. apply Forall_enqueue; [|done]. simpl. split; [done|].
  by destruct HY as [->| ->]; [left|right].
Qed.

(** From a pinned state with a queue that is not empty, the search loop
    never ends. *)
Lemma pinned_search (serviceId : string) (endStopIds : gset string)
    (stopA stopB : Stop) (dAB dBA : Q) :
  getStop dm A = Some stopA -> getStop dm B = Some stopB ->
  default [] (stopTimesByStop dm !! A) = [] ->
  default [] (stopTimesByStop dm !! B) = [] ->
  transferMap pf !! A = Some [mkTransfer B 0 dAB] ->
  transferMap pf !! B = Some [mkTransfer A 0 dBA] ->
  A ∉ endStopIds -> B ∉ endStopIds ->
  forall fuel s,
  pinned A B s -> pq s <> [] ->
  LocalPathfinder.dijkstra fuel pf serviceId endStopIds s = OutOfFuel.
Proof.
  intros HsA HsB HdA HdB HtA HtB HeA HeB.
  induction fuel as [|fuel IH]; intros s Hs Hne.
  - simpl. by destruct (pq s) as [|[leg t] rest].
  - simpl. destruct (pq s) as [|[leg t] rest] eqn:Hq; [done|]. simpl.
    pose proof Hs as (Hall & HA & HB). rewrite Hq in Hall.
    apply Forall_cons in Hall as [[Ht Hstop] Hrest]. simpl in Ht, Hstop.
    subst t.
    assert (pinned A B (mkSearch rest (minArrivalTime s) (backLink s)))
      as Hs0 by done.
    destruct Hstop as [Hstop|Hstop]; rewrite Hstop; simpl.
    + rewrite HA. rewrite bool_decide_eq_false_2 by done.
      destruct (pinned_expand serviceId A B stopA stopB dAB _
                  (or_intror eq_refl) HsA HsB HdA HtA Hs0)
        as (s1 & -> & Hs1 & Hne1).
      simpl. by apply IH.
    + rewrite HB. rewrite bool_decide_eq_false_2 by done.
      destruct (pinned_expand serviceId B A stopB stopA dBA _
                  (or_introl eq_refl) HsB HsA HdB HtB Hs0)
        as (s1 & -> & Hs1 & Hne1).
      simpl. by apply IH.
Qed.

Lemma pinned_seeds (startCoords : Coords) (seeds : list (Stop * Q)) :
  forall s,
  Forall (fun found : Stop * Q =>
            (stop_id found.1 = A \/ stop_id found.1 = B)
            /\ walkSeconds found.2 = 0) seeds ->
  pinned A B s ->
  pinned A B (foldl (LocalPathfinder.seedStart startCoords 0) s seeds)
  /\ (seeds <> [] ->
      pq (foldl (LocalPathfinder.seedStart startCoords 0) s seeds) <> []).
Proof.
  induction seeds as [|[stop d] seeds IH]; intros s Hseeds Hs; [done|].
  apply Forall_cons in Hseeds as [[Hid Hwalk] Hseeds]. simpl in Hid, Hwalk.
  destruct Hs as (Hq & HA & HB).
  assert (pinned A B (LocalPathfinder.seedStart startCoords 0 s (stop, d)))
    as Hs1.
  { unfold LocalPathfinder.seedStart. rewrite Hwalk. simpl.
    split; [|split; by apply zero_label_kept].
    simpl. apply Forall_enqueue; [|done]. simpl. split; [done|].
    by destruct Hid as [->| ->]; [left|right]. }
  simpl. destruct (IH _ Hseeds Hs1) as [Hpinned Hne].
  split; [done|]. intros _.
  destruct seeds as [|x seeds]; [|by apply Hne].
  simpl. unfold LocalPathfinder.seedStart. rewrite Hwalk. simpl.
  apply enqueue_not_nil.
Qed.

(** X26. A query at 00:00:00 whose start stops are two stops reached in no
    time, each with no departure and a single transfer, of no duration, to
    the other, and neither an end stop, never returns: the label 0 of each
    stop is read as no label, so each transfer is accepted again, and the
    search loop runs out of any number of iterations. *)
Theorem X26_midnight_search_never_ends (stopA stopB : Stop) (dAB dBA : Q)
    (startCoords endCoords : Coords) (departureDate : JsDate) :
  getStop dm A = Some stopA -> getStop dm B = Some stopB ->
  default [] (stopTimesByStop dm !! A) = [] ->
  default [] (stopTimesByStop dm !! B) = [] ->
  transferMap pf !! A = Some [mkTransfer B 0 dAB] ->
  transferMap pf !! B = Some [mkTransfer A 0 dBA] ->
  falsy (getServiceId dm departureDate) = false ->
  getHours departureDate = 0 -> getMinutes departureDate = 0 ->
  getSeconds departureDate = 0 ->
  findStopsWithinRadius dm startCoords MAX_WALK_METERS <> [] ->
  Forall (fun found : Stop * Q =>
            (stop_id found.1 = A \/ stop_id found.1 = B)
            /\ walkSeconds found.2 = 0)
         (findStopsWithinRadius dm startCoords MAX_WALK_METERS) ->
  findStopsWithinRadius dm endCoords MAX_WALK_METERS <> [] ->
  Forall (fun found : Stop * Q =>
            stop_id found.1 <> A /\ stop_id found.1 <> B)
         (findStopsWithinRadius dm endCoords MAX_WALK_METERS) ->
  forall fuel,
    findItinerary fuel pf startCoords endCoords departureDate = OutOfFuel.
Proof.
  intros HsA HsB HdA HdB HtA HtB Hservice Hh Hm Hs Hstart Hstarts Hend Hends
         fuel.
  unfold LocalPathfinder.findItinerary. rewrite Hservice, Hh, Hm, Hs.
  destruct (getServiceId dm departureDate) as [sid|]; [|done].
  destruct (findStopsWithinRadius dm startCoords MAX_WALK_METERS)
    as [|s1 starts] eqn:Hstartsq; [done|].
  destruct (findStopsWithinRadius dm endCoords MAX_WALK_METERS)
    as [|e1 ends] eqn:Hendsq; [done|].
  cbn [length Nat.eqb].
  change (0 * 3600 + 0 * 60 + 0) with 0.
  destruct (pinned_seeds startCoords (s1 :: starts) (mkSearch [] ∅ ∅) Hstarts)
    as [Hpinned Hne]; [by split|].
  rewrite (pinned_search sid _ stopA stopB dAB dBA HsA HsB HdA HdB HtA HtB);
    try done; [| |by apply Hne].
  - intros Hin. apply elem_of_list_to_set, list_elem_of_fmap in Hin
      as (found & HfA & Hfound).
    rewrite Forall_forall in Hends. destruct (Hends found Hfound) as [H _].
    by apply H.
  - intros Hin. apply elem_of_list_to_set, list_elem_of_fmap in Hin
      as (found & HfB & Hfound).
    rewrite Forall_forall in Hends. destruct (Hends found Hfound) as [_ H].
    by apply H.
Qed.

End Midnight.

(* ===================================================================== *)
(** ** The properties above on the small feeds                            *)
(* ===================================================================== *)

Lemma X1_witness :
  exists before after,
    [Demo.stroll 1; Demo.stroll 3] = before ++ after
    /\ PriorityQueue.enqueue (Demo.stroll 2) [Demo.stroll 1; Demo.stroll 3]
       = before ++ Demo.stroll 2 :: after
    /\ Forall (fun x => x.2 <= (Demo.stroll 2).2) before
    /\ Forall (fun x => (Demo.stroll 2).2 < x.2) after
    /\ sortedBy snd (PriorityQueue.enqueue (Demo.stroll 2)
                       [Demo.stroll 1; Demo.stroll 3]).
Proof.
  apply (X1_enqueue_position (Demo.stroll 2) [Demo.stroll 1; Demo.stroll 3]).
  repeat constructor; vm_compute; discriminate.
Defined.




Lemma X11_witness :
  (getDailyServiceBounds Demo.blank Demo.dm).1 <= 28800
  <= (getDailyServiceBounds Demo.blank Demo.dm).2.
Proof.
  assert (exists a, In a (getActiveTrips Demo.dm 28800 Demo.monday0805))
    as [a Ha].
  { eexists. vm_compute. left. reflexivity. }
  assert (timesGiven Demo.blank Demo.dm) as Hgiven.
  { apply (bool_decide_unpack _). vm_compute. reflexivity. }
  exact (X11_active_within_bounds Demo.blank Demo.dm 28800 Demo.monday0805 a
           Hgiven Ha).
Defined.

Lemma X13_witness :
  exists state,
    TripScheduler.findCurrentState Demo.parseFloat Demo.dm Demo.stopTimesT1
      29100 = Some state
    /\ stateAt Demo.parseFloat Demo.dm Demo.stopTimesT1 29100 state.
Proof.
  assert (exists state,
            TripScheduler.findCurrentState Demo.parseFloat Demo.dm
              Demo.stopTimesT1 29100 = Some state) as [state Hstate].
  { eexists. vm_compute. reflexivity. }
  exists state. split; [exact Hstate|].
  exact (X13_state_sound Demo.parseFloat Demo.dm Demo.stopTimesT1 29100
           state Hstate).
Defined.

Lemma X14_witness :
  exists m s,
    getNextStopETA
      (Some (moving Demo.S0 Demo.S1 28800 29100 (60 # 300))) 28860
    = Some (mkETA (29100 - 28860)
              (String.append (String_of_Z m)
                 (String.append "m " (String.append (String_of_Z s) "s"))))
    /\ 0 <= m /\ 0 <= s < 60 /\ 29100 - 28860 = 60 * m + s.
Proof.
  apply (X14_eta_of_moving Demo.parseFloat Demo.dm Demo.stopTimesT1 28860
           Demo.S0 Demo.S1 28800 29100 (60 # 300)).
  vm_compute. reflexivity.
Defined.

Lemma X16_witness :
  exists position,
    BusPositionCalculator.interpolateAlongRoute Night.calculateDistance
      Night.findNearestPointOnRoute Night.line
      (46001 # 1000) 4 (46009 # 1000) 4 (1 # 2)
    = Some position
    /\ pos_progress position = 1 # 2.
Proof.
  assert (exists position,
            BusPositionCalculator.interpolateAlongRoute
              Night.calculateDistance Night.findNearestPointOnRoute
              Night.line (46001 # 1000) 4 (46009 # 1000) 4 (1 # 2)
            = Some position) as [position Hposition].
  { eexists. vm_compute. reflexivity. }
  exists position. split; [exact Hposition|].
  assert (Forall (fun v : Q * Q => geographic v.2 v.1) Night.line) as Hgeo.
  { repeat constructor; vm_compute; discriminate. }
  destruct (X16_interpolated_on_piece Night.calculateDistance
              Night.findNearestPointOnRoute Night.line
              (46001 # 1000) 4 (46009 # 1000) 4 (1 # 2) position
              Hgeo Hposition)
    as [H _].
  exact H.
Defined.

Lemma X18_witness :
  exists fromLat fromLon toLat toLon,
    BusPositionCalculator.calculatePosition Demo.parseFloat
      Night.calculateDistance Night.findNearestPointOnRoute Night.dmObject
      (Some (Night.between (1 # 2))) (Some "R1")
    = Some (straightLine fromLat fromLon toLat toLon (1 # 2)).
Proof.
  assert (exists q, Demo.parseFloat (stop_lat Night.Q1) = Some q)
    as [fromLat H1] by (eexists; vm_compute; reflexivity).
  assert (exists q, Demo.parseFloat (stop_lon Night.Q1) = Some q)
    as [fromLon H2] by (eexists; vm_compute; reflexivity).
  assert (exists q, Demo.parseFloat (stop_lat Night.Q2) = Some q)
    as [toLat H3] by (eexists; vm_compute; reflexivity).
  assert (exists q, Demo.parseFloat (stop_lon Night.Q2) = Some q)
    as [toLon H4] by (eexists; vm_compute; reflexivity).
  exists fromLat, fromLon, toLat, toLon.
  apply (X18_object_geometry_unused Demo.parseFloat Night.calculateDistance
           Night.findNearestPointOnRoute Night.dmObject Night.Q1 Night.Q2
           28800 28860 (1 # 2) (Some "R1") fromLat fromLon toLat toLon);
    try assumption.
  intros features feature vertices [= <-] Hin.
  apply list_elem_of_singleton in Hin as ->. discriminate.
Defined.

Lemma X19_witness :
  exists position fromLat fromLon toLat toLon,
    BusPositionCalculator.calculatePosition Demo.parseFloat
      Night.calculateDistance Night.findNearestPointOnRoute Night.dmObject
      (Some (Night.between (1 # 2))) (Some "R1")
    = Some position
    /\ Demo.parseFloat (stop_lat Night.Q1) = Some fromLat
    /\ Demo.parseFloat (stop_lon Night.Q1) = Some fromLon
    /\ Demo.parseFloat (stop_lat Night.Q2) = Some toLat
    /\ Demo.parseFloat (stop_lon Night.Q2) = Some toLon
    /\ (BusPositionCalculator.alongGeometry Night.calculateDistance
          Night.findNearestPointOnRoute Night.dmObject (Some "R1")
          fromLat fromLon toLat toLon (1 # 2) = Some position
        \/ ((Qmin fromLat toLat - oneMetre <= pos_lat position
             <= Qmax fromLat toLat + oneMetre)%Q
            /\ (Qmin fromLon toLon - oneMetre <= pos_lon position
                <= Qmax fromLon toLon + oneMetre)%Q)).
Proof.
  assert (exists position,
            BusPositionCalculator.calculatePosition Demo.parseFloat
              Night.calculateDistance Night.findNearestPointOnRoute
              Night.dmObject (Some (Night.between (1 # 2))) (Some "R1")
            = Some position) as [position Hposition].
  { eexists. vm_compute. reflexivity. }
  assert (exists q, Demo.parseFloat (stop_lat Night.Q1) = Some q
                    /\ (-90 <= q <= 90)%Q)
    as (fromLat & H1 & R1)
    by (eexists; split; [vm_compute; reflexivity|split; vm_compute; discriminate]).
  assert (exists q, Demo.parseFloat (stop_lon Night.Q1) = Some q
                    /\ (-180 <= q <= 180)%Q)
    as (fromLon & H2 & R2)
    by (eexists; split; [vm_compute; reflexivity|split; vm_compute; discriminate]).
  assert (exists q, Demo.parseFloat (stop_lat Night.Q2) = Some q
                    /\ (-90 <= q <= 90)%Q)
    as (toLat & H3 & R3)
    by (eexists; split; [vm_compute; reflexivity|split; vm_compute; discriminate]).
  assert (exists q, Demo.parseFloat (stop_lon Night.Q2) = Some q
                    /\ (-180 <= q <= 180)%Q)
    as (toLon & H4 & R4)
    by (eexists; split; [vm_compute; reflexivity|split; vm_compute; discriminate]).
  assert (0 <= 1 # 2 <= 1)%Q as Hp by (split; vm_compute; discriminate).
  exists position, fromLat, fromLon, toLat, toLon.
  split; [exact Hposition|]. split; [exact H1|]. split; [exact H2|].
  split; [exact H3|]. split; [exact H4|].
  exact (X19_position_between_stops Demo.parseFloat
           Night.calculateDistance Night.findNearestPointOnRoute
           Night.dmObject Night.Q1 Night.Q2 28800 28860 (1 # 2)
           (Some "R1") position fromLat fromLon toLat toLon Hp H1 H2 H3 H4
           (conj R1 R2) (conj R3 R4) Hposition).
Defined.


Lemma X22_witness :
  exists outcome,
    LocalPathfinder.findItinerary Night.calculateDistance
      Night.findStopsWithinRadius 100 Night.pf Night.atSquare Night.atQuay
      Night.midnight
    = Return outcome
    /\ wellShaped Night.atSquare Night.atQuay 0
         (Night.findStopsWithinRadius Night.dm Night.atSquare
            MAX_WALK_METERS)
         (Night.findStopsWithinRadius Night.dm Night.atQuay MAX_WALK_METERS)
         outcome.
Proof.
  assert (exists outcome,
            LocalPathfinder.findItinerary Night.calculateDistance
              Night.findStopsWithinRadius 100 Night.pf Night.atSquare
              Night.atQuay Night.midnight
            = Return outcome /\ status outcome = OK)
    as (outcome & Hreturn & Hok).
  { eexists. split; vm_compute; reflexivity. }
  exists outcome. split; [exact Hreturn|].
  apply (X22_itinerary_shape Night.calculateDistance
           Night.findStopsWithinRadius 100 Night.pf Night.atSquare
           Night.atQuay Night.midnight outcome).
  - split.
    + apply (bool_decide_unpack _). vm_compute. reflexivity.
    + vm_compute. reflexivity.
  - apply (bool_decide_unpack _). vm_compute. reflexivity.
  - exact Hreturn.
  - exact Hok.
Defined.

Lemma X23_witness :
  exists outcome,
    LocalPathfinder.findItinerary Night.calculateDistance
      Night.findStopsWithinRadius 100 Night.pf Night.atQuay
      (mkCoords (JNum 47) (JNum 4)) Night.twoPast
    = Return outcome
    /\ status outcome = NO_END_STOPS /\ path outcome = [].
Proof.
  assert (exists outcome,
            LocalPathfinder.findItinerary Night.calculateDistance
              Night.findStopsWithinRadius 100 Night.pf Night.atQuay
              (mkCoords (JNum 47) (JNum 4)) Night.twoPast
            = Return outcome /\ status outcome = NO_END_STOPS)
    as (outcome & Hreturn & Hstatus).
  { eexists. split; vm_compute; reflexivity. }
  exists outcome. split; [exact Hreturn|]. split; [exact Hstatus|].
  destruct (X23_early_outcomes Night.calculateDistance
              Night.findStopsWithinRadius 100 Night.pf Night.atQuay
              (mkCoords (JNum 47) (JNum 4)) Night.twoPast outcome Hreturn)
    as [H _].
  apply H. rewrite Hstatus. discriminate.
Defined.

Lemma X24_witness :
  timeToSeconds (clockOf 115200) = 28800
  /\ String.length (formatTime 115200) = 8%nat.
Proof.
  destruct (X24_clock_of_seconds 115200) as (_ & _ & _ & H1 & H2);
    [vm_compute; discriminate|].
  split; [exact H1|exact H2].
Defined.

Lemma X25_witness : clockOf (timeToSeconds (Demo.at_ 8 5 30)) = Demo.at_ 8 5 30.
Proof.
  apply (X25_seconds_of_clock (Demo.at_ 8 5 30));
    split; vm_compute; (discriminate || reflexivity).
Defined.

Lemma X26_witness :
  LocalPathfinder.findItinerary Night.calculateDistance
    Night.findStopsWithinRadius 1000 Night.pfTwin Night.atGate
    Night.atPier Night.midnight
  = OutOfFuel.
Proof.
  generalize 1000%nat.
  assert (exists dAB dBA,
            transferMap Night.pfTwin !! "Z0" = Some [mkTransfer "Z1" 0 dAB]
            /\ transferMap Night.pfTwin !! "Z1"
               = Some [mkTransfer "Z0" 0 dBA]) as (dAB & dBA & HtA & HtB).
  { do 2 eexists. split; vm_compute; reflexivity. }
  apply (X26_midnight_search_never_ends Night.calculateDistance
           Night.findStopsWithinRadius Night.pfTwin "Z0" "Z1" Night.Z0
           Night.Z1 dAB dBA Night.atGate Night.atPier Night.midnight);
    try exact HtA; try exact HtB; try reflexivity.
  - vm_compute. discriminate.
  - apply (bool_decide_unpack _). vm_compute. reflexivity.
  - vm_compute. discriminate.
  - apply (bool_decide_unpack _). vm_compute. reflexivity.
Defined.
